(** * Etho backend: the response-normalization pipeline of
    [app/services/gemini_service.py]

    A shallow embedding of [parse_json_response],
    [validate_and_enrich_response] and [analyze_video], and the properties
    the specification states about them.

    Conventions of the embedding.
    - A Python [str] is a [string]; every [ascii] stands for the code point
      of the same number (0..255).
    - A Python [dict] is an association list in insertion order, as Python
      dicts keep it; [dget] reads the first binding of a key and [dset]
      overwrites it in place or appends a new binding at the end.
    - Values are the trees [json.loads] builds: no two positions share an
      object, so in-place mutation is modelled by functional update.
    - A raised exception is a value of type [exn] in the [Raise] branch of
      [outcome].
    - What lies outside the program is a parameter: [json.loads], the
      remote SDK, the file system, and the rendering of a response body.
      Each returns or raises. *)

From Stdlib Require Import String Ascii List ZArith Bool Lia Arith DecimalString.
Import ListNotations.
Open Scope string_scope.
Set Warnings "-register-all".

(* ================================================================== *)
(** * Text *)
(* ================================================================== *)

Module Text.

(** [str.isspace] / the regex class [\s] on code points below 256:
    TAB..CR, FS..US, SPACE, NEL (0x85) and NBSP (0xA0). *)
Definition isspace (c : ascii) : bool :=
  let n := nat_of_ascii c in
  ((9 <=? n)%nat && (n <=? 13)%nat) || ((28 <=? n)%nat && (n <=? 32)%nat)
  || (n =? 133)%nat || (n =? 160)%nat.

Definition is_empty (s : string) : bool :=
  match s with EmptyString => true | String _ _ => false end.

(** [s.split()] with no separator: runs of whitespace delimit the words and
    no empty word is produced.  [word] is the word being scanned. *)
Fixpoint split_acc (word : string) (s : string) : list string :=
  match s with
  | EmptyString => if is_empty word then [] else [word]
  | String c s' =>
      if isspace c
      then (if is_empty word then split_acc "" s' else word :: split_acc "" s')
      else split_acc (word ++ String c "") s'
  end.

Definition split (s : string) : list string := split_acc "" s.

(** [sep.join(ws)] *)
Definition join (sep : string) (ws : list string) : string :=
  String.concat sep ws.

(** [s[:n]] *)
Definition take (n : nat) (s : string) : string := substring 0 n s.

(** [needle in s] for two strings: [needle] occurs as a substring. *)
Fixpoint occurs (needle s : string) : bool :=
  prefix needle s ||
  match s with
  | EmptyString => false
  | String _ s' => occurs needle s'
  end.

(** No character of the string is whitespace. *)
Fixpoint nospace (s : string) : bool :=
  match s with
  | EmptyString => true
  | String c s' => negb (isspace c) && nospace s'
  end.

(** What a word of [split] looks like. *)
Definition is_word (w : string) : Prop := w <> "" /\ nospace w = true.

End Text.

(* ================================================================== *)
(** * Values and dicts *)
(* ================================================================== *)

(** A Python [float]: the IEEE-754 cases, a finite non-zero one being
    [(-1)^neg * m * 2^e]. *)
Inductive pyfloat :=
| FNan
| FInf (neg : bool)
| FZero (neg : bool)
| FFinite (neg : bool) (m : positive) (e : Z).

(** The values [json.loads] produces. *)
Inductive value :=
| VNone
| VBool (b : bool)
| VInt (n : Z)
| VFloat (f : pyfloat)
| VStr (s : string)
| VList (l : list value)
| VDict (d : list (string * value)).

Definition dict := list (string * value).

(** [k in d] / [d.get(k)] / [d[k]] on a present key *)
Fixpoint dget (k : string) (d : dict) : option value :=
  match d with
  | [] => None
  | (k', v) :: d' => if (k =? k')%string then Some v else dget k d'
  end.

Definition dmem (k : string) (d : dict) : bool :=
  match dget k d with Some _ => true | None => false end.

(** [d[k] = v] *)
Fixpoint dset (k : string) (v : value) (d : dict) : dict :=
  match d with
  | [] => [(k, v)]
  | (k', v') :: d' =>
      if (k =? k')%string then (k', v) :: d' else (k', v') :: dset k v d'
  end.

Definition keys (d : dict) : list string := map fst d.

(** Exceptions.  [ValueError] and [RemoteError] carry the message given at
    the raise site, by the interpreter or by the remote SDK;
    [AttributeError], [TypeError] and [KeyError] are raised by the
    interpreter; [JSONDecodeError] and [RecursionError] are what
    [json.loads] raises on a text that is not JSON and on one nested too
    deep. *)
Inductive exn :=
| ValueError (msg : string)
| RemoteError (msg : string)
| AttributeError
| TypeError
| KeyError
| JSONDecodeError
| RecursionError.

Inductive outcome (A : Type) :=
| Ok (a : A)
| Raise (e : exn).
Arguments Ok {A} a.
Arguments Raise {A} e.

Definition bind {A B} (m : outcome A) (f : A -> outcome B) : outcome B :=
  match m with
  | Ok a => f a
  | Raise e => Raise e
  end.

Notation "x <- m ;; k" := (bind m (fun x => k))
  (at level 61, m at next level, right associativity).

(** ** Python operators on values *)

(** Exact comparison of a float with an integer, as [float.__le__] does. *)
Definition float_le_int (f : pyfloat) (z : Z) : bool :=
  match f with
  | FNan => false
  | FInf neg => neg
  | FZero _ => (0 <=? z)%Z
  | FFinite neg m e =>
      let sm := if neg then Z.neg m else Z.pos m in
      if (0 <=? e)%Z then (sm * 2 ^ e <=? z)%Z
      else (sm <=? z * 2 ^ (- e))%Z
  end.

Definition int_le_float (z : Z) (f : pyfloat) : bool :=
  match f with
  | FNan => false
  | FInf neg => negb neg
  | FZero _ => (z <=? 0)%Z
  | FFinite neg m e =>
      let sm := if neg then Z.neg m else Z.pos m in
      if (0 <=? e)%Z then (z <=? sm * 2 ^ e)%Z
      else (z * 2 ^ (- e) <=? sm)%Z
  end.

(** [v <= z] for an integer literal [z]: defined on [int], [bool] and
    [float], a [TypeError] on everything else. *)
Definition le_int (v : value) (z : Z) : outcome bool :=
  match v with
  | VInt n => Ok (n <=? z)%Z
  | VBool b => Ok ((if b then 1 else 0) <=? z)%Z
  | VFloat f => Ok (float_le_int f z)
  | _ => Raise TypeError
  end.

(** [bool(v)] *)
Definition truthy (v : value) : bool :=
  match v with
  | VNone => false
  | VBool b => b
  | VInt n => negb (n =? 0)%Z
  | VFloat (FZero _) => false
  | VFloat _ => true
  | VStr s => negb (Text.is_empty s)
  | VList [] => false
  | VList _ => true
  | VDict [] => false
  | VDict _ => true
  end.

(** [v == "..."] for a string literal *)
Definition eq_str (v : value) (s : string) : bool :=
  match v with
  | VStr t => (t =? s)%string
  | _ => false
  end.

(** [v == False]: numbers compare by value, so [0] and [0.0] are equal to
    [False] as well. *)
Definition eq_False (v : value) : bool :=
  match v with
  | VBool b => negb b
  | VInt n => (n =? 0)%Z
  | VFloat (FZero _) => true
  | _ => false
  end.

Definition is_dict (v : value) : bool :=
  match v with VDict _ => true | _ => false end.

(* ================================================================== *)
(** * The schema normalizer: [validate_and_enrich_response] *)
(* ================================================================== *)

Module Normalizer.

(** The [defaults] literal, in source order. *)
Definition default_overall_assessment : dict :=
  [ ("distress_score", VInt 50);
    ("zone", VStr "yellow");
    ("zone_label", VStr "MODERATE");
    ("confidence", VStr "medium");
    ("primary_state", VStr "alert");
    ("summary", VStr "Analysis in progress") ].

Definition default_visual_analysis : dict :=
  [ ("facs_codes_detected", VList []);
    ("key_observations", VList []);
    ("body_posture", VStr "Not assessed");
    ("confidence", VStr "medium") ].

Definition default_audio_analysis : dict :=
  [ ("vocalizations_detected", VList []);
    ("solicitation_purr_detected", VBool false) ].

Definition default_advisory : dict :=
  [ ("headline", VStr "Continue monitoring");
    ("detailed_recommendations", VList []);
    ("urgency", VStr "routine") ].

Definition defaults : dict :=
  [ ("pet_detected", VBool true);
    ("species", VStr "unknown");
    ("breed_detected", VStr "unknown");
    ("morphology_type", VStr "standard");
    ("morphology_adjustments_applied", VList []);
    ("video_type", VStr "single_shot");
    ("video_context", VStr "Pet video analysis");
    ("overall_assessment", VDict default_overall_assessment);
    ("visual_analysis", VDict default_visual_analysis);
    ("audio_analysis", VDict default_audio_analysis);
    ("timeline", VList []);
    ("interpret_lines", VList []);
    ("advisory", VDict default_advisory) ].

(** The inner loop of the merge:
    [for subkey, subdefault in default_value.items():
       if subkey not in result[key]: result[key][subkey] = subdefault] *)
Definition backfill_key (sub : dict) (kd : string * value) : dict :=
  if dmem (fst kd) sub then sub else dset (fst kd) (snd kd) sub.

Definition backfill (default_value sub : dict) : dict :=
  fold_left backfill_key default_value sub.

(** One round of the outer loop, for the pair [(key, default_value)]. *)
Definition merge_key (result : dict) (kd : string * value) : dict :=
  match dget (fst kd) result with
  | None => dset (fst kd) (snd kd) result
  | Some cur =>
      match snd kd, cur with
      | VDict default_value, VDict sub =>
          dset (fst kd) (VDict (backfill default_value sub)) result
      | _, _ => result
      end
  end.

(** [for key, default_value in defaults.items(): ...] *)
Definition merge_with (defs : dict) (result : dict) : dict :=
  fold_left merge_key defs result.

Definition merge_defaults (result : dict) : dict := merge_with defaults result.

(** [result["overall_assessment"]["zone"] = zone] and the same for
    [zone_label]. *)
Definition assign_zone (zone label : string) (result : dict) : outcome dict :=
  match dget "overall_assessment" result with
  | None => Raise KeyError
  | Some (VDict oa) =>
      Ok (dset "overall_assessment"
            (VDict (dset "zone_label" (VStr label) (dset "zone" (VStr zone) oa)))
            result)
  | Some _ => Raise TypeError
  end.

(** [distress = result.get("overall_assessment", {}).get("distress_score", 50)] *)
Definition read_distress (result : dict) : outcome value :=
  match dget "overall_assessment" result with
  | None => Ok (VInt 50)
  | Some (VDict oa) =>
      match dget "distress_score" oa with
      | Some v => Ok v
      | None => Ok (VInt 50)
      end
  | Some _ => Raise AttributeError
  end.

(** The zone consistency step. *)
Definition fix_zone (result : dict) : outcome dict :=
  distress <- read_distress result ;;
  low <- le_int distress 33 ;;
  if low then assign_zone "green" "LOW" result
  else
    mid <- le_int distress 66 ;;
    if mid then assign_zone "yellow" "MODERATE" result
    else assign_zone "red" "ELEVATED" result.

Definition fpi : string := "first_person_interpretation".

(** The body of the loop over [result["interpret_lines"]], for one [line].
    ["..." in line] is key membership on a dict, element membership on a
    list, substring search on a string and a [TypeError] on anything else;
    [line["..."]] then needs a dict, and [.split()] a string. *)
Definition truncate_line (line : value) : outcome value :=
  match line with
  | VDict d =>
      match dget fpi d with
      | None => Ok line
      | Some (VStr text) =>
          let words := Text.split text in
          if (6 <? List.length words)%nat
          then Ok (VDict (dset fpi (VStr (Text.join " " (firstn 6 words))) d))
          else Ok line
      | Some _ => Raise AttributeError
      end
  | VList l => if existsb (fun x => eq_str x fpi) l then Raise TypeError else Ok line
  | VStr s => if Text.occurs fpi s then Raise TypeError else Ok line
  | _ => Raise TypeError
  end.

Fixpoint for_each (f : value -> outcome value) (l : list value)
  : outcome (list value) :=
  match l with
  | [] => Ok []
  | x :: l' => y <- f x ;; ys <- for_each f l' ;; Ok (y :: ys)
  end.

Fixpoint chars (s : string) : list value :=
  match s with
  | EmptyString => []
  | String c s' => VStr (String c "") :: chars s'
  end.

(** [if "interpret_lines" in result: for line in result["interpret_lines"]: ...].
    Iterating a list visits its elements (dicts among them are updated in
    place), iterating a dict its keys, iterating a string its characters. *)
Definition truncate_lines (result : dict) : outcome dict :=
  match dget "interpret_lines" result with
  | None => Ok result
  | Some (VList lines) =>
      lines' <- for_each truncate_line lines ;;
      Ok (dset "interpret_lines" (VList lines') result)
  | Some (VDict d) =>
      _ <- for_each truncate_line (map VStr (keys d)) ;; Ok result
  | Some (VStr s) =>
      _ <- for_each truncate_line (chars s) ;; Ok result
  | Some _ => Raise TypeError
  end.

Definition validate_and_enrich_response (result : dict) : outcome dict :=
  result <- fix_zone (merge_defaults result) ;;
  truncate_lines result.

(** ** Notions used to state the properties *)

(** The value a key holds after its round of the merge loop, from the
    default and from what the key held before ([None]: absent). *)
Definition merged_value (default_value : value) (cur : option value) : value :=
  match cur with
  | None => default_value
  | Some c =>
      match default_value, c with
      | VDict d, VDict sub => VDict (backfill d sub)
      | _, _ => c
      end
  end.

(** [covers dv c]: a dict [c] under a dict default binds every sub-key of
    the default. *)
Definition covers (dv c : value) : Prop :=
  forall d sub, dv = VDict d -> c = VDict sub ->
  forall sk, In sk (keys d) -> dmem sk sub = true.

(** A result is [complete] when every canonical key is bound, and bound
    dicts under dict defaults bind every default sub-key. *)
Definition complete (r : dict) : Prop :=
  forall k dv, dget k defaults = Some dv ->
  exists c, dget k r = Some c /\ covers dv c.

(** The score the zone step reads from the assessment sub-dict. *)
Definition score_of (oa : dict) : value :=
  match dget "distress_score" oa with
  | Some v => v
  | None => VInt 50
  end.

(** The branch the zone step takes, as the pair it assigns. *)
Definition zone_of_score (distress : value) : outcome (string * string) :=
  low <- le_int distress 33 ;;
  if low then Ok ("green", "LOW")
  else
    mid <- le_int distress 66 ;;
    if mid then Ok ("yellow", "MODERATE") else Ok ("red", "ELEVATED").

(** The assessment sub-dict after the two assignments. *)
Definition with_zone (zl : string * string) (oa : dict) : dict :=
  dset "zone_label" (VStr (snd zl)) (dset "zone" (VStr (fst zl)) oa).

(** The text a line ends up with: at most the first six words. *)
Definition capped (text : string) : string :=
  if (6 <? List.length (Text.split text))%nat
  then Text.join " " (firstn 6 (Text.split text))
  else text.

(** The score an input carries: its [distress_score] when the assessment
    sub-dict binds one, the default 50 otherwise. *)
Definition input_score (r : dict) : value :=
  match dget "overall_assessment" r with
  | Some (VDict oa) => score_of oa
  | _ => VInt 50
  end.

(** [v <= z] and [z <= v] as statements about a numeric score (an [int], a
    [bool] counting as 0 or 1, or a [float] compared exactly). *)
Definition score_le (v : value) (z : Z) : Prop :=
  match v with
  | VInt n => (n <= z)%Z
  | VBool b => ((if b then 1 else 0) <= z)%Z
  | VFloat f => float_le_int f z = true
  | _ => False
  end.

Definition score_ge (v : value) (z : Z) : Prop :=
  match v with
  | VInt n => (z <= n)%Z
  | VBool b => (z <= (if b then 1 else 0))%Z
  | VFloat f => int_le_float z f = true
  | _ => False
  end.

(** Values [<=] accepts against an integer. *)
Definition numeric (v : value) : bool :=
  match v with
  | VInt _ | VBool _ | VFloat _ => true
  | _ => false
  end.

(** A line the loop over [interpret_lines] handles without raising when
    all lines are dicts: its text field, when bound, is a string. *)
Definition line_ok (line : value) : Prop :=
  exists d, line = VDict d /\
    (dget fpi d = None \/ exists text, dget fpi d = Some (VStr text)).

End Normalizer.

(* ================================================================== *)
(** * Regular expressions: the fragment of [re] the extractor uses *)
(* ================================================================== *)

Module Regex.

(** The pieces the two patterns are made of. *)
Inductive item :=
| Lit (s : string)                              (* literal text *)
| OptLit (s : string)                           (* (?:s)? *)
| Star (greedy : bool) (cls : ascii -> bool)    (* cls* and cls*? *)
| Open                                          (* ( of group 1 *)
| Close.                                        (* ) of group 1 *)

Definition pattern := list item.

(** Bounds of group 1, as positions in the searched text. *)
Record caps := { open1 : nat; close1 : nat }.

(** A match: where group 0 starts and ends, and group 1. *)
Record found := { m_start : nat; m_end : nat; m_caps : caps }.

(** The rest of a match: from a position, the text left and the captures
    so far, the end position and the captures, or failure. *)
Definition cont := nat -> string -> caps -> option (nat * caps).

Fixpoint strip_prefix (p s : string) : option string :=
  match p, s with
  | EmptyString, _ => Some s
  | String a p', String b s' => if Ascii.eqb a b then strip_prefix p' s' else None
  | String _ _, EmptyString => None
  end.

(** [cls*]: as many characters as possible, giving one back at a time. *)
Fixpoint star_greedy (cls : ascii -> bool) (k : cont)
    (pos : nat) (s : string) (c : caps) {struct s} : option (nat * caps) :=
  match s with
  | String a s' =>
      if cls a then
        match star_greedy cls k (S pos) s' c with
        | Some r => Some r
        | None => k pos s c
        end
      else k pos s c
  | EmptyString => k pos s c
  end.

(** [cls*?]: as few characters as possible, taking one more at a time. *)
Fixpoint star_lazy (cls : ascii -> bool) (k : cont)
    (pos : nat) (s : string) (c : caps) {struct s} : option (nat * caps) :=
  match k pos s c with
  | Some r => Some r
  | None =>
      match s with
      | String a s' => if cls a then star_lazy cls k (S pos) s' c else None
      | EmptyString => None
      end
  end.

(** Backtracking match of a pattern at a position. *)
Fixpoint run (p : pattern) : cont :=
  match p with
  | [] => fun pos _ c => Some (pos, c)
  | it :: p' =>
      let k := run p' in
      match it with
      | Lit l => fun pos s c =>
          match strip_prefix l s with
          | Some s' => k (pos + String.length l)%nat s' c
          | None => None
          end
      | OptLit l => fun pos s c =>
          match strip_prefix l s with
          | Some s' =>
              match k (pos + String.length l)%nat s' c with
              | Some r => Some r
              | None => k pos s c
              end
          | None => k pos s c
          end
      | Star true cls => star_greedy cls k
      | Star false cls => star_lazy cls k
      | Open => fun pos s c => k pos s {| open1 := pos; close1 := close1 c |}
      | Close => fun pos s c => k pos s {| open1 := open1 c; close1 := pos |}
      end
  end.

(** [re.search]: the match at the leftmost position that has one. *)
Fixpoint search_from (p : pattern) (pos : nat) (s : string) : option found :=
  match run p pos s {| open1 := 0; close1 := 0 |} with
  | Some (e, c) => Some {| m_start := pos; m_end := e; m_caps := c |}
  | None =>
      match s with
      | String _ s' => search_from p (S pos) s'
      | EmptyString => None
      end
  end.

Definition search (p : pattern) (s : string) : option found := search_from p 0 s.

(** [m.group(0)] and [m.group(1)] *)
Definition group0 (m : found) (s : string) : string :=
  substring (m_start m) (m_end m - m_start m) s.

Definition group1 (m : found) (s : string) : string :=
  substring (open1 (m_caps m)) (close1 (m_caps m) - open1 (m_caps m)) s.

Definition any (_ : ascii) : bool := true.

Definition fence : string := "```".

(** [r'```(?:json)?\s*([\s\S]*?)\s*```'] *)
Definition fence_re : pattern :=
  [ Lit fence; OptLit "json"; Star true Text.isspace;
    Open; Star false any; Close;
    Star true Text.isspace; Lit fence ].

(** [r'\{[\s\S]*\}'] *)
Definition brace_re : pattern := [ Lit "{"; Star true any; Lit "}" ].

End Regex.

(* ================================================================== *)
(** * The response extractor: [parse_json_response] *)
(* ================================================================== *)

Module Extractor.
Import Regex.

(** The error structure returned when nothing parses. *)
Definition parse_failure (response_text : string) : value :=
  VDict [ ("error", VBool true);
          ("error_type", VStr "parse_error");
          ("message", VStr "Failed to parse JSON response");
          ("raw_response", VStr (Text.take 1000 response_text)) ].

(** ** Text operations the reference reading is written with *)

(** [s[n:]] *)
Fixpoint drop (n : nat) (s : string) : string :=
  match n, s with
  | O, _ => s
  | S n', String _ s' => drop n' s'
  | S _, EmptyString => EmptyString
  end.

(** [s.find(needle)] *)
Fixpoint find (needle s : string) : option nat :=
  if prefix needle s then Some 0%nat
  else
    match s with
    | String _ s' => option_map S (find needle s')
    | EmptyString => None
    end.

(** [s.rfind(a)] for one character *)
Fixpoint rfind (a : ascii) (s : string) : option nat :=
  match s with
  | EmptyString => None
  | String b s' =>
      match rfind a s' with
      | Some j => Some (S j)
      | None => if Ascii.eqb a b then Some 0%nat else None
      end
  end.

(** Number of leading whitespace characters. *)
Fixpoint ws_run (s : string) : nat :=
  match s with
  | String a s' => if Text.isspace a then S (ws_run s') else 0
  | EmptyString => 0
  end.

(** Length of the string once trailing whitespace is removed. *)
Fixpoint rstrip_len (s : string) : nat :=
  match s with
  | EmptyString => 0
  | String a s' =>
      match rstrip_len s' with
      | O => if Text.isspace a then 0 else 1
      | S n => S (S n)
      end
  end.

(** [s.strip()] *)
Definition strip (s : string) : string :=
  let u := drop (ws_run s) s in Text.take (rstrip_len u) u.

Section WithDecoder.

(** [json.loads] on a string: the decoded value, or what it raises.  That
    is [JSONDecodeError] on a text that is not JSON, and on some texts
    another exception: [RecursionError] on deep nesting, [ValueError] on an
    integer literal above the interpreter's limit on digits. *)
Variable json_loads : string -> outcome value.

(** [try: return json.loads(t) except json.JSONDecodeError: pass].
    [Some] leaves the function, with the value returned or with the
    exception the handler does not catch; [None] goes on to the next
    statement. *)
Definition try_loads (t : string) : option (outcome value) :=
  match json_loads t with
  | Ok v => Some (Ok v)
  | Raise JSONDecodeError => None
  | Raise e => Some (Raise e)
  end.

(** [if json_match: try: ...] after a search. *)
Definition try_match (m : option found) (pick : found -> string -> string)
    (response_text : string) : option (outcome value) :=
  match m with
  | Some m => try_loads (pick m response_text)
  | None => None
  end.

Definition parse_json_response (response_text : string) : outcome value :=
  match try_loads response_text with
  | Some r => r
  | None =>
      match try_match (search fence_re response_text) group1 response_text with
      | Some r => r
      | None =>
          match try_match (search brace_re response_text) group0 response_text with
          | Some r => r
          | None => Ok (parse_failure response_text)
          end
      end
  end.

(** ** The reference reading of the four strategies *)

(** Strategy 2: the interior of the first fenced block.  The block opens at
    the first fence, an immediately following [json] is its tag, it closes
    at the next fence, and the interior is what lies between, without the
    whitespace around it. *)
Definition fenced_interior (s : string) : option string :=
  match find fence s with
  | None => None
  | Some i =>
      let after := drop (i + 3) s in
      let tagged := if prefix "json" after then drop 4 after else after in
      match find fence tagged with
      | None => None
      | Some k => Some (strip (Text.take k tagged))
      end
  end.

(** Strategy 3: from the first opening brace to the last closing brace. *)
Definition brace_span (s : string) : option string :=
  match find "{" s, rfind "}" s with
  | Some i, Some j =>
      if (i <? j)%nat then Some (substring i (j + 1 - i) s) else None
  | _, _ => None
  end.

(** One strategy: nothing when there is no candidate text or the decoder
    raises [JSONDecodeError] on it, else what the decoder returns or
    raises. *)
Definition attempt (candidate : option string) : option (outcome value) :=
  match candidate with
  | Some t => try_loads t
  | None => None
  end.

(** The first of the attempts that ends the extraction, in order. *)
Fixpoint first_success (attempts : list (option (outcome value)))
    (otherwise : value) : outcome value :=
  match attempts with
  | [] => Ok otherwise
  | Some r :: _ => r
  | None :: rest => first_success rest otherwise
  end.

Definition reference_extract (s : string) : outcome value :=
  first_success
    [ attempt (Some s);
      attempt (fenced_interior s);
      attempt (brace_span s) ]
    (parse_failure s).


End WithDecoder.

(** ** Notions used to relate the searches to the reference reading *)

(** The text continues with optional whitespace and a fence. *)
Definition closes_at (u : string) : bool := prefix fence (drop (ws_run u) u).

(** Where group 1 of the fence pattern lies in a text that starts right
    after the tag and the whitespace following it. *)
Definition body_match (p : nat) (t : string) : option (nat * caps) :=
  match find fence t with
  | None => None
  | Some k =>
      Some ((p + k + 3)%nat,
            {| open1 := p; close1 := (p + rstrip_len (Text.take k t))%nat |})
  end.

(** The bounds of the interior of the first fenced block. *)
Definition interior_bounds (s : string) : option (nat * nat) :=
  match find fence s with
  | None => None
  | Some i =>
      let after := drop (i + 3) s in
      let tag := if prefix "json" after then 4%nat else 0%nat in
      let tagged := drop tag after in
      let n := ws_run tagged in
      let body := drop n tagged in
      match find fence body with
      | None => None
      | Some k =>
          Some ((i + 3 + tag + n)%nat,
                (i + 3 + tag + n + rstrip_len (Text.take k body))%nat)
      end
  end.

(** The bounds of the span from the first opening to the last closing
    brace. *)
Definition brace_bounds (s : string) : option (nat * nat) :=
  match find "{" s, rfind "}" s with
  | Some i, Some j => if (i <? j)%nat then Some (i, (j + 1)%nat) else None
  | _, _ => None
  end.

End Extractor.

(* ================================================================== *)
(** * A decoder for a fragment of JSON *)
(* ================================================================== *)

(** The extractor and the orchestrator are stated for every behaviour of
    [json.loads].  To run them on concrete texts this module gives one
    decoder: [null], [true], [false], [NaN], [Infinity], [-Infinity],
    integers, strings with the one-character escapes, arrays and objects.
    An integer literal of more than 4300 digits raises the interpreter's
    [ValueError]; everything outside the fragment is declined with
    [JSONDecodeError]. *)
Module Json.

Definition quote : ascii := "034"%char.
Definition backslash : ascii := "092"%char.

Definition is_ws (c : ascii) : bool :=
  let n := nat_of_ascii c in
  (n =? 32)%nat || (n =? 9)%nat || (n =? 10)%nat || (n =? 13)%nat.

Fixpoint skip_ws (s : string) : string :=
  match s with
  | String c s' => if is_ws c then skip_ws s' else s
  | EmptyString => s
  end.

Definition digit (c : ascii) : option Z :=
  let n := nat_of_ascii c in
  if (48 <=? n)%nat && (n <=? 57)%nat then Some (Z.of_nat (n - 48)) else None.

Fixpoint read_digits (acc : Z) (s : string) : Z * string :=
  match s with
  | String c s' =>
      match digit c with
      | Some d => read_digits (10 * acc + d) s'
      | None => (acc, s)
      end
  | EmptyString => (acc, s)
  end.

Definition starts_fraction (s : string) : bool :=
  match s with
  | String c _ => Ascii.eqb c "." || Ascii.eqb c "e" || Ascii.eqb c "E"
  | EmptyString => false
  end.

(** [sys.get_int_max_str_digits()], the interpreter's limit on the digits
    of an integer converted from a string (CPython 3.11 and the later
    releases of 3.7 to 3.10), at its default. *)
Definition max_str_digits : nat := 4300.

(** What [int] raises on a literal of [digits] digits above the limit. *)
Definition digit_limit_error (digits : nat) : exn :=
  ValueError
    ("Exceeds the limit (4300 digits) for integer string conversion: value has "
     ++ NilEmpty.string_of_uint (Nat.to_uint digits)
     ++ " digits; use sys.set_int_max_str_digits() to increase the limit").

(** The conversion of a literal that ends where [rest] starts. *)
Definition to_int (n : Z) (s rest : string) : outcome (Z * string) :=
  let digits := (String.length s - String.length rest)%nat in
  if (max_str_digits <? digits)%nat then Raise (digit_limit_error digits)
  else Ok (n, rest).

(** A non-negative integer without a leading zero. *)
Definition read_nat (s : string) : outcome (Z * string) :=
  match s with
  | String c s' =>
      match digit c with
      | Some d =>
          let (n, rest) :=
            if (d =? 0)%Z then (0%Z, s') else read_digits d s' in
          if starts_fraction rest then Raise JSONDecodeError
          else match rest with
               | String c' _ => match digit c' with
                                | Some _ => Raise JSONDecodeError
                                | None => to_int n s rest
                                end
               | EmptyString => to_int n s rest
               end
      | None => Raise JSONDecodeError
      end
  | EmptyString => Raise JSONDecodeError
  end.

Definition unescape (c : ascii) : option ascii :=
  if Ascii.eqb c quote then Some quote
  else if Ascii.eqb c backslash then Some backslash
  else if Ascii.eqb c "/" then Some "/"%char
  else if Ascii.eqb c "b" then Some "008"%char
  else if Ascii.eqb c "f" then Some "012"%char
  else if Ascii.eqb c "n" then Some "010"%char
  else if Ascii.eqb c "r" then Some "013"%char
  else if Ascii.eqb c "t" then Some "009"%char
  else None.

(** The characters of a string literal, after its opening quote. *)
Fixpoint read_string (s : string) : option (string * string) :=
  match s with
  | EmptyString => None
  | String c s' =>
      if Ascii.eqb c quote then Some (EmptyString, s')
      else if Ascii.eqb c backslash then
        match s' with
        | String e s'' =>
            match unescape e, read_string s'' with
            | Some ch, Some (t, rest) => Some (String ch t, rest)
            | _, _ => None
            end
        | EmptyString => None
        end
      else if (nat_of_ascii c <? 32)%nat then None
      else
        match read_string s' with
        | Some (t, rest) => Some (String c t, rest)
        | None => None
        end
  end.

Definition read_word (w : string) (v : value) (s : string)
  : outcome (value * string) :=
  match Regex.strip_prefix w s with
  | Some rest => Ok (v, rest)
  | None => Raise JSONDecodeError
  end.

Fixpoint read_value (fuel : nat) (s : string) : outcome (value * string) :=
  match fuel with
  | O => Raise JSONDecodeError
  | S fuel' =>
      match skip_ws s with
      | EmptyString => Raise JSONDecodeError
      | String c rest as t =>
          if Ascii.eqb c quote then
            match read_string rest with
            | Some (x, rest') => Ok (VStr x, rest')
            | None => Raise JSONDecodeError
            end
          else if Ascii.eqb c "[" then
            match skip_ws rest with
            | String "]" rest' => Ok (VList [], rest')
            | _ => read_items fuel' rest []
            end
          else if Ascii.eqb c "{" then
            match skip_ws rest with
            | String "}" rest' => Ok (VDict [], rest')
            | _ => read_members fuel' rest []
            end
          else if Ascii.eqb c "n" then read_word "null" VNone t
          else if Ascii.eqb c "t" then read_word "true" (VBool true) t
          else if Ascii.eqb c "f" then read_word "false" (VBool false) t
          else if Ascii.eqb c "N" then read_word "NaN" (VFloat FNan) t
          else if Ascii.eqb c "I" then
            read_word "Infinity" (VFloat (FInf false)) t
          else if Ascii.eqb c "-" then
            match Regex.strip_prefix "Infinity" rest with
            | Some rest' => Ok (VFloat (FInf true), rest')
            | None =>
                nr <- read_nat rest ;;
                Ok (VInt (- fst nr), snd nr)
            end
          else
            nr <- read_nat t ;;
            Ok (VInt (fst nr), snd nr)
      end
  end
with read_items (fuel : nat) (s : string) (acc : list value)
  : outcome (value * string) :=
  match fuel with
  | O => Raise JSONDecodeError
  | S fuel' =>
      match read_value fuel' s with
      | Ok (v, rest) =>
          match skip_ws rest with
          | String "," rest' => read_items fuel' rest' (acc ++ [v])%list
          | String "]" rest' => Ok (VList (acc ++ [v])%list, rest')
          | _ => Raise JSONDecodeError
          end
      | Raise e => Raise e
      end
  end
with read_members (fuel : nat) (s : string) (acc : dict)
  : outcome (value * string) :=
  match fuel with
  | O => Raise JSONDecodeError
  | S fuel' =>
      match skip_ws s with
      | String c rest =>
          if Ascii.eqb c quote then
            match read_string rest with
            | Some (k, rest1) =>
                match skip_ws rest1 with
                | String ":" rest2 =>
                    match read_value fuel' rest2 with
                    | Ok (v, rest3) =>
                        match skip_ws rest3 with
                        | String "," rest' => read_members fuel' rest' (dset k v acc)
                        | String "}" rest' => Ok (VDict (dset k v acc), rest')
                        | _ => Raise JSONDecodeError
                        end
                    | Raise e => Raise e
                    end
                | _ => Raise JSONDecodeError
                end
            | None => Raise JSONDecodeError
            end
          else Raise JSONDecodeError
      | EmptyString => Raise JSONDecodeError
      end
  end.

(** A whole document: one value and nothing but whitespace after it. *)
Definition loads (s : string) : outcome value :=
  match read_value (2 * String.length s + 2) s with
  | Ok (v, rest) =>
      match skip_ws rest with
      | EmptyString => Ok v
      | String _ _ => Raise JSONDecodeError
      end
  | Raise e => Raise e
  end.


(** [t] between double quotes. *)
Definition quoted (t : string) : string := String quote (t ++ String quote "").



(** Answers of the remote side used to run the orchestrator. *)
Definition example_no_pet : string :=
  "{" ++ quoted "pet_detected" ++ ": false, "
      ++ quoted "message" ++ ": " ++ quoted "Only a sofa" ++ "}".

Definition example_no_pet_bare : string :=
  "{" ++ quoted "pet_detected" ++ ": false}".

Definition example_in_band : string :=
  "{" ++ quoted "error" ++ ": true, "
      ++ quoted "error_type" ++ ": " ++ quoted "parse_error" ++ ", "
      ++ quoted "pet_detected" ++ ": false}".

Definition example_other_error : string :=
  "{" ++ quoted "error" ++ ": true, "
      ++ quoted "error_type" ++ ": " ++ quoted "quota" ++ ", "
      ++ quoted "species" ++ ": " ++ quoted "dog" ++ "}".

Definition example_no_pet_nan : string :=
  "{" ++ quoted "pet_detected" ++ ": false, "
      ++ quoted "message" ++ ": NaN}".

Definition example_species : string :=
  "{" ++ quoted "species" ++ ": " ++ quoted "cat" ++ "}".

Definition example_score_nan : string :=
  "{" ++ quoted "overall_assessment" ++ ": {"
      ++ quoted "distress_score" ++ ": NaN}}".

(** [n] times the character [c]. *)
Fixpoint repeat (c : ascii) (n : nat) : string :=
  match n with
  | O => EmptyString
  | S n' => String c (repeat c n')
  end.

(** An integer literal of 5000 digits. *)
Definition example_long_integer : string := repeat "1" 5000.

End Json.

(* ================================================================== *)
(** * The analysis orchestrator: [analyze_video] *)
(* ================================================================== *)

Module Orchestrator.
Import Normalizer.

(** The handle [genai.upload_file] and [genai.get_file] return:
    [video_file.name] and [video_file.state.name]. *)
Record file := { name : string; state : string }.

(** Everything outside the program.  The remote calls answer with a value
    or raise; [get_file] is indexed by the number of polls made so far, so
    that its answer can change over time; what [delete_file] answers is
    discarded by the bare [except: pass] around it. *)
Record world := {
  api_key : option string;                        (* os.environ.get("GEMINI_API_KEY") *)
  extension : string -> string;                   (* os.path.splitext(path)[1].lower() *)
  upload_file : string -> string -> outcome file; (* genai.upload_file(path=..., mime_type=...) *)
  get_file : nat -> string -> outcome file;       (* genai.get_file(name) *)
  generate_content : file -> string -> outcome string;  (* model.generate_content(...).text *)
  delete_file : string -> outcome unit;           (* genai.delete_file(name) *)
  json_loads : string -> outcome value;           (* json.loads(text) *)
  analysis_prompt : string;                       (* the f-string around ETHOLOGICAL_SYSTEM_PROMPT *)
  interpreter_message : exn -> string             (* str(e) of an interpreter error *)
}.

(** The remote calls made, in order. *)
Inductive event :=
| Upload (video_path mime_type : string)
| GetFile (file_name : string)
| Generate (video_file : file)
| Delete (file_name : string).

Definition is_generate (e : event) : bool :=
  match e with Generate _ => true | _ => false end.

(** [str(e)] *)
Definition str (w : world) (e : exn) : string :=
  match e with
  | ValueError msg => msg
  | RemoteError msg => msg
  | _ => interpreter_message w e
  end.

Definition get_gemini_client (w : world) : outcome unit :=
  match api_key w with
  | Some key =>
      if Text.is_empty key
      then Raise (ValueError "GEMINI_API_KEY environment variable not set")
      else Ok tt
  | None => Raise (ValueError "GEMINI_API_KEY environment variable not set")
  end.

(** [while video_file.state.name == "PROCESSING": time.sleep(2);
     video_file = genai.get_file(video_file.name)].
    [polls] counts the calls made; the result is [None] when [fuel] rounds
    did not end the loop. *)
Fixpoint wait_while_processing (w : world) (fuel polls : nat)
    (video_file : file) (log : list event)
  : option (outcome file * list event) :=
  if (state video_file =? "PROCESSING")%string then
    match fuel with
    | O => None
    | S fuel' =>
        let log' := (log ++ [GetFile (name video_file)])%list in
        match get_file w polls (name video_file) with
        | Ok video_file' =>
            wait_while_processing w fuel' (S polls) video_file' log'
        | Raise e => Some (Raise e, log')
        end
    end
  else Some (Ok video_file, log).

(** The [mime_types] table and its lookup with the default. *)
Definition mime_types : list (string * string) :=
  [ (".mp4", "video/mp4");
    (".mov", "video/quicktime");
    (".avi", "video/x-msvideo");
    (".webm", "video/webm");
    (".mkv", "video/x-matroska") ].

Fixpoint lookup (k : string) (table : list (string * string)) : option string :=
  match table with
  | [] => None
  | (k', v) :: table' => if (k =? k')%string then Some v else lookup k table'
  end.

Definition mime_type_of (video_path : string) (w : world) : string :=
  match lookup (extension w video_path) mime_types with
  | Some m => m
  | None => "video/mp4"
  end.

Definition upload_video_to_gemini (w : world) (fuel : nat)
    (video_path : string) (log : list event)
  : option (outcome file * list event) :=
  let mime_type := mime_type_of video_path w in
  let log1 := (log ++ [Upload video_path mime_type])%list in
  match upload_file w video_path mime_type with
  | Raise e => Some (Raise e, log1)
  | Ok video_file =>
      match wait_while_processing w fuel 0 video_file log1 with
      | None => None
      | Some (Raise e, log2) => Some (Raise e, log2)
      | Some (Ok video_file', log2) =>
          if (state video_file' =? "FAILED")%string
          then Some (Raise (ValueError
                       ("Video processing failed: " ++ state video_file')), log2)
          else Some (Ok video_file', log2)
      end
  end.

(** [d.get(k)] with its default [None] *)
Definition get_or_none (k : string) (d : dict) : value :=
  match dget k d with Some v => v | None => VNone end.

(** [result.get("error") and result.get("error_type") == "parse_error"] *)
Definition is_parse_error (result : dict) : bool :=
  truthy (get_or_none "error" result)
  && eq_str (get_or_none "error_type" result) "parse_error".

Definition no_pet_result (result : dict) : dict :=
  [ ("error", VBool true);
    ("error_type", VStr "no_pet_detected");
    ("message", match dget "message" result with
                | Some m => m
                | None => VStr "No pet detected in video"
                end);
    ("_model_used", VStr "gemini-2.0-flash");
    ("_from_cache", VBool false) ].

Definition analysis_failed (message : string) : dict :=
  [ ("error", VBool true);
    ("error_type", VStr "analysis_failed");
    ("message", VStr message);
    ("_model_used", VStr "gemini-2.0-flash");
    ("_from_cache", VBool false) ].

Definition add_metadata (result : dict) : dict :=
  dset "_analysis_version" (VStr "etho-v13-gemini")
    (dset "_from_cache" (VBool false)
       (dset "_model_used" (VStr "gemini-2.0-flash") result)).

(** The arguments of the closing [print] calls:
    [result.get('overall_assessment', {}).get(...)] needs a dict there. *)
Definition report (result : dict) : outcome unit :=
  match dget "overall_assessment" result with
  | None | Some (VDict _) => Ok tt
  | Some _ => Raise AttributeError
  end.

(** From the extracted value to the value returned inside [try]. *)
Definition finish (result : value) : outcome dict :=
  match result with
  | VDict result =>
      if is_parse_error result then Ok result
      else if eq_False (get_or_none "pet_detected" result)
      then Ok (no_pet_result result)
      else
        result <- validate_and_enrich_response result ;;
        let result := add_metadata result in
        _ <- report result ;;
        Ok result
  | _ => Raise AttributeError
  end.

Definition analyze_video_with_gemini (w : world) (video_file : file)
    (prompt : string) (log : list event) : outcome string * list event :=
  (generate_content w video_file prompt, (log ++ [Generate video_file])%list).

(** The body of [try], with the value of [video_file] when it is left. *)
Definition attempt (w : world) (fuel : nat) (video_path : string)
  : option (outcome dict * option file * list event) :=
  match get_gemini_client w with
  | Raise e => Some (Raise e, None, [])
  | Ok _ =>
      match upload_video_to_gemini w fuel video_path [] with
      | None => None
      | Some (Raise e, log) => Some (Raise e, None, log)
      | Some (Ok video_file, log) =>
          match analyze_video_with_gemini w video_file (analysis_prompt w) log with
          | (Raise e, log') => Some (Raise e, Some video_file, log')
          | (Ok response_text, log') =>
              Some (result <- Extractor.parse_json_response (json_loads w)
                                response_text ;;
                    finish result,
                    Some video_file, log')
          end
      end
  end.

(** [analyze_video]: what it returns and the remote calls it made, or
    [None] when [fuel] polls did not end the wait. *)
Definition analyze_video (w : world) (fuel : nat) (video_path : string)
    (use_cache : bool) : option (dict * list event) :=
  match attempt w fuel video_path with
  | None => None
  | Some (res, video_file, log) =>
      let returned :=
        match res with
        | Ok result => result
        | Raise e => analysis_failed (str w e)      (* except Exception as e *)
        end in
      let log' :=                                   (* finally *)
        match video_file with
        | Some f => (log ++ [Delete (name f)])%list
        | None => log
        end in
      Some (returned, log')
  end.

(** ** Notions used to state the properties *)

(** The polling loop started on [f] at poll number [i] leaves it after
    [n] polls with [g]. *)
Inductive settles (w : world) : nat -> file -> nat -> file -> Prop :=
| settles_now (i : nat) (f : file) :
    (state f =? "PROCESSING")%string = false -> settles w i f 0 f
| settles_poll (i : nat) (f f' : file) (n : nat) (g : file) :
    (state f =? "PROCESSING")%string = true ->
    get_file w i (name f) = Ok f' ->
    settles w (S i) f' n g ->
    settles w i f (S n) g.

(** The run reaches extraction with [response_text]: the key is set, the
    upload is accepted, polling ends within [fuel] rounds in a state other
    than FAILED, and inference answers with [response_text]. *)
Definition extracts (w : world) (fuel : nat) (video_path response_text : string)
  : Prop :=
  get_gemini_client w = Ok tt /\
  exists f n g,
    upload_file w video_path (mime_type_of video_path w) = Ok f /\
    settles w 0 f n g /\ (n <= fuel)%nat /\
    (state g =? "FAILED")%string = false /\
    generate_content w g (analysis_prompt w) = Ok response_text.

(** The ingestion of [video_path] ends as FAILED within [fuel] polls. *)
Definition ingestion_fails (w : world) (fuel : nat) (video_path : string)
  : Prop :=
  get_gemini_client w = Ok tt /\
  exists f n g,
    upload_file w video_path (mime_type_of video_path w) = Ok f /\
    settles w 0 f n g /\ (n <= fuel)%nat /\
    state g = "FAILED".

(** ** A concrete world

    One remote side to run the orchestrator against: the upload reports
    the first of [states], each poll the next one, and inference answers
    with [response_text]. *)
Definition example_world (states : list string) (response_text : string)
  : world :=
  {| api_key := Some "key";
     extension := fun _ => ".mp4";
     upload_file := fun _ _ =>
       Ok {| name := "files/video"; state := nth 0 states "ACTIVE" |};
     get_file := fun polls file_name =>
       Ok {| name := file_name; state := nth (S polls) states "ACTIVE" |};
     generate_content := fun _ _ => Ok response_text;
     delete_file := fun _ => Ok tt;
     json_loads := Json.loads;
     analysis_prompt := "Analyze this pet video";
     interpreter_message := fun _ => "error" |}.

End Orchestrator.

(* ================================================================== *)
(** * The HTTP routes of [app/main.py] *)
(* ================================================================== *)

Module Api.
Import Orchestrator.

(** What the route reads of the uploaded file: [file.content_type],
    [file.filename], and the size found by seeking to its end. *)
Record UploadFile := {
  content_type : option string;
  filename : option string;
  file_size : Z
}.

(** A call into the machine or the framework: done with a value, or
    failed with the [str(e)] of what it raised. *)
Inductive io (A : Type) :=
| Done (a : A)
| Failed (message : string).
Arguments Done {A} a.
Arguments Failed {A} message.

(** The machine the route runs on: the remote side, the temporary file
    it stages the upload in, and the rendering of a response body.
    [JSONResponse] renders its content when it is constructed, with
    [json.dumps(content, allow_nan=False, ...)], which raises on a body it
    cannot write, a NaN or an infinity among them. *)
Record host := {
  remote : world;
  splitext_ext : string -> string;                 (* os.path.splitext(name)[1] *)
  named_temporary_file : string -> io string;      (* NamedTemporaryFile(delete=False, suffix=ext).name *)
  copyfileobj : string -> io unit;                 (* shutil.copyfileobj(file.file, temp_file) *)
  path_exists : string -> bool;                    (* os.path.exists(temp_path), in finally *)
  render : value -> io unit                        (* JSONResponse.render(content) *)
}.

(** What the route does outside itself, in order. *)
Inductive action :=
| Created (temp_path : string)
| Called (e : event)
| Unlinked (temp_path : string).

(** What the client gets: a rendered JSON body with a status, or the
    [HTTPException] the route raised, which the framework answers with
    that status. *)
Inductive response :=
| JSONResponse (status_code : Z) (content : value)
| HTTPException (status_code : Z) (detail : value).

Definition status_of (r : response) : Z :=
  match r with
  | JSONResponse s _ => s
  | HTTPException s _ => s
  end.

Definition allowed_types : list string :=
  [ "video/mp4"; "video/quicktime"; "video/x-msvideo"; "video/webm";
    "video/x-matroska" ].

(** [x or default] on an optional string *)
Definition or_else (x : option string) (default : string) : string :=
  match x with
  | Some s => if Text.is_empty s then default else s
  | None => default
  end.

(** [x in l] *)
Definition mem (x : string) (l : list string) : bool :=
  existsb (String.eqb x) l.

(** [{"success": True, "data": result}] *)
Definition success (result : dict) : value :=
  VDict [("success", VBool true); ("data", VDict result)].

(** [except Exception as e: raise HTTPException(500, f"Analysis failed: {str(e)}")] *)
Definition failure (message : string) : response :=
  HTTPException 500 (VStr ("Analysis failed: " ++ message)).

(** [global_exception_handler], on an exception whose [str] is [message].
    Its body holds strings and a boolean only. *)
Definition global_exception_handler (message : string) : response :=
  JSONResponse 500
    (VDict [ ("error", VBool true);
             ("error_type", VStr "internal_error");
             ("message", VStr message) ]).

(** [return JSONResponse(status_code=200, content={...})] inside [try]:
    what the constructor raises is caught by [except Exception]. *)
Definition respond (h : host) (content : value) : response :=
  match render h content with
  | Done _ => JSONResponse 200 content
  | Failed message => failure message
  end.

(** [return {...}]: the route has returned, and FastAPI builds the
    [JSONResponse] of the dict; what the constructor raises then goes to
    the handler registered for [Exception]. *)
Definition serve (h : host) (content : value) : response :=
  match render h content with
  | Done _ => JSONResponse 200 content
  | Failed message => global_exception_handler message
  end.

(** The check for errors on the result of [analyze_video]. *)
Definition classify (h : host) (result : dict) : response :=
  if truthy (get_or_none "error" result) then
    let error_type :=
      match dget "error_type" result with Some v => v | None => VStr "unknown" end in
    let message :=
      match dget "message" result with
      | Some v => v
      | None => VStr "Analysis failed"
      end in
    if eq_str error_type "no_pet_detected" then respond h (success result)
    else HTTPException 500 message
  else serve h (success result).

(** The [finally] block. *)
Definition cleanup (h : host) (temp_path : string) (log : list action)
  : list action :=
  if negb (Text.is_empty temp_path) && path_exists h temp_path
  then (log ++ [Unlinked temp_path])%list
  else log.

(** [upload_and_analyze]: the response and what was done, or [None] when
    the analysis did not finish within [fuel] polls.  [mode] is only
    printed. *)
Definition upload_and_analyze (h : host) (fuel : nat) (file : UploadFile)
    (mode : string) (use_cache : bool) : option (response * list action) :=
  let content_type := or_else (content_type file) "video/mp4" in
  if negb (mem content_type allowed_types) then
    Some (HTTPException 400
            (VStr ("Invalid file type: " ++ content_type
                   ++ ". Allowed: mp4, mov, avi, webm")), [])
  else if (100 * 1024 * 1024 <? file_size file)%Z then
    Some (HTTPException 400 (VStr "Video too large. Maximum size is 100MB."), [])
  else
    let ext :=
      let e := splitext_ext h (or_else (filename file) "video.mp4") in
      if Text.is_empty e then ".mp4" else e in
    match named_temporary_file h ext with
    | Failed message => Some (failure message, [])
    | Done temp_path =>
        match copyfileobj h temp_path with
        | Failed message =>
            Some (failure message, cleanup h temp_path [Created temp_path])
        | Done _ =>
            match analyze_video (remote h) fuel temp_path use_cache with
            | None => None
            | Some (result, calls) =>
                Some (classify h result,
                      cleanup h temp_path
                        ([Created temp_path] ++ map Called calls)%list)
            end
        end
    end.

(** [health_check] *)
Definition health_check (w : world) : dict :=
  [ ("status", VStr "healthy");
    ("gemini_configured",
     VBool (match api_key w with
            | Some key => negb (Text.is_empty key)
            | None => false
            end));
    ("version", VStr "13.0.0") ].

(** ** Notions used to state the properties *)

(** The upload passes the two checks, and is staged at [temp_path]. *)
Definition staged (h : host) (file : UploadFile) (temp_path : string) : Prop :=
  mem (or_else (content_type file) "video/mp4") allowed_types = true /\
  (file_size file <= 104857600)%Z /\
  named_temporary_file h
    (let e := splitext_ext h (or_else (filename file) "video.mp4") in
     if Text.is_empty e then ".mp4" else e) = Done temp_path /\
  copyfileobj h temp_path = Done tt.

(** No float in the value is a NaN or an infinity. *)
Fixpoint compliant (v : value) : bool :=
  match v with
  | VFloat FNan | VFloat (FInf _) => false
  | VList l => forallb compliant l
  | VDict d => forallb (fun kv => compliant (snd kv)) d
  | _ => true
  end.

(** A host for the concrete worlds: it stages every upload at one path,
    and renders every body but those with a NaN or an infinity. *)
Definition example_host (w : world) : host :=
  {| remote := w;
     splitext_ext := fun _ => ".mp4";
     named_temporary_file := fun ext => Done ("/tmp/tmpvideo" ++ ext);
     copyfileobj := fun _ => Done tt;
     path_exists := fun _ => true;
     render := fun content =>
       if compliant content then Done tt
       else Failed "Out of range float values are not JSON compliant" |}.

Definition example_upload : UploadFile :=
  {| content_type := Some "video/mp4";
     filename := Some "clip.mp4";
     file_size := 2048 |}.

End Api.


(* ================================================================== *)
(** * Runs of the orchestrator *)
(* ================================================================== *)

Module Runs.
Import Orchestrator.

(** The polling loop started on [f] at poll number [i] makes [n] calls,
    the last of which raises [e]. *)
Inductive poll_raises (w : world) : nat -> file -> nat -> exn -> Prop :=
| poll_raises_now (i : nat) (f : file) (e : exn) :
    (state f =? "PROCESSING")%string = true ->
    get_file w i (name f) = Raise e ->
    poll_raises w i f 1 e
| poll_raises_later (i : nat) (f f' : file) (n : nat) (e : exn) :
    (state f =? "PROCESSING")%string = true ->
    get_file w i (name f) = Ok f' ->
    poll_raises w (S i) f' n e ->
    poll_raises w i f (S n) e.

(** The upload of [video_path] is accepted and its ingestion settles
    within [fuel] polls, after [n] of them, with [g] in a state other
    than FAILED. *)
Definition ingested (w : world) (fuel : nat) (video_path : string)
    (n : nat) (g : file) : Prop :=
  get_gemini_client w = Ok tt /\
  exists f,
    upload_file w video_path (mime_type_of video_path w) = Ok f /\
    settles w 0 f n g /\ (n <= fuel)%nat /\
    (state g =? "FAILED")%string = false.

(** A remote side whose ingestion never leaves PROCESSING. *)
Definition stuck_world : world :=
  {| api_key := Some "key";
     extension := fun _ => ".mp4";
     upload_file := fun _ _ =>
       Ok {| name := "files/video"; state := "PROCESSING" |};
     get_file := fun _ file_name =>
       Ok {| name := file_name; state := "PROCESSING" |};
     generate_content := fun _ _ => Ok "{}";
     delete_file := fun _ => Ok tt;
     json_loads := Json.loads;
     analysis_prompt := "Analyze this pet video";
     interpreter_message := fun _ => "error" |}.

(** A remote side whose calls raise: the upload when [at_upload], else the
    second poll when [at_poll], else inference. *)
Definition faulty_world (at_upload at_poll : bool) : world :=
  {| api_key := Some "key";
     extension := fun _ => ".mov";
     upload_file := fun _ _ =>
       if at_upload then Raise (RemoteError "quota exceeded")
       else Ok {| name := "files/video";
                  state := if at_poll then "PROCESSING" else "ACTIVE" |};
     get_file := fun polls file_name =>
       match polls with
       | O => Ok {| name := file_name; state := "PROCESSING" |}
       | S _ => Raise (RemoteError "connection reset")
       end;
     generate_content := fun _ _ => Raise (RemoteError "deadline exceeded");
     delete_file := fun _ => Ok tt;
     json_loads := Json.loads;
     analysis_prompt := "Analyze this pet video";
     interpreter_message := fun _ => "error" |}.

(** [w] with the API key unset. *)
Definition without_key (w : world) : world :=
  {| api_key := None;
     extension := extension w;
     upload_file := upload_file w;
     get_file := get_file w;
     generate_content := generate_content w;
     delete_file := delete_file w;
     json_loads := json_loads w;
     analysis_prompt := analysis_prompt w;
     interpreter_message := interpreter_message w |}.

Definition is_delete (e : event) : bool :=
  match e with Delete _ => true | _ => false end.

End Runs.

(* ================================================================== *)
(** * Lemmas: text *)
(* ================================================================== *)

Module TextFacts.
Import Text.

Lemma append_empty_r (s : string) : s ++ "" = s.
Proof. induction s as [|c s IH]; simpl; [reflexivity | now rewrite IH]. Qed.

Lemma append_assoc (a b c : string) : (a ++ b) ++ c = a ++ (b ++ c).
Proof. induction a as [|x a IH]; simpl; [reflexivity | now rewrite IH]. Qed.

Lemma nospace_append (a b : string) :
  nospace (a ++ b) = nospace a && nospace b.
Proof.
  induction a as [|c a IH]; simpl; [reflexivity|].
  rewrite IH. now rewrite andb_assoc.
Qed.

(** Scanning a whitespace-free stretch only extends the current word. *)
Lemma split_acc_nospace (u word rest : string) :
  nospace u = true ->
  split_acc word (u ++ rest) = split_acc (word ++ u) rest.
Proof.
  revert word. induction u as [|c u IH]; intros word H; simpl in *.
  - now rewrite append_empty_r.
  - apply andb_prop in H as [Hc Hu].
    apply negb_true_iff in Hc. rewrite Hc.
    rewrite IH by assumption. now rewrite append_assoc.
Qed.

(** Every word [split] returns is non-empty and free of whitespace. *)
Lemma split_acc_words (s word : string) :
  nospace word = true -> Forall is_word (split_acc word s).
Proof.
  revert word. induction s as [|c s IH]; intros word Hw; simpl.
  - destruct word; simpl; constructor; [|constructor].
    split; [discriminate | assumption].
  - destruct (isspace c) eqn:Hc.
    + destruct word as [|x word]; simpl.
      * now apply IH.
      * constructor; [split; [discriminate | assumption] | now apply IH].
    + apply IH. rewrite nospace_append, Hw. simpl. now rewrite Hc.
Qed.

Lemma split_words (s : string) : Forall is_word (split s).
Proof. now apply split_acc_words. Qed.

(** Joining words with one space and splitting again gives the words back. *)
Lemma split_join (ws : list string) :
  Forall is_word ws -> split (join " " ws) = ws.
Proof.
  unfold split, join. induction 1 as [|w ws [Hne Hns] Hws IH]; [reflexivity|].
  simpl. destruct ws as [|w' ws].
  - rewrite <- (append_empty_r w) at 1.
    rewrite split_acc_nospace by assumption. simpl.
    destruct w; [contradiction | reflexivity].
  - rewrite split_acc_nospace by assumption.
    cbn [append]. change (split_acc w (String " " ?x)) with
      (if is_empty w then split_acc "" x else w :: split_acc "" x).
    destruct w; [contradiction|]. simpl is_empty. cbv iota.
    now rewrite IH.
Qed.

Lemma Forall_firstn {A} (P : A -> Prop) (n : nat) (l : list A) :
  Forall P l -> Forall P (firstn n l).
Proof.
  intros H. revert n. induction H; intros [|n]; simpl; constructor; auto.
Qed.

(** The first [n] words, joined, split back into exactly those words. *)
Lemma split_join_firstn (n : nat) (s : string) :
  split (join " " (firstn n (split s))) = firstn n (split s).
Proof. apply split_join, Forall_firstn, split_words. Qed.

End TextFacts.

(* ================================================================== *)
(** * Lemmas: dicts *)
(* ================================================================== *)

Module DictFacts.

Lemma dget_dset_same (k : string) (v : value) (d : dict) :
  dget k (dset k v d) = Some v.
Proof.
  induction d as [|[k' v'] d IH]; simpl.
  - now rewrite String.eqb_refl.
  - destruct (k =? k')%string eqn:E; simpl; rewrite E; [reflexivity | exact IH].
Qed.

Lemma dget_dset_other (k k' : string) (v : value) (d : dict) :
  k <> k' -> dget k (dset k' v d) = dget k d.
Proof.
  intros Hne. induction d as [|[k0 v0] d IH]; simpl.
  - apply String.eqb_neq in Hne. now rewrite Hne.
  - destruct (String.eqb_spec k' k0) as [<-|Hk]; simpl.
    + apply String.eqb_neq in Hne. now rewrite Hne.
    + now rewrite IH.
Qed.

Lemma dget_dset (k k' : string) (v : value) (d : dict) :
  dget k (dset k' v d) = if (k =? k')%string then Some v else dget k d.
Proof.
  destruct (String.eqb_spec k k') as [->|Hne].
  - apply dget_dset_same.
  - now apply dget_dset_other.
Qed.

(** Writing the value a key already has changes nothing. *)
Lemma dset_same_id (k : string) (v : value) (d : dict) :
  dget k d = Some v -> dset k v d = d.
Proof.
  induction d as [|[k' v'] d IH]; simpl; [discriminate|].
  destruct (k =? k')%string eqn:E.
  - now intros [= ->].
  - intros H. now rewrite IH.
Qed.

Lemma dset_dset (k : string) (v w : value) (d : dict) :
  dset k v (dset k w d) = dset k v d.
Proof.
  induction d as [|[k' v'] d IH]; simpl.
  - now rewrite String.eqb_refl.
  - destruct (k =? k')%string eqn:E; simpl; rewrite E; [reflexivity|].
    now rewrite IH.
Qed.

Lemma dmem_dset (k k' : string) (v : value) (d : dict) :
  dmem k (dset k' v d) = (k =? k')%string || dmem k d.
Proof.
  unfold dmem. rewrite dget_dset. now destruct (k =? k')%string.
Qed.

Lemma dmem_true (k : string) (d : dict) :
  dmem k d = true <-> exists v, dget k d = Some v.
Proof.
  unfold dmem. destruct (dget k d) as [v|]; split.
  - now exists v.
  - reflexivity.
  - discriminate.
  - now intros [v [=]].
Qed.

Lemma dmem_false (k : string) (d : dict) :
  dmem k d = false <-> dget k d = None.
Proof. unfold dmem. destruct (dget k d); split; congruence. Qed.

(** The keys of a dict after an assignment: unchanged when the key was
    bound, one more at the end when it was not. *)
Lemma keys_dset (k : string) (v : value) (d : dict) :
  keys (dset k v d) = if dmem k d then keys d else (keys d ++ [k])%list.
Proof.
  unfold keys, dmem. induction d as [|[k' v'] d IH]; simpl; [reflexivity|].
  destruct (k =? k')%string eqn:E; simpl; [reflexivity|].
  rewrite IH. now destruct (dget k d).
Qed.

Lemma dget_None_keys (k : string) (d : dict) :
  dget k d = None <-> ~ In k (keys d).
Proof.
  unfold keys. induction d as [|[k' v'] d IH]; simpl; [tauto|].
  destruct (String.eqb_spec k k') as [->|Hne].
  - split; [discriminate | intros H; exfalso; apply H; now left].
  - rewrite IH. split; [intros H [E|E]; [congruence | tauto] | tauto].
Qed.

End DictFacts.

(* ================================================================== *)
(** * Lemmas: the defaults merge *)
(* ================================================================== *)

Module MergeFacts.
Import Normalizer DictFacts.

Lemma dget_backfill (sk : string) (d sub : dict) :
  dget sk (backfill d sub) =
  match dget sk sub with Some v => Some v | None => dget sk d end.
Proof.
  unfold backfill. revert sub.
  induction d as [|[k0 v0] d IH]; intros sub; simpl.
  - now destruct (dget sk sub).
  - rewrite IH. unfold backfill_key; simpl.
    destruct (dmem k0 sub) eqn:Hm.
    + destruct (dget sk sub) eqn:Hs; [reflexivity|].
      destruct (String.eqb_spec sk k0) as [->|Hne]; [|reflexivity].
      apply dmem_true in Hm as [v Hv]. congruence.
    + rewrite dget_dset. apply dmem_false in Hm.
      destruct (String.eqb_spec sk k0) as [->|Hne].
      * now rewrite Hm.
      * reflexivity.
Qed.


Lemma backfill_fixed (d sub : dict) :
  (forall sk, In sk (keys d) -> dmem sk sub = true) -> backfill d sub = sub.
Proof.
  unfold backfill. induction d as [|[k0 v0] d IH]; intros H; simpl.
  - reflexivity.
  - unfold backfill_key at 2; simpl. rewrite (H k0) by now left.
    apply IH. intros sk Hsk. apply H. now right.
Qed.

Lemma dget_merge_key_same (k : string) (dv : value) (r : dict) :
  dget k (merge_key r (k, dv)) = Some (merged_value dv (dget k r)).
Proof.
  unfold merge_key, merged_value; simpl.
  destruct (dget k r) as [c|] eqn:Hc.
  - destruct dv, c; try (now rewrite Hc). apply dget_dset_same.
  - apply dget_dset_same.
Qed.

Lemma dget_merge_key_other (k k' : string) (dv : value) (r : dict) :
  k <> k' -> dget k (merge_key r (k', dv)) = dget k r.
Proof.
  intros Hne. unfold merge_key; simpl.
  destruct (dget k' r) as [c|].
  - destruct dv, c; try reflexivity. now apply dget_dset_other.
  - now apply dget_dset_other.
Qed.

(** What any key holds once the merge loop has run over [defs]. *)
Lemma dget_merge_with (k : string) (defs r : dict) :
  NoDup (keys defs) ->
  dget k (merge_with defs r) =
  match dget k defs with
  | Some dv => Some (merged_value dv (dget k r))
  | None => dget k r
  end.
Proof.
  unfold merge_with. revert r.
  induction defs as [|[k0 dv0] defs IH]; intros r Hnd; simpl; [reflexivity|].
  inversion Hnd as [|? ? Hnotin Hnd']; subst.
  rewrite IH by assumption.
  destruct (String.eqb_spec k k0) as [->|Hne].
  - apply dget_None_keys in Hnotin. rewrite Hnotin.
    apply dget_merge_key_same.
  - rewrite dget_merge_key_other by assumption. reflexivity.
Qed.

(** The merge only appends keys: those of the input stay, in place. *)
Lemma keys_merge_key (r : dict) (kd : string * value) :
  keys (merge_key r kd) =
  if dmem (fst kd) r then keys r else (keys r ++ [fst kd])%list.
Proof.
  unfold merge_key. destruct kd as [k dv]; simpl.
  destruct (dget k r) as [c|] eqn:Hc.
  - assert (Hm : dmem k r = true) by (apply dmem_true; eauto).
    rewrite Hm. destruct dv, c; try reflexivity.
    now rewrite keys_dset, Hm.
  - assert (Hm : dmem k r = false) by now apply dmem_false.
    now rewrite keys_dset, Hm.
Qed.

Lemma merge_with_fixed (defs r : dict) :
  (forall kd, In kd defs -> merge_key r kd = r) -> merge_with defs r = r.
Proof.
  unfold merge_with. induction defs as [|kd defs IH]; intros H; simpl.
  - reflexivity.
  - rewrite (H kd) by now left. apply IH. intros kd' Hin. apply H. now right.
Qed.

(** The merge keeps the input's keys in place and appends the canonical
    keys the input lacks, in the order of the defaults. *)
Lemma keys_merge_with (defs r : dict) :
  NoDup (keys defs) ->
  keys (merge_with defs r) =
  (keys r ++ filter (fun k => negb (dmem k r)) (keys defs))%list.
Proof.
  unfold merge_with. revert r.
  induction defs as [|[k0 dv0] defs IH]; intros r Hnd; simpl.
  - now rewrite app_nil_r.
  - inversion Hnd as [|? ? Hnotin Hnd']; subst.
    rewrite IH by assumption. rewrite keys_merge_key. cbn [fst].
    assert (Hf : filter (fun k => negb (dmem k (merge_key r (k0, dv0))))
                   (keys defs)
                 = filter (fun k => negb (dmem k r)) (keys defs)).
    { apply filter_ext_in. intros k Hk. unfold dmem.
      rewrite dget_merge_key_other; [reflexivity|].
      intros ->. contradiction. }
    rewrite Hf. destruct (dmem k0 r); cbn [negb]; [reflexivity|].
    now rewrite <- app_assoc.
Qed.

Lemma In_dget (k : string) (v : value) (d : dict) :
  NoDup (keys d) -> In (k, v) d -> dget k d = Some v.
Proof.
  induction d as [|[k0 v0] d IH]; intros Hnd Hin; simpl in *; [contradiction|].
  inversion Hnd as [|? ? Hnotin Hnd']; subst.
  destruct Hin as [[= -> ->]|Hin].
  - now rewrite String.eqb_refl.
  - destruct (String.eqb_spec k k0) as [->|Hne]; [|auto].
    exfalso. apply Hnotin. unfold keys. now apply (in_map fst) in Hin.
Qed.

Lemma dmem_self (sk : string) (d : dict) : In sk (keys d) -> dmem sk d = true.
Proof.
  intros H. destruct (dmem sk d) eqn:E; [reflexivity|].
  apply dmem_false, dget_None_keys in E. contradiction.
Qed.

Lemma covers_merged_value (dv : value) (cur : option value) :
  covers dv (merged_value dv cur).
Proof.
  intros d sub -> Hc sk Hsk. destruct cur as [c|]; simpl in Hc.
  - destruct c; try discriminate.
    injection Hc as <-. unfold dmem. rewrite dget_backfill.
    destruct (dget sk d0); [reflexivity|].
    apply dmem_self, dmem_true in Hsk as [v ->]. reflexivity.
  - injection Hc as <-. now apply dmem_self.
Qed.

Lemma merge_key_fixed (k : string) (dv c : value) (r : dict) :
  dget k r = Some c -> covers dv c -> merge_key r (k, dv) = r.
Proof.
  intros Hc Hcov. unfold merge_key; simpl. rewrite Hc.
  destruct dv, c; try reflexivity.
  rewrite backfill_fixed by (now apply (Hcov d d0)).
  now apply dset_same_id.
Qed.

Lemma NoDup_defaults : NoDup (keys defaults).
Proof.
  unfold keys, defaults; simpl.
  repeat (constructor; [simpl; intros H;
    repeat (destruct H as [H|H]; [discriminate H|]); exact H|]).
  constructor.
Qed.

Lemma complete_merge_defaults (r : dict) : complete (merge_defaults r).
Proof.
  intros k dv Hk. unfold merge_defaults.
  rewrite dget_merge_with by apply NoDup_defaults. rewrite Hk.
  eexists; split; [reflexivity | apply covers_merged_value].
Qed.

(** On a complete result the merge loop changes nothing. *)
Lemma merge_defaults_complete (r : dict) :
  complete r -> merge_defaults r = r.
Proof.
  intros Hc. apply merge_with_fixed. intros [k dv] Hin.
  apply In_dget in Hin; [|apply NoDup_defaults].
  destruct (Hc k dv Hin) as (c & Hget & Hcov).
  now apply merge_key_fixed with (c := c).
Qed.

End MergeFacts.

(* ================================================================== *)
(** * Lemmas: zone step and interpretation lines *)
(* ================================================================== *)

Module NormalizerFacts.
Import Normalizer DictFacts MergeFacts TextFacts.

Lemma read_distress_dict (r1 oa1 : dict) :
  dget "overall_assessment" r1 = Some (VDict oa1) ->
  read_distress r1 = Ok (score_of oa1).
Proof.
  intros H. unfold read_distress, score_of. rewrite H.
  now destruct (dget "distress_score" oa1).
Qed.

Lemma assign_zone_dict (r1 oa1 : dict) (zl : string * string) :
  dget "overall_assessment" r1 = Some (VDict oa1) ->
  assign_zone (fst zl) (snd zl) r1 =
  Ok (dset "overall_assessment" (VDict (with_zone zl oa1)) r1).
Proof. intros H. unfold assign_zone. now rewrite H. Qed.

(** With the assessment sub-dict in place, the zone step is: pick the pair
    by the thresholds, assign it. *)
Lemma fix_zone_dict (r1 oa1 : dict) :
  dget "overall_assessment" r1 = Some (VDict oa1) ->
  fix_zone r1 =
  (zl <- zone_of_score (score_of oa1) ;;
   Ok (dset "overall_assessment" (VDict (with_zone zl oa1)) r1)).
Proof.
  intros H. unfold fix_zone, zone_of_score.
  rewrite (read_distress_dict _ _ H). simpl.
  destruct (le_int (score_of oa1) 33) as [[|]|]; simpl; try reflexivity.
  - apply (assign_zone_dict r1 oa1 ("green", "LOW") H).
  - destruct (le_int (score_of oa1) 66) as [[|]|]; simpl; try reflexivity.
    + apply (assign_zone_dict r1 oa1 ("yellow", "MODERATE") H).
    + apply (assign_zone_dict r1 oa1 ("red", "ELEVATED") H).
Qed.

Lemma fix_zone_inv (r1 r2 : dict) :
  fix_zone r1 = Ok r2 ->
  exists oa1 zl,
    dget "overall_assessment" r1 = Some (VDict oa1) /\
    zone_of_score (score_of oa1) = Ok zl /\
    r2 = dset "overall_assessment" (VDict (with_zone zl oa1)) r1.
Proof.
  destruct (dget "overall_assessment" r1) as [c|] eqn:Hoa.
  - destruct c;
      try (unfold fix_zone, read_distress; rewrite Hoa; discriminate).
    rewrite (fix_zone_dict _ _ Hoa).
    destruct (zone_of_score (score_of d)) as [zl|] eqn:Hz; simpl; [|discriminate].
    intros [= <-]. now exists d, zl.
  - unfold fix_zone, read_distress, assign_zone. rewrite Hoa. discriminate.
Qed.

Lemma fix_zone_intro (r1 oa1 : dict) (zl : string * string) :
  dget "overall_assessment" r1 = Some (VDict oa1) ->
  zone_of_score (score_of oa1) = Ok zl ->
  fix_zone r1 = Ok (dset "overall_assessment" (VDict (with_zone zl oa1)) r1).
Proof. intros H Hz. rewrite (fix_zone_dict _ _ H), Hz. reflexivity. Qed.

Lemma score_of_with_zone (zl : string * string) (oa : dict) :
  score_of (with_zone zl oa) = score_of oa.
Proof.
  unfold score_of, with_zone. now rewrite !dget_dset_other by discriminate.
Qed.

Lemma dget_zone_with_zone (zl : string * string) (oa : dict) :
  dget "zone" (with_zone zl oa) = Some (VStr (fst zl)).
Proof.
  unfold with_zone. rewrite dget_dset_other by discriminate.
  apply dget_dset_same.
Qed.

Lemma dget_label_with_zone (zl : string * string) (oa : dict) :
  dget "zone_label" (with_zone zl oa) = Some (VStr (snd zl)).
Proof. unfold with_zone. apply dget_dset_same. Qed.

Lemma dget_with_zone_other (k : string) (zl : string * string) (oa : dict) :
  k <> "zone" -> k <> "zone_label" ->
  dget k (with_zone zl oa) = dget k oa.
Proof. intros H1 H2. unfold with_zone. now rewrite !dget_dset_other. Qed.

Lemma dmem_with_zone (k : string) (zl : string * string) (oa : dict) :
  dmem k oa = true -> dmem k (with_zone zl oa) = true.
Proof.
  intros H. unfold with_zone. rewrite !dmem_dset, H. now rewrite !orb_true_r.
Qed.

(** Assigning the zone a second time changes nothing. *)
Lemma with_zone_twice (zl : string * string) (oa : dict) :
  with_zone zl (with_zone zl oa) = with_zone zl oa.
Proof.
  unfold with_zone at 1.
  rewrite (dset_same_id "zone") by apply dget_zone_with_zone.
  apply dset_same_id, dget_label_with_zone.
Qed.

(** ** Interpretation lines *)

Lemma for_each_fixed (f : value -> outcome value) (l l' : list value) :
  (forall x y, f x = Ok y -> f y = Ok y) ->
  for_each f l = Ok l' -> for_each f l' = Ok l'.
Proof.
  intros Hf. revert l'. induction l as [|x l IH]; intros l'; simpl.
  - now intros [= <-].
  - destruct (f x) as [y|] eqn:Hx; simpl; [|discriminate].
    destruct (for_each f l) as [ys|] eqn:Hl; simpl; [|discriminate].
    intros [= <-]. simpl. rewrite (Hf _ _ Hx). simpl.
    now rewrite (IH ys eq_refl).
Qed.

Lemma for_each_length (f : value -> outcome value) (l l' : list value) :
  for_each f l = Ok l' -> List.length l' = List.length l.
Proof.
  revert l'. induction l as [|x l IH]; intros l'; simpl.
  - now intros [= <-].
  - destruct (f x) as [y|]; simpl; [|discriminate].
    destruct (for_each f l) as [ys|]; simpl; [|discriminate].
    intros [= <-]. simpl. now rewrite (IH ys eq_refl).
Qed.

Lemma for_each_nth (f : value -> outcome value) (l l' : list value) :
  for_each f l = Ok l' ->
  forall i x, nth_error l i = Some x ->
  exists y, nth_error l' i = Some y /\ f x = Ok y.
Proof.
  revert l'. induction l as [|x0 l IH]; intros l'; simpl.
  - intros _ [|i] x; discriminate.
  - destruct (f x0) as [y0|] eqn:Hx; simpl; [|discriminate].
    destruct (for_each f l) as [ys|]; simpl; [|discriminate].
    intros [= <-] [|i] x; simpl.
    + intros [= <-]. now exists y0.
    + now apply IH.
Qed.

Lemma truncate_line_dict (d : dict) (text : string) :
  dget fpi d = Some (VStr text) ->
  truncate_line (VDict d) = Ok (VDict (dset fpi (VStr (capped text)) d)).
Proof.
  intros H. unfold truncate_line, capped. rewrite H.
  destruct (6 <? _)%nat; [reflexivity|].
  now rewrite dset_same_id.
Qed.

Lemma length_firstn_le {A} (n : nat) (l : list A) :
  (List.length (firstn n l) <= n)%nat.
Proof. rewrite length_firstn. lia. Qed.

Lemma capped_twice (text : string) : capped (capped text) = capped text.
Proof.
  unfold capped at 2.
  destruct (6 <? List.length (Text.split text))%nat eqn:E; [|reflexivity].
  unfold capped. rewrite split_join_firstn, E.
  pose proof (length_firstn_le 6 (Text.split text)) as Hle.
  apply Nat.ltb_ge in Hle. now rewrite Hle.
Qed.

Lemma truncate_line_fixed (x y : value) :
  truncate_line x = Ok y -> truncate_line y = Ok y.
Proof.
  destruct x as [| b | n | f | s | l | d]; try (simpl; discriminate).
  - simpl. destruct (Text.occurs fpi s) eqn:E; [discriminate|].
    intros [= <-]. simpl. now rewrite E.
  - simpl. destruct (existsb _ l) eqn:E; [discriminate|].
    intros [= <-]. simpl. now rewrite E.
  - destruct (dget fpi d) as [c|] eqn:Hc.
    + destruct c; try (unfold truncate_line; rewrite Hc; discriminate).
      rewrite (truncate_line_dict d s Hc). intros [= <-].
      rewrite (truncate_line_dict _ (capped s)) by apply dget_dset_same.
      now rewrite capped_twice, dset_dset.
    + unfold truncate_line. rewrite Hc. intros [= <-]. now rewrite Hc.
Qed.

Lemma truncate_lines_fixed (r2 r3 : dict) :
  truncate_lines r2 = Ok r3 -> truncate_lines r3 = Ok r3.
Proof.
  unfold truncate_lines.
  destruct (dget "interpret_lines" r2) as [c|] eqn:Hc.
  - destruct c; try discriminate.
    + destruct (for_each _ (chars s)) eqn:E; simpl; [|discriminate].
      intros [= <-]. now rewrite Hc, E.
    + destruct (for_each _ l) as [l'|] eqn:E; simpl; [|discriminate].
      intros [= <-]. rewrite dget_dset_same.
      rewrite (for_each_fixed _ _ _ truncate_line_fixed E). simpl.
      now rewrite dset_dset.
    + destruct (for_each _ (map VStr (keys d))) eqn:E; simpl; [|discriminate].
      intros [= <-]. now rewrite Hc, E.
  - intros [= <-]. now rewrite Hc.
Qed.

(** The line step touches no key but [interpret_lines], and leaves a list
    there when it writes. *)
Lemma truncate_lines_dget (r2 r3 : dict) (k : string) :
  truncate_lines r2 = Ok r3 -> k <> "interpret_lines" ->
  dget k r3 = dget k r2.
Proof.
  unfold truncate_lines. intros H Hk.
  destruct (dget "interpret_lines" r2) as [c|].
  - destruct c; try discriminate.
    + destruct (for_each _ _); simpl in H; [|discriminate]. now injection H as <-.
    + destruct (for_each _ _); simpl in H; [|discriminate]. injection H as <-.
      now apply dget_dset_other.
    + destruct (for_each _ _); simpl in H; [|discriminate]. now injection H as <-.
  - now injection H as <-.
Qed.

Lemma truncate_lines_lines (r2 r3 : dict) (c : value) :
  truncate_lines r2 = Ok r3 -> dget "interpret_lines" r2 = Some c ->
  exists c', dget "interpret_lines" r3 = Some c' /\ is_dict c' = is_dict c.
Proof.
  unfold truncate_lines. intros H Hc. rewrite Hc in H.
  destruct c; try discriminate.
  - destruct (for_each _ _); simpl in H; [|discriminate]. injection H as <-. eauto.
  - destruct (for_each _ _); simpl in H; [|discriminate]. injection H as <-.
    rewrite dget_dset_same. eauto.
  - destruct (for_each _ _); simpl in H; [|discriminate]. injection H as <-. eauto.
Qed.

End NormalizerFacts.

(* ================================================================== *)
(** * Properties of the normalizer *)
(* ================================================================== *)

Module NormalizerSteps.
Import Normalizer DictFacts MergeFacts NormalizerFacts.

(** A successful run, step by step. *)
Lemma validate_inv (r r' : dict) :
  validate_and_enrich_response r = Ok r' ->
  exists oa1 zl,
    dget "overall_assessment" (merge_defaults r) = Some (VDict oa1) /\
    zone_of_score (score_of oa1) = Ok zl /\
    truncate_lines
      (dset "overall_assessment" (VDict (with_zone zl oa1)) (merge_defaults r))
    = Ok r'.
Proof.
  unfold validate_and_enrich_response.
  destruct (fix_zone (merge_defaults r)) as [r2|] eqn:Hz; simpl; [|discriminate].
  intros Ht. apply fix_zone_inv in Hz as (oa1 & zl & Hoa & Hzl & ->).
  now exists oa1, zl.
Qed.

Lemma complete_with_zone (r1 oa1 : dict) (zl : string * string) :
  complete r1 ->
  dget "overall_assessment" r1 = Some (VDict oa1) ->
  complete (dset "overall_assessment" (VDict (with_zone zl oa1)) r1).
Proof.
  intros Hc Hoa k dv Hk. rewrite dget_dset.
  destruct (String.eqb_spec k "overall_assessment") as [->|Hne].
  - eexists; split; [reflexivity|].
    intros d sub -> [= <-] sk Hsk.
    destruct (Hc _ _ Hk) as (c & Hget & Hcov).
    rewrite Hoa in Hget. injection Hget as <-.
    apply dmem_with_zone. now apply (Hcov d oa1).
  - now apply Hc.
Qed.

Lemma complete_truncate_lines (r2 r3 : dict) :
  complete r2 -> truncate_lines r2 = Ok r3 -> complete r3.
Proof.
  intros Hc Ht k dv Hk.
  destruct (String.eqb_spec k "interpret_lines") as [->|Hne].
  - destruct (Hc _ _ Hk) as (c & Hget & _).
    destruct (truncate_lines_lines _ _ _ Ht Hget) as (c' & Hget' & _).
    exists c'. split; [assumption|].
    vm_compute in Hk. injection Hk as <-. intros d sub [=].
  - rewrite (truncate_lines_dget _ _ _ Ht Hne). now apply Hc.
Qed.

(** What the merge leaves under [overall_assessment], when it is a dict:
    the input's score, or the default one. *)
Lemma merged_assessment (r oa1 : dict) :
  dget "overall_assessment" (merge_defaults r) = Some (VDict oa1) ->
  oa1 = match dget "overall_assessment" r with
        | Some (VDict sub) => backfill default_overall_assessment sub
        | _ => default_overall_assessment
        end.
Proof.
  unfold merge_defaults. rewrite dget_merge_with by apply NoDup_defaults.
  change (dget "overall_assessment" defaults)
    with (Some (VDict default_overall_assessment)).
  unfold merged_value.
  destruct (dget "overall_assessment" r) as [c|].
  - destruct c; intros [= <-]; reflexivity.
  - now intros [= <-].
Qed.

Lemma merged_score (r oa1 : dict) :
  dget "overall_assessment" (merge_defaults r) = Some (VDict oa1) ->
  dget "distress_score" oa1 = Some (input_score r).
Proof.
  intros H. rewrite (merged_assessment _ _ H). unfold input_score, score_of.
  destruct (dget "overall_assessment" r) as [c|]; [|reflexivity].
  destruct c; try reflexivity.
  rewrite dget_backfill. now destruct (dget "distress_score" d).
Qed.

(** The thresholds, read off the branch taken. *)
Lemma float_above (f : pyfloat) (lo hi : Z) :
  (lo < hi)%Z -> int_le_float hi f = true -> float_le_int f lo = false.
Proof.
  intros Hlt. destruct f as [|neg|neg|neg m e]; simpl.
  - discriminate.
  - now destruct neg.
  - intros H. apply Z.leb_le in H. apply Z.leb_gt. lia.
  - generalize (if neg then Z.neg m else Z.pos m). intros sm.
    destruct (0 <=? e)%Z eqn:He.
    + generalize (sm * 2 ^ e)%Z. intros x H.
      apply Z.leb_le in H. apply Z.leb_gt. lia.
    + apply Z.leb_gt in He.
      assert (Hp : (0 < 2 ^ (- e))%Z) by (apply Z.pow_pos_nonneg; lia).
      revert Hp. generalize (2 ^ (- e))%Z. intros p Hp H.
      apply Z.leb_le in H. apply Z.leb_gt. nia.
Qed.

Lemma zone_low (s : value) (zl : string * string) :
  zone_of_score s = Ok zl -> score_le s 33 -> zl = ("green", "LOW").
Proof.
  unfold zone_of_score.
  destruct s; simpl; try contradiction; intros H Hle.
  - apply Z.leb_le in Hle. rewrite Hle in H. now injection H.
  - apply Z.leb_le in Hle. rewrite Hle in H. now injection H.
  - rewrite Hle in H. now injection H.
Qed.

Lemma zone_mid (s : value) (zl : string * string) :
  zone_of_score s = Ok zl -> score_ge s 34 -> score_le s 66 ->
  zl = ("yellow", "MODERATE").
Proof.
  unfold zone_of_score.
  destruct s; simpl; try contradiction; intros H Hge Hle.
  - destruct b; lia.
  - apply Z.leb_le in Hle. rewrite Hle in H.
    assert (E : (n <=? 33)%Z = false) by (apply Z.leb_gt; lia).
    rewrite E in H. now injection H.
  - rewrite Hle, (float_above f 33 34) in H by (lia || assumption).
    now injection H.
Qed.

Lemma zone_high (s : value) (zl : string * string) :
  zone_of_score s = Ok zl -> score_ge s 67 -> zl = ("red", "ELEVATED").
Proof.
  unfold zone_of_score.
  destruct s; simpl; try contradiction; intros H Hge.
  - destruct b; lia.
  - assert (E : (n <=? 33)%Z = false) by (apply Z.leb_gt; lia).
    assert (E' : (n <=? 66)%Z = false) by (apply Z.leb_gt; lia).
    rewrite E, E' in H. now injection H.
  - rewrite (float_above f 33 67), (float_above f 66 67) in H
      by (lia || assumption).
    now injection H.
Qed.

End NormalizerSteps.

Import Normalizer DictFacts MergeFacts NormalizerFacts NormalizerSteps.

(** C4. The normalizer is idempotent: running it on its own result gives
    that result again, and a run that raises has no result to run on. *)
Theorem normalizer_idempotent (r : dict) :
  (r' <- validate_and_enrich_response r ;; validate_and_enrich_response r')
  = validate_and_enrich_response r.
Proof.
  destruct (validate_and_enrich_response r) as [r'|e] eqn:Hv; simpl;
    [|reflexivity].
  destruct (validate_inv _ _ Hv) as (oa1 & zl & Hoa & Hzl & Ht).
  set (r2 := dset "overall_assessment" (VDict (with_zone zl oa1))
               (merge_defaults r)) in *.
  assert (Hc2 : complete r2)
    by (apply complete_with_zone; [apply complete_merge_defaults | exact Hoa]).
  assert (Hc' : complete r') by exact (complete_truncate_lines _ _ Hc2 Ht).
  assert (Hoa' : dget "overall_assessment" r' = Some (VDict (with_zone zl oa1))).
  { rewrite (truncate_lines_dget _ _ "overall_assessment" Ht) by discriminate.
    apply dget_dset_same. }
  unfold validate_and_enrich_response.
  rewrite (merge_defaults_complete _ Hc').
  rewrite (fix_zone_intro r' _ zl Hoa') by (now rewrite score_of_with_zone).
  simpl. rewrite with_zone_twice, (dset_same_id _ _ _ Hoa').
  exact (truncate_lines_fixed _ _ Ht).
Qed.

(** C1. Whenever the normalizer returns, the zone and zone label of
    [overall_assessment] follow from the distress score alone, whatever
    zone the input carried: at most 33 gives green/LOW, 34 to 66 gives
    yellow/MODERATE, 67 and above gives red/ELEVATED. *)
Theorem zone_recomputed_from_score (r r' : dict) :
  validate_and_enrich_response r = Ok r' ->
  exists oa',
    dget "overall_assessment" r' = Some (VDict oa') /\
    dget "distress_score" oa' = Some (input_score r) /\
    (score_le (input_score r) 33 ->
       dget "zone" oa' = Some (VStr "green") /\
       dget "zone_label" oa' = Some (VStr "LOW")) /\
    (score_ge (input_score r) 34 -> score_le (input_score r) 66 ->
       dget "zone" oa' = Some (VStr "yellow") /\
       dget "zone_label" oa' = Some (VStr "MODERATE")) /\
    (score_ge (input_score r) 67 ->
       dget "zone" oa' = Some (VStr "red") /\
       dget "zone_label" oa' = Some (VStr "ELEVATED")).
Proof.
  intros Hv. destruct (validate_inv _ _ Hv) as (oa1 & zl & Hoa & Hzl & Ht).
  exists (with_zone zl oa1).
  pose proof (merged_score _ _ Hoa) as Hs.
  assert (Hso : score_of oa1 = input_score r)
    by (unfold score_of; now rewrite Hs).
  rewrite Hso in Hzl.
  split.
  { rewrite (truncate_lines_dget _ _ "overall_assessment" Ht) by discriminate.
    apply dget_dset_same. }
  split.
  { now rewrite dget_with_zone_other by discriminate. }
  rewrite dget_zone_with_zone, dget_label_with_zone.
  repeat split.
  - now rewrite (zone_low _ _ Hzl H).
  - now rewrite (zone_low _ _ Hzl H).
  - now rewrite (zone_mid _ _ Hzl H H0).
  - now rewrite (zone_mid _ _ Hzl H H0).
  - now rewrite (zone_high _ _ Hzl H).
  - now rewrite (zone_high _ _ Hzl H).
Qed.

(** The contradictory input of the specification: score 10 filed under
    zone red comes out green/LOW. *)
Lemma zone_recomputed_from_score_witness :
  exists r' oa',
    validate_and_enrich_response
      [("overall_assessment",
        VDict [("distress_score", VInt 10); ("zone", VStr "red");
               ("zone_label", VStr "ELEVATED")])] = Ok r' /\
    dget "overall_assessment" r' = Some (VDict oa') /\
    dget "zone" oa' = Some (VStr "green") /\
    dget "zone_label" oa' = Some (VStr "LOW").
Proof.
  eexists.
  destruct (zone_recomputed_from_score
              [("overall_assessment",
                VDict [("distress_score", VInt 10); ("zone", VStr "red");
                       ("zone_label", VStr "ELEVATED")])] _ eq_refl)
    as (oa' & Hoa & _ & Hlow & _).
  exists oa'. split; [reflexivity|]. split; [exact Hoa|].
  apply Hlow. vm_compute. discriminate.
Defined.

Module NormalizerLines.
Import Normalizer DictFacts MergeFacts NormalizerFacts NormalizerSteps.

Lemma truncate_lines_list (r2 r3 : dict) (lines : list value) :
  truncate_lines r2 = Ok r3 ->
  dget "interpret_lines" r2 = Some (VList lines) ->
  exists lines',
    for_each truncate_line lines = Ok lines' /\
    r3 = dset "interpret_lines" (VList lines') r2.
Proof.
  unfold truncate_lines. intros H Hl. rewrite Hl in H.
  destruct (for_each truncate_line lines) as [lines'|]; simpl in H;
    [|discriminate].
  injection H as <-. now exists lines'.
Qed.

(** A key bound to something that is not a dict passes the merge as is. *)
Lemma merge_defaults_keeps (r : dict) (k : string) (c : value) :
  dget k r = Some c -> is_dict c = false ->
  dget k (merge_defaults r) = Some c.
Proof.
  intros Hc Hd. unfold merge_defaults.
  rewrite dget_merge_with by apply NoDup_defaults. rewrite Hc.
  destruct (dget k defaults) as [dv|]; [|reflexivity].
  unfold merged_value. destruct dv, c; try reflexivity. discriminate.
Qed.

Lemma merge_defaults_absent (r : dict) (k : string) (dv : value) :
  dget k defaults = Some dv -> dget k r = None ->
  dget k (merge_defaults r) = Some dv.
Proof.
  intros Hk Hr. unfold merge_defaults.
  rewrite dget_merge_with by apply NoDup_defaults. now rewrite Hk, Hr.
Qed.

Lemma merge_defaults_backfills (r : dict) (k : string) (d sub : dict) :
  dget k defaults = Some (VDict d) -> dget k r = Some (VDict sub) ->
  dget k (merge_defaults r) = Some (VDict (backfill d sub)).
Proof.
  intros Hk Hr. unfold merge_defaults.
  rewrite dget_merge_with by apply NoDup_defaults. now rewrite Hk, Hr.
Qed.


Lemma for_each_line_ok (lines : list value) :
  Forall line_ok lines -> exists lines', for_each truncate_line lines = Ok lines'.
Proof.
  induction 1 as [|x l (d & -> & Hd) Hl (l' & IH)]; cbn [for_each].
  - now exists [].
  - rewrite IH. destruct Hd as [Hd|[text Hd]].
    + unfold truncate_line. rewrite Hd. simpl. eauto.
    + rewrite (truncate_line_dict _ _ Hd). simpl. eauto.
Qed.

Lemma zone_of_score_numeric (s : value) :
  numeric s = true -> exists zl, zone_of_score s = Ok zl.
Proof.
  unfold zone_of_score.
  destruct s; simpl; try discriminate; intros _.
  - destruct (_ <=? 33)%Z; [eauto|]. destruct (_ <=? 66)%Z; eauto.
  - destruct (n <=? 33)%Z; [eauto|]. destruct (n <=? 66)%Z; eauto.
  - destruct (float_le_int f 33); [eauto|]. destruct (float_le_int f 66); eauto.
Qed.

Lemma zone_of_score_not_numeric (s : value) :
  numeric s = false -> zone_of_score s = Raise TypeError.
Proof. destruct s; simpl; try discriminate; reflexivity. Qed.

End NormalizerLines.

Import NormalizerLines.

(** C5. When the normalizer returns and the input carries a list of
    interpretation lines, the list keeps its length, and each line whose
    first-person text has more than six words holds exactly the first six,
    joined by single spaces (which split back into those six words, so
    nothing is appended); with six words or fewer the line is unchanged. *)
Theorem interpretation_lines_capped (r r' : dict) (lines : list value) :
  validate_and_enrich_response r = Ok r' ->
  dget "interpret_lines" r = Some (VList lines) ->
  exists lines',
    dget "interpret_lines" r' = Some (VList lines') /\
    List.length lines' = List.length lines /\
    forall i d text,
      nth_error lines i = Some (VDict d) ->
      dget fpi d = Some (VStr text) ->
      let words := Text.split text in
      exists d',
        nth_error lines' i = Some (VDict d') /\
        ((6 < List.length words)%nat ->
           d' = dset fpi (VStr (Text.join " " (firstn 6 words))) d /\
           Text.split (Text.join " " (firstn 6 words)) = firstn 6 words) /\
        ((List.length words <= 6)%nat -> d' = d).
Proof.
  intros Hv Hl. destruct (validate_inv _ _ Hv) as (oa1 & zl & Hoa & Hzl & Ht).
  assert (Hl2 : dget "interpret_lines"
                  (dset "overall_assessment" (VDict (with_zone zl oa1))
                     (merge_defaults r)) = Some (VList lines)).
  { rewrite dget_dset_other by discriminate.
    now apply merge_defaults_keeps. }
  destruct (truncate_lines_list _ _ _ Ht Hl2) as (lines' & Hfe & ->).
  exists lines'. split; [apply dget_dset_same|].
  split; [exact (for_each_length _ _ _ Hfe)|].
  intros i d text Hi Hd words.
  destruct (for_each_nth _ _ _ Hfe i _ Hi) as (y & Hy & Hty).
  rewrite (truncate_line_dict _ _ Hd) in Hty. injection Hty as <-.
  eexists; split; [exact Hy|]. unfold capped. fold words. split.
  - intros H. apply Nat.ltb_lt in H. rewrite H. split; [reflexivity|].
    apply TextFacts.split_join_firstn.
  - intros H. apply Nat.ltb_ge in H. rewrite H. now apply dset_same_id.
Qed.

Lemma interpretation_lines_capped_witness :
  exists r' lines',
    validate_and_enrich_response
      [("interpret_lines",
        VList [VDict [(fpi, VStr "I really do not like this loud noise")];
               VDict [(fpi, VStr "Feeling calm")]])] = Ok r' /\
    dget "interpret_lines" r' = Some (VList lines') /\
    nth_error lines' 0 = Some (VDict [(fpi, VStr "I really do not like this")]) /\
    nth_error lines' 1 = Some (VDict [(fpi, VStr "Feeling calm")]).
Proof.
  eexists.
  destruct (interpretation_lines_capped
              [("interpret_lines",
                VList [VDict [(fpi, VStr "I really do not like this loud noise")];
                       VDict [(fpi, VStr "Feeling calm")]])] _ _
              eq_refl eq_refl) as (lines' & Hl & _ & Hcap).
  exists lines'. split; [reflexivity|]. split; [exact Hl|]. split.
  - destruct (Hcap 0%nat _ _ eq_refl eq_refl) as (d' & Hn & Hlong & _).
    rewrite Hn. destruct Hlong as [-> _]; [vm_compute; lia | reflexivity].
  - destruct (Hcap 1%nat _ _ eq_refl eq_refl) as (d' & Hn & _ & Hshort).
    rewrite Hn, Hshort; [reflexivity | vm_compute; lia].
Defined.



(** C9, as the code has it.  The normalizer raises when
    [overall_assessment] is bound to anything but a dict, and when its
    [distress_score] is bound to a value that [<=] does not accept against
    an integer.  It returns when [overall_assessment], if present, is a
    dict with a numeric (or absent) score, and [interpret_lines], if
    present, is a list of dicts whose first-person text, if present, is a
    string.  The other keys with dict defaults may hold anything. *)
Theorem normalizer_totality (r : dict) :
  (forall c,
     dget "overall_assessment" r = Some c -> is_dict c = false ->
     validate_and_enrich_response r = Raise AttributeError) /\
  (forall oa s,
     dget "overall_assessment" r = Some (VDict oa) ->
     dget "distress_score" oa = Some s -> numeric s = false ->
     validate_and_enrich_response r = Raise TypeError) /\
  ((forall c, dget "overall_assessment" r = Some c ->
      exists oa, c = VDict oa /\ numeric (score_of oa) = true) ->
   (forall c, dget "interpret_lines" r = Some c ->
      exists lines, c = VList lines /\ Forall line_ok lines) ->
   exists r', validate_and_enrich_response r = Ok r').
Proof.
  split; [|split].
  - intros c Hc Hd. unfold validate_and_enrich_response, fix_zone, read_distress.
    rewrite (merge_defaults_keeps _ _ _ Hc Hd). now destruct c.
  - intros oa s Hoa Hs Hn. unfold validate_and_enrich_response.
    pose proof (merge_defaults_backfills r "overall_assessment" _ _ eq_refl Hoa)
      as Hm.
    rewrite (fix_zone_dict _ _ Hm).
    assert (Hso : score_of (backfill default_overall_assessment oa) = s)
      by (unfold score_of; now rewrite dget_backfill, Hs).
    now rewrite Hso, (zone_of_score_not_numeric _ Hn).
  - intros Hoa Hl. unfold validate_and_enrich_response.
    assert (Hm : exists oa1,
               dget "overall_assessment" (merge_defaults r) = Some (VDict oa1) /\
               numeric (score_of oa1) = true).
    { destruct (dget "overall_assessment" r) as [c|] eqn:Hc.
      - destruct (Hoa c eq_refl) as (oa & -> & Hn).
        exists (backfill default_overall_assessment oa). split.
        + now apply merge_defaults_backfills.
        + pose proof (merge_defaults_backfills r "overall_assessment" _ _
                        eq_refl Hc) as Hb.
          pose proof (merged_score _ _ Hb) as Hs.
          unfold score_of at 1. rewrite Hs. unfold input_score. now rewrite Hc.
      - exists default_overall_assessment. split; [|reflexivity].
        now apply merge_defaults_absent. }
    destruct Hm as (oa1 & Hm & Hn).
    destruct (zone_of_score_numeric _ Hn) as (zl & Hzl).
    rewrite (fix_zone_intro _ _ _ Hm Hzl). simpl.
    assert (Hl2 : exists lines,
               dget "interpret_lines"
                 (dset "overall_assessment" (VDict (with_zone zl oa1))
                    (merge_defaults r)) = Some (VList lines) /\
               Forall line_ok lines).
    { rewrite dget_dset_other by discriminate.
      destruct (dget "interpret_lines" r) as [c|] eqn:Hc.
      - destruct (Hl c eq_refl) as (lines & -> & Hok).
        exists lines. split; [|assumption]. now apply merge_defaults_keeps.
      - exists []. split; [|constructor]. now apply merge_defaults_absent. }
    destruct Hl2 as (lines & Hget & Hok).
    destruct (for_each_line_ok _ Hok) as (lines' & Hfe).
    unfold truncate_lines. rewrite Hget, Hfe. simpl. eauto.
Qed.

Lemma normalizer_totality_witness :
  validate_and_enrich_response [("overall_assessment", VStr "high")]
    = Raise AttributeError /\
  validate_and_enrich_response
    [("overall_assessment", VDict [("distress_score", VStr "80")])]
    = Raise TypeError /\
  exists r',
    validate_and_enrich_response
      [("overall_assessment", VDict [("distress_score", VInt 80)]);
       ("visual_analysis", VNone);
       ("interpret_lines", VList [VDict [(fpi, VStr "Too loud here")]])]
    = Ok r'.
Proof.
  split; [|split].
  - apply (proj1 (normalizer_totality _) (VStr "high")); reflexivity.
  - apply (proj1 (proj2 (normalizer_totality _))
             [("distress_score", VStr "80")] (VStr "80")); reflexivity.
  - apply (proj2 (proj2 (normalizer_totality _))).
    + intros c [= <-]. eexists; split; reflexivity.
    + intros c [= <-]. eexists; split; [reflexivity|].
      constructor; [|constructor].
      eexists; split; [reflexivity|]. right. eexists; reflexivity.
Defined.

(** C9 as the specification words it fails twice: a non-dict under a key
    with a dict default other than [overall_assessment] does not make the
    normalizer raise, and well-typed dict keys with a numeric score do not
    keep it from raising on ill-typed interpretation lines. *)
Lemma normalizer_totality_counterexample :
  (dget "visual_analysis" defaults = Some (VDict default_visual_analysis) /\
   dget "visual_analysis" [("visual_analysis", VStr "x")] = Some (VStr "x") /\
   exists r',
     validate_and_enrich_response [("visual_analysis", VStr "x")] = Ok r') /\
  (validate_and_enrich_response
     [("overall_assessment", VDict [("distress_score", VInt 20)]);
      ("interpret_lines", VList [VDict [(fpi, VInt 7)]])]
   = Raise AttributeError).
Proof.
  split; [split; [reflexivity | split; [reflexivity|]]|].
  - eexists. vm_compute. reflexivity.
  - vm_compute. reflexivity.
Qed.

(* ================================================================== *)
(** * Lemmas: the two searches *)
(* ================================================================== *)

Module RegexFacts.
Import Regex Extractor.

(** ** Slices *)

Lemma take_nil (n : nat) : Text.take n "" = "".
Proof. now destruct n. Qed.

Lemma take_cons (n : nat) (a : ascii) (s : string) :
  Text.take (S n) (String a s) = String a (Text.take n s).
Proof. reflexivity. Qed.

Lemma drop_nil (n : nat) : drop n "" = "".
Proof. now destruct n. Qed.

Lemma drop_drop (a b : nat) (s : string) : drop a (drop b s) = drop (b + a) s.
Proof.
  revert s. induction b as [|b IH]; intros s; simpl; [reflexivity|].
  destruct s; [apply drop_nil | apply IH].
Qed.

Lemma substring_take_drop (n m : nat) (s : string) :
  substring n m s = Text.take m (drop n s).
Proof.
  revert s. induction n as [|n IH]; intros s; [reflexivity|].
  destruct s as [|c s]; simpl.
  - now destruct m.
  - apply IH.
Qed.

Lemma drop_take (n k : nat) (s : string) :
  drop n (Text.take (n + k) s) = Text.take k (drop n s).
Proof.
  revert s. induction n as [|n IH]; intros s; [reflexivity|].
  destruct s as [|c s].
  - simpl. now rewrite take_nil.
  - change (S n + k)%nat with (S (n + k)). rewrite take_cons. simpl. apply IH.
Qed.

Lemma take_take (r k : nat) (s : string) :
  (r <= k)%nat -> Text.take r (Text.take k s) = Text.take r s.
Proof.
  revert k s. induction r as [|r IH]; intros k s Hle.
  - destruct (Text.take k s), s; reflexivity.
  - destruct k as [|k]; [lia|]. destruct s as [|c s]; [reflexivity|].
    rewrite !take_cons. f_equal. apply IH. lia.
Qed.

(** ** Prefixes *)

Lemma strip_prefix_prefix (p s : string) :
  strip_prefix p s =
  if prefix p s then Some (drop (String.length p) s) else None.
Proof.
  revert s. induction p as [|a p IH]; intros s.
  - now destruct s.
  - destruct s as [|b s]; [reflexivity|]. simpl.
    destruct (ascii_dec a b) as [->|Hne].
    + rewrite Ascii.eqb_refl. apply IH.
    + apply Ascii.eqb_neq in Hne. now rewrite Hne.
Qed.

Lemma prefix_cons (a b : ascii) (p s : string) :
  prefix (String a p) (String b s) = Ascii.eqb a b && prefix p s.
Proof.
  simpl. destruct (ascii_dec a b) as [->|Hne].
  - now rewrite Ascii.eqb_refl.
  - apply Ascii.eqb_neq in Hne. now rewrite Hne.
Qed.

(** A fence does not start with whitespace. *)
Lemma prefix_fence_space (a : ascii) (s : string) :
  Text.isspace a = true -> prefix fence (String a s) = false.
Proof.
  intros Ha. unfold fence. rewrite prefix_cons.
  destruct (Ascii.eqb_spec "`" a) as [<-|]; [discriminate Ha | reflexivity].
Qed.

Lemma prefix_fence_ws_run (s : string) :
  prefix fence s = true -> ws_run s = 0%nat.
Proof.
  destruct s as [|a s]; [reflexivity|]. simpl ws_run.
  destruct (Text.isspace a) eqn:Ha; [|reflexivity].
  now rewrite prefix_fence_space.
Qed.

(** ** Finding fences *)

Lemma find_cons (needle : string) (a : ascii) (s : string) :
  prefix needle (String a s) = false ->
  find needle (String a s) = option_map S (find needle s).
Proof. intros H. cbn [find]. now rewrite H. Qed.

Lemma find_here (needle s : string) :
  prefix needle s = true -> find needle s = Some 0%nat.
Proof. intros H. destruct s; cbn [find]; now rewrite H. Qed.

(** Leading whitespace holds no fence. *)
Lemma find_fence_ws_run (s : string) :
  find fence s =
  option_map (fun k => (ws_run s + k)%nat) (find fence (drop (ws_run s) s)).
Proof.
  induction s as [|a s IH]; [reflexivity|]. simpl ws_run.
  destruct (Text.isspace a) eqn:Ha.
  - rewrite find_cons by now apply prefix_fence_space.
    simpl drop. rewrite IH. now destruct (find fence (drop (ws_run s) s)).
  - simpl drop. now destruct (find fence (String a s)).
Qed.

(** Nor does the tag. *)
Lemma find_fence_tag (s s' : string) :
  strip_prefix "json" s = Some s' ->
  find fence s = option_map (fun k => (4 + k)%nat) (find fence s').
Proof.
  destruct s as [|c1 s]; [discriminate|]. cbn [strip_prefix].
  destruct (Ascii.eqb_spec "j" c1) as [<-|]; [|discriminate].
  destruct s as [|c2 s]; [discriminate|]. cbn [strip_prefix].
  destruct (Ascii.eqb_spec "s" c2) as [<-|]; [|discriminate].
  destruct s as [|c3 s]; [discriminate|]. cbn [strip_prefix].
  destruct (Ascii.eqb_spec "o" c3) as [<-|]; [|discriminate].
  destruct s as [|c4 s]; [discriminate|]. cbn [strip_prefix].
  destruct (Ascii.eqb_spec "n" c4) as [<-|]; [|discriminate].
  intros [= <-].
  rewrite !find_cons by reflexivity.
  now destruct (find fence s).
Qed.

Lemma find_fence_drop (m : nat) (s : string) :
  find fence s = None -> find fence (drop m s) = None.
Proof.
  revert s. induction m as [|m IH]; intros s H; [exact H|].
  destruct s as [|a s]; [reflexivity|]. simpl drop. apply IH.
  cbn [find] in H. destruct (prefix fence (String a s)); [discriminate|].
  now destruct (find fence s).
Qed.

(** ** Closing a block *)

Lemma run_lit_fence (q : nat) (u : string) (c : caps) :
  run [Lit fence] q u c = if prefix fence u then Some ((q + 3)%nat, c) else None.
Proof.
  cbn [run]. rewrite strip_prefix_prefix. now destruct (prefix fence u).
Qed.

(** [\s*```]: whitespace is never given back, a fence cannot start in it. *)
Lemma star_greedy_closes (q : nat) (u : string) (c : caps) :
  star_greedy Text.isspace (run [Lit fence]) q u c =
  if closes_at u then Some ((q + ws_run u + 3)%nat, c) else None.
Proof.
  unfold closes_at. revert q. induction u as [|a u IH]; intros q.
  - reflexivity.
  - cbn [star_greedy ws_run]. destruct (Text.isspace a) eqn:Ha.
    + rewrite IH. cbn [drop].
      destruct (prefix fence (drop (ws_run u) u)).
      * do 2 f_equal. lia.
      * rewrite run_lit_fence. now rewrite prefix_fence_space.
    + rewrite run_lit_fence. cbn [drop].
      destruct (prefix fence (String a u)); [|reflexivity].
      do 2 f_equal. lia.
Qed.

Lemma closes_at_find (t : string) :
  closes_at t = true ->
  find fence t = Some (ws_run t) /\ rstrip_len (Text.take (ws_run t) t) = 0%nat.
Proof.
  unfold closes_at. induction t as [|a t IH]; [discriminate|].
  cbn [ws_run]. destruct (Text.isspace a) eqn:Ha; cbn [drop].
  - intros H. destruct (IH H) as [Hf Hr].
    rewrite find_cons by now apply prefix_fence_space.
    rewrite Hf. split; [reflexivity|].
    rewrite take_cons. cbn [rstrip_len]. now rewrite Hr, Ha.
  - intros H. split; [now apply find_here | reflexivity].
Qed.

Lemma find_rstrip_closes (t : string) (k : nat) :
  find fence t = Some k -> rstrip_len (Text.take k t) = 0%nat ->
  closes_at t = true.
Proof.
  unfold closes_at. revert k. induction t as [|a t IH]; intros k; [discriminate|].
  destruct (prefix fence (String a t)) eqn:Hp.
  - intros _ _. now rewrite (prefix_fence_ws_run _ Hp).
  - rewrite (find_cons _ _ _ Hp).
    destruct (find fence t) as [k'|] eqn:Hf; [|discriminate].
    intros [= <-]. rewrite take_cons. cbn [rstrip_len].
    destruct (rstrip_len (Text.take k' t)) eqn:Hr; [|discriminate].
    destruct (Text.isspace a) eqn:Ha; [|discriminate]. intros _.
    cbn [ws_run]. rewrite Ha. cbn [drop]. now apply (IH k').
Qed.

(** [([\s\S]*?)\s*```]: the interior ends where only whitespace is left
    before the next fence. *)
Lemma star_lazy_body (p : nat) (t : string) (c : caps) :
  star_lazy any (run [Close; Star true Text.isspace; Lit fence]) p t c =
  match find fence t with
  | None => None
  | Some k =>
      Some ((p + k + 3)%nat,
            {| open1 := open1 c; close1 := (p + rstrip_len (Text.take k t))%nat |})
  end.
Proof.
  revert p. induction t as [|a t IH]; intros p.
  - reflexivity.
  - cbn [star_lazy]. change (run [Close; Star true Text.isspace; Lit fence])
      with (fun pos s c0 => star_greedy Text.isspace (run [Lit fence]) pos s
                              {| open1 := open1 c0; close1 := pos |}) at 1.
    cbv beta. rewrite star_greedy_closes.
    destruct (closes_at (String a t)) eqn:Hc.
    + destruct (closes_at_find _ Hc) as [-> ->]. do 3 f_equal. lia.
    + unfold any at 1. rewrite IH.
      assert (Hp : prefix fence (String a t) = false).
      { destruct (prefix fence (String a t)) eqn:Hp; [|reflexivity].
        unfold closes_at in Hc. rewrite (prefix_fence_ws_run _ Hp) in Hc.
        cbn [drop] in Hc. congruence. }
      rewrite (find_cons _ _ _ Hp).
      destruct (find fence t) as [k|] eqn:Hf; [|reflexivity]. cbn [option_map].
      rewrite take_cons. cbn [rstrip_len].
      destruct (rstrip_len (Text.take k t)) eqn:Hr.
      * destruct (Text.isspace a) eqn:Ha.
        -- exfalso. pose proof (find_rstrip_closes _ _ Hf Hr) as Hc'.
           unfold closes_at in Hc, Hc'. cbn [ws_run] in Hc. rewrite Ha in Hc.
           cbn [drop] in Hc. congruence.
        -- do 3 f_equal; lia.
      * do 3 f_equal; lia.
Qed.

Lemma run_body (p : nat) (t : string) (c : caps) :
  run [Open; Star false any; Close; Star true Text.isspace; Lit fence] p t c
  = body_match p t.
Proof.
  change (run [Open; Star false any; Close; Star true Text.isspace; Lit fence] p t c)
    with (star_lazy any (run [Close; Star true Text.isspace; Lit fence]) p t
            {| open1 := p; close1 := close1 c |}).
  now rewrite star_lazy_body.
Qed.

Lemma body_match_none (p : nat) (t : string) :
  body_match p t = None <-> find fence t = None.
Proof. unfold body_match. destruct (find fence t); split; congruence. Qed.

(** [\s*] before the group: giving whitespace back never helps. *)
Lemma star_greedy_ws_body (p : nat) (s : string) (c : caps) :
  star_greedy Text.isspace
    (run [Open; Star false any; Close; Star true Text.isspace; Lit fence]) p s c
  = body_match (p + ws_run s) (drop (ws_run s) s).
Proof.
  revert p. induction s as [|a s IH]; intros p.
  - cbn [star_greedy ws_run drop]. rewrite run_body. now rewrite Nat.add_0_r.
  - cbn [star_greedy ws_run]. destruct (Text.isspace a) eqn:Ha; cbn [drop].
    + rewrite IH. replace (S p + ws_run s)%nat with (p + S (ws_run s))%nat by lia.
      destruct (body_match (p + S (ws_run s)) (drop (ws_run s) s)) eqn:Hb;
        [reflexivity|].
      rewrite run_body. apply body_match_none. apply body_match_none in Hb.
      rewrite find_cons by now apply prefix_fence_space.
      rewrite find_fence_ws_run, Hb. reflexivity.
    + rewrite run_body. now rewrite Nat.add_0_r.
Qed.

(** [(?:json)?]: nor does giving the tag back. *)
Lemma run_tagged (p : nat) (s : string) (c : caps) :
  run [OptLit "json"; Star true Text.isspace;
       Open; Star false any; Close; Star true Text.isspace; Lit fence] p s c
  = let tag := if prefix "json" s then 4%nat else 0%nat in
    let tagged := drop tag s in
    body_match (p + tag + ws_run tagged) (drop (ws_run tagged) tagged).
Proof.
  change (run [OptLit "json"; Star true Text.isspace;
               Open; Star false any; Close; Star true Text.isspace; Lit fence] p s c)
    with (match strip_prefix "json" s with
          | Some s' =>
              match star_greedy Text.isspace
                      (run [Open; Star false any; Close;
                            Star true Text.isspace; Lit fence])
                      (p + 4) s' c with
              | Some r => Some r
              | None =>
                  star_greedy Text.isspace
                    (run [Open; Star false any; Close;
                          Star true Text.isspace; Lit fence]) p s c
              end
          | None =>
              star_greedy Text.isspace
                (run [Open; Star false any; Close;
                      Star true Text.isspace; Lit fence]) p s c
          end).
  destruct (strip_prefix "json" s) as [s'|] eqn:Hs; rewrite !star_greedy_ws_body.
  - assert (Hs' : prefix "json" s = true /\ s' = drop 4 s).
    { rewrite strip_prefix_prefix in Hs.
      destruct (prefix "json" s); [|discriminate].
      split; [reflexivity | now injection Hs]. }
    destruct Hs' as [Hp Hs']. rewrite Hp. cbv zeta. rewrite <- Hs'.
    destruct (body_match (p + 4 + ws_run s') (drop (ws_run s') s')) eqn:Hb;
      [reflexivity|].
    apply body_match_none. apply body_match_none in Hb.
    pose proof (find_fence_tag _ _ Hs) as Ht.
    rewrite (find_fence_ws_run s'), Hb in Ht. cbn [option_map] in Ht.
    rewrite find_fence_ws_run in Ht.
    now destruct (find fence (drop (ws_run s) s)).
  - rewrite strip_prefix_prefix in Hs.
    destruct (prefix "json" s); [discriminate|].
    cbv zeta. cbn [drop]. now rewrite Nat.add_0_r.
Qed.

Lemma run_fence_re (p : nat) (s : string) (c : caps) :
  run fence_re p s c =
  if prefix fence s then
    let after := drop 3 s in
    let tag := if prefix "json" after then 4%nat else 0%nat in
    let tagged := drop tag after in
    body_match (p + 3 + tag + ws_run tagged) (drop (ws_run tagged) tagged)
  else None.
Proof.
  change (run fence_re p s c)
    with (match strip_prefix fence s with
          | Some s' =>
              run [OptLit "json"; Star true Text.isspace;
                   Open; Star false any; Close; Star true Text.isspace; Lit fence]
                (p + String.length fence) s' c
          | None => None
          end).
  rewrite strip_prefix_prefix.
  destruct (prefix fence s); [|reflexivity].
  now rewrite run_tagged.
Qed.

(** ** The search for a fenced block *)

Lemma find_fence_after (after : string) :
  let tag := if prefix "json" after then 4%nat else 0%nat in
  let tagged := drop tag after in
  find fence (drop (ws_run tagged) tagged) = None ->
  find fence after = None.
Proof.
  cbv zeta. intros H.
  assert (Ht : find fence (drop (if prefix "json" after then 4 else 0) after)
               = None) by (rewrite find_fence_ws_run; now rewrite H).
  pose proof (strip_prefix_prefix "json" after) as Hs.
  destruct (prefix "json" after); [|exact Ht].
  rewrite (find_fence_tag _ _ Hs). change (String.length "json") with 4%nat.
  now rewrite Ht.
Qed.

Lemma interior_bounds_none (t : string) :
  find fence (drop 3 t) = None -> interior_bounds t = None.
Proof.
  intros H. unfold interior_bounds.
  destruct (find fence t) as [i|]; [|reflexivity]. cbv zeta.
  replace (drop (i + 3) t) with (drop i (drop 3 t))
    by (rewrite drop_drop; f_equal; lia).
  now rewrite (find_fence_drop _ _ (find_fence_drop _ _ (find_fence_drop i _ H))).
Qed.

Lemma search_fence (s : string) (pos : nat) :
  option_map m_caps (search_from fence_re pos s) =
  option_map (fun be => {| open1 := (pos + fst be)%nat;
                           close1 := (pos + snd be)%nat |})
             (interior_bounds s).
Proof.
  revert pos. induction s as [|a s IH]; intros pos.
  - reflexivity.
  - cbn [search_from]. rewrite run_fence_re.
    destruct (prefix fence (String a s)) eqn:Hp.
    + unfold interior_bounds. rewrite (find_here _ _ Hp).
      cbv zeta. change (0 + 3)%nat with 3%nat.
      set (after := drop 3 (String a s)).
      set (tag := if prefix "json" after then 4%nat else 0%nat).
      set (tagged := drop tag after).
      unfold body_match.
      destruct (find fence (drop (ws_run tagged) tagged)) as [k|] eqn:Hk.
      * cbn [option_map m_caps fst snd]. do 2 f_equal; lia.
      * rewrite IH, interior_bounds_none; [reflexivity|].
        pose proof (find_fence_after after Hk) as Ha.
        assert (E : drop 3 s = drop 1 after)
          by (unfold after; destruct s as [|b [|b' s']]; reflexivity).
        rewrite E.
        now apply find_fence_drop.
    + rewrite IH. unfold interior_bounds. rewrite (find_cons _ _ _ Hp).
      destruct (find fence s) as [i|]; [|reflexivity].
      cbn [option_map]. cbv zeta.
      change (drop (S i + 3) (String a s)) with (drop (i + 3) s).
      set (after := drop (i + 3) s).
      set (tag := if prefix "json" after then 4%nat else 0%nat).
      set (tagged := drop tag after).
      destruct (find fence (drop (ws_run tagged) tagged)) as [k|];
        [|reflexivity].
      cbn [option_map fst snd]. do 2 f_equal; lia.
Qed.

Lemma ws_run_take (t : string) (k : nat) :
  ws_run (Text.take (ws_run t + k) t) = ws_run t.
Proof.
  induction t as [|a t IH].
  - now rewrite take_nil.
  - cbn [ws_run]. destruct (Text.isspace a) eqn:Ha.
    + change (S (ws_run t) + k)%nat with (S (ws_run t + k)).
      rewrite take_cons. cbn [ws_run]. now rewrite Ha, IH.
    + destruct k as [|k]; [reflexivity|].
      change (0 + S k)%nat with (S k). rewrite take_cons. cbn [ws_run].
      now rewrite Ha.
Qed.

Lemma rstrip_len_take (k : nat) (t : string) :
  (rstrip_len (Text.take k t) <= k)%nat.
Proof.
  revert t. induction k as [|k IH]; intros t.
  - destruct t; cbn; lia.
  - destruct t as [|a t]; [cbn; lia|]. rewrite take_cons. cbn [rstrip_len].
    specialize (IH t). destruct (rstrip_len (Text.take k t)).
    + destruct (Text.isspace a); lia.
    + lia.
Qed.

(** Stripping the text up to the next fence. *)
Lemma strip_take (t : string) (k : nat) :
  strip (Text.take (ws_run t + k) t) =
  Text.take (rstrip_len (Text.take k (drop (ws_run t) t))) (drop (ws_run t) t).
Proof.
  unfold strip. rewrite ws_run_take, drop_take.
  apply take_take, rstrip_len_take.
Qed.

(** Group 1 of the fence pattern is the interior of the first fenced
    block. *)
Lemma search_fence_group1 (s : string) :
  option_map (fun m => group1 m s) (search fence_re s) = fenced_interior s.
Proof.
  unfold search, group1.
  transitivity
    (option_map (fun c => substring (open1 c) (close1 c - open1 c) s)
       (option_map m_caps (search_from fence_re 0 s)));
    [now destruct (search_from fence_re 0 s)|].
  rewrite search_fence. unfold interior_bounds, fenced_interior.
  destruct (find fence s) as [i|]; [|reflexivity]. cbv zeta.
  set (after := drop (i + 3) s).
  assert (Htag : drop (if prefix "json" after then 4 else 0) after =
                 if prefix "json" after then drop 4 after else after)
    by now destruct (prefix "json" after).
  rewrite <- Htag.
  set (tag := if prefix "json" after then 4%nat else 0%nat).
  set (tagged := drop tag after).
  rewrite (find_fence_ws_run tagged).
  destruct (find fence (drop (ws_run tagged) tagged)) as [k|]; [|reflexivity].
  cbn [option_map open1 close1 fst snd]. f_equal.
  rewrite strip_take, substring_take_drop. f_equal; [lia|].
  unfold tagged, after. rewrite !drop_drop. f_equal.
Qed.

(** ** The search for a brace span *)

Lemma run_lit_close (p : nat) (t : string) (c : caps) :
  run [Lit "}"] p t c =
  match t with
  | String b _ => if Ascii.eqb "}" b then Some ((p + 1)%nat, c) else None
  | EmptyString => None
  end.
Proof.
  cbn [run]. destruct t as [|b t]; [reflexivity|]. cbn [strip_prefix].
  now destruct (Ascii.eqb "}" b).
Qed.

(** [[\s\S]*\}]: back from the end to the last closing brace. *)
Lemma star_greedy_close (p : nat) (t : string) (c : caps) :
  star_greedy any (run [Lit "}"]) p t c =
  option_map (fun j => ((p + j + 1)%nat, c)) (rfind "}" t).
Proof.
  revert p. induction t as [|b t IH]; intros p.
  - reflexivity.
  - cbn [star_greedy rfind]. unfold any at 1. rewrite IH.
    destruct (rfind "}" t) as [j|].
    + cbn [option_map]. do 2 f_equal. lia.
    + rewrite run_lit_close. destruct (Ascii.eqb "}" b); [|reflexivity].
      cbn [option_map]. do 2 f_equal. lia.
Qed.

Lemma run_brace_re (p : nat) (s : string) (c : caps) :
  run brace_re p s c =
  match s with
  | String a s' =>
      if Ascii.eqb "{" a
      then option_map (fun j => ((p + 1 + j + 1)%nat, c)) (rfind "}" s')
      else None
  | EmptyString => None
  end.
Proof.
  destruct s as [|a s']; [reflexivity|].
  change (run brace_re p (String a s') c)
    with (match strip_prefix "{" (String a s') with
          | Some s1 => star_greedy any (run [Lit "}"]) (p + 1) s1 c
          | None => None
          end).
  cbn [strip_prefix]. destruct (Ascii.eqb "{" a); [|reflexivity].
  apply star_greedy_close.
Qed.

Lemma search_brace_none (t : string) (p : nat) :
  rfind "}" t = None -> search_from brace_re p t = None.
Proof.
  revert p. induction t as [|b t IH]; intros p H.
  - reflexivity.
  - cbn [rfind] in H. destruct (rfind "}" t) eqn:Hr; [discriminate|].
    cbn [search_from]. rewrite run_brace_re, Hr.
    destruct (Ascii.eqb "{" b); cbn [option_map]; now apply IH.
Qed.

Lemma prefix_open (a : ascii) (s : string) :
  prefix "{" (String a s) = Ascii.eqb "{" a.
Proof. rewrite prefix_cons. destruct s; now rewrite andb_true_r. Qed.

Lemma search_brace (s : string) (pos : nat) :
  search_from brace_re pos s =
  option_map (fun be => {| m_start := (pos + fst be)%nat;
                           m_end := (pos + snd be)%nat;
                           m_caps := {| open1 := 0; close1 := 0 |} |})
             (brace_bounds s).
Proof.
  revert pos. induction s as [|a s IH]; intros pos.
  - reflexivity.
  - cbn [search_from]. rewrite run_brace_re. unfold brace_bounds.
    cbn [find rfind]. rewrite prefix_open.
    destruct (Ascii.eqb_spec "{" a) as [<-|Hne].
    + destruct (rfind "}" s) as [j|] eqn:Hr; cbn.
      * do 2 f_equal; lia.
      * now apply search_brace_none.
    + rewrite IH. unfold brace_bounds.
      destruct (find "{" s) as [i|]; [|reflexivity]. cbn [option_map].
      destruct (rfind "}" s) as [j|].
      * change (S i <? S j)%nat with (i <? j)%nat.
        destruct (i <? j)%nat; [|reflexivity].
        cbn [option_map fst snd].
        replace (S pos + i)%nat with (pos + S i)%nat by lia.
        replace (S pos + (j + 1))%nat with (pos + (S j + 1))%nat by lia.
        reflexivity.
      * now destruct (Ascii.eqb "}" a).
Qed.

(** Group 0 of the brace pattern is the span from the first opening to
    the last closing brace. *)
Lemma search_brace_group0 (s : string) :
  option_map (fun m => group0 m s) (search brace_re s) = brace_span s.
Proof.
  unfold search. rewrite search_brace. unfold brace_bounds, brace_span.
  destruct (find "{" s) as [i|]; [|reflexivity].
  destruct (rfind "}" s) as [j|]; [|reflexivity].
  destruct (i <? j)%nat; reflexivity.
Qed.

End RegexFacts.


(* ================================================================== *)
(** * Properties of the extractor *)
(* ================================================================== *)

Module ExtractorFacts.
Import Regex Extractor RegexFacts.

Lemma try_match_search (json_loads : string -> outcome value)
    (m : option found) (pick : found -> string -> string) (s : string) :
  try_match json_loads m pick s =
  attempt json_loads (option_map (fun m => pick m s) m).
Proof. now destruct m. Qed.

(** An attempt is skipped exactly on [JSONDecodeError]. *)
Lemma try_loads_none (json_loads : string -> outcome value) (t : string) :
  try_loads json_loads t = None <-> json_loads t = Raise JSONDecodeError.
Proof.
  unfold try_loads. destruct (json_loads t) as [v|e].
  - split; discriminate.
  - destruct e; split; intros H; congruence.
Qed.


(** What an attempt raises is what the decoder raised, and is not
    [JSONDecodeError]. *)
Lemma try_loads_raise (json_loads : string -> outcome value) (t : string)
    (e : exn) :
  try_loads json_loads t = Some (Raise e) <->
  json_loads t = Raise e /\ e <> JSONDecodeError.
Proof.
  unfold try_loads. destruct (json_loads t) as [v|x].
  - split; [discriminate | intros [H _]; discriminate].
  - destruct x; split;
      solve [ intros [= <-]; split; [reflexivity | discriminate]
            | intros [[= <-] _]; reflexivity
            | discriminate
            | intros [[= <-] H]; now contradiction H ].
Qed.




(** The extractor is the reference reading, whatever the decoder does. *)
Lemma parse_json_response_reference (json_loads : string -> outcome value)
    (s : string) :
  parse_json_response json_loads s = reference_extract json_loads s.
Proof.
  unfold parse_json_response, reference_extract.
  rewrite !try_match_search.
  rewrite RegexFacts.search_fence_group1, RegexFacts.search_brace_group0.
  cbn [first_success attempt].
  destruct (try_loads json_loads s); [reflexivity|].
  destruct (attempt json_loads (fenced_interior s)); [reflexivity|].
  now destruct (attempt json_loads (brace_span s)).
Qed.


End ExtractorFacts.

Import Extractor ExtractorFacts.




(* ================================================================== *)
(** * Properties of the orchestrator *)
(* ================================================================== *)

Module OrchestratorFacts.
Import Orchestrator.

(** A wait that settles within the fuel returns the settled file and has
    made one [get_file] call per poll, and nothing else. *)
Lemma wait_settles (w : world) (i : nat) (f : file) (n : nat) (g : file) :
  settles w i f n g ->
  forall fuel log, (n <= fuel)%nat ->
  exists names,
    wait_while_processing w fuel i f log
      = Some (Ok g, (log ++ map GetFile names)%list).
Proof.
  induction 1 as [i f Hs | i f f' n g Hs Hg _ IH]; intros fuel log Hle.
  - exists []. rewrite app_nil_r.
    destruct fuel; cbn [wait_while_processing]; now rewrite Hs.
  - destruct fuel as [|fuel]; [lia|].
    destruct (IH fuel (log ++ [GetFile (name f)])%list) as (names & Hw); [lia|].
    exists (name f :: names). cbn [wait_while_processing].
    rewrite Hs, Hg, Hw. now rewrite <- app_assoc.
Qed.

Lemma not_generate_polls (path mime : string) (names : list string) :
  existsb is_generate ([Upload path mime] ++ map GetFile names) = false.
Proof. cbn. induction names; cbn; auto. Qed.

Lemma upload_fails (w : world) (fuel : nat) (path : string) :
  ingestion_fails w fuel path ->
  exists names,
    upload_video_to_gemini w fuel path []
    = Some (Raise (ValueError "Video processing failed: FAILED"),
            ([Upload path (mime_type_of path w)] ++ map GetFile names)%list).
Proof.
  intros (_ & f & n & g & Hup & Hs & Hle & Hg).
  destruct (wait_settles _ _ _ _ _ Hs fuel
              [Upload path (mime_type_of path w)] Hle) as (names & Hw).
  exists names. unfold upload_video_to_gemini. cbn [app].
  rewrite Hup. cbn [app] in Hw. rewrite Hw, Hg. reflexivity.
Qed.

Lemma upload_succeeds (w : world) (fuel : nat) (path text : string) :
  extracts w fuel path text ->
  exists g log,
    upload_video_to_gemini w fuel path [] = Some (Ok g, log) /\
    generate_content w g (analysis_prompt w) = Ok text.
Proof.
  intros (_ & f & n & g & Hup & Hs & Hle & Hg & Hgen).
  destruct (wait_settles _ _ _ _ _ Hs fuel
              [Upload path (mime_type_of path w)] Hle) as (names & Hw).
  exists g, ([Upload path (mime_type_of path w)] ++ map GetFile names)%list.
  split; [|exact Hgen].
  unfold upload_video_to_gemini. cbn [app].
  rewrite Hup. cbn [app] in Hw. rewrite Hw, Hg. reflexivity.
Qed.

(** Once the run reaches extraction, what is returned is decided by
    [finish] on the extracted value. *)
Lemma analyze_video_extracts (w : world) (fuel : nat) (path text : string)
    (use_cache : bool) :
  extracts w fuel path text ->
  exists log,
    analyze_video w fuel path use_cache =
    Some (match (result <- Extractor.parse_json_response (json_loads w) text ;;
                 finish result) with
          | Ok result => result
          | Raise e => analysis_failed (str w e)
          end, log).
Proof.
  intros H. pose proof H as (Hkey & _).
  destruct (upload_succeeds _ _ _ _ H) as (g & log & Hup & Hgen).
  unfold analyze_video, attempt, analyze_video_with_gemini.
  rewrite Hkey, Hup, Hgen. eauto.
Qed.

(** After a successful normalization the closing prints cannot raise. *)
Lemma report_after_validate (r r' : dict) :
  Normalizer.validate_and_enrich_response r = Ok r' ->
  report (add_metadata r') = Ok tt.
Proof.
  intros Hv. destruct (validate_inv _ _ Hv) as (oa1 & zl & Hoa & Hzl & Ht).
  unfold report, add_metadata.
  rewrite !dget_dset_other by discriminate.
  rewrite (truncate_lines_dget _ _ "overall_assessment" Ht) by discriminate.
  now rewrite dget_dset_same.
Qed.

Lemma finish_not_parse_error (d : dict) :
  is_parse_error d = false ->
  finish (VDict d) =
  if eq_False (get_or_none "pet_detected" d) then Ok (no_pet_result d)
  else
    match Normalizer.validate_and_enrich_response d with
    | Ok r => Ok (add_metadata r)
    | Raise e => Raise e
    end.
Proof.
  intros H. unfold finish. rewrite H.
  destruct (eq_False _); [reflexivity|].
  destruct (Normalizer.validate_and_enrich_response d) as [r|e] eqn:Hv;
    [|reflexivity].
  cbn [bind]. now rewrite (report_after_validate _ _ Hv).
Qed.

(** The polling of a concrete world, replayed. *)
Ltac replay_polls :=
  repeat first
    [ apply settles_now; reflexivity
    | eapply settles_poll; [reflexivity | reflexivity |] ].

(** [extracts] for a concrete world whose upload gives [f] and whose
    polling settles after [n] polls with [g]. *)
Ltac replay_extracts f n g :=
  split; [reflexivity|];
  exists f, n, g;
  split; [reflexivity|];
  split; [replay_polls | split; [lia | split; reflexivity]].

End OrchestratorFacts.

Import Orchestrator OrchestratorFacts.

(** C7. When the ingestion of the upload ends in the FAILED state, the
    orchestrator returns the [analysis_failed] result carrying the message
    of the fault raised by the upload step, and the log of remote calls
    holds no inference call. *)
Theorem failed_ingestion_is_analysis_failed (w : world) (fuel : nat)
    (video_path : string) (use_cache : bool) :
  ingestion_fails w fuel video_path ->
  exists log,
    analyze_video w fuel video_path use_cache =
      Some ([ ("error", VBool true);
              ("error_type", VStr "analysis_failed");
              ("message", VStr "Video processing failed: FAILED");
              ("_model_used", VStr "gemini-2.0-flash");
              ("_from_cache", VBool false) ], log) /\
    existsb is_generate log = false.
Proof.
  intros H. pose proof H as (Hkey & _).
  destruct (upload_fails _ _ _ H) as (names & Hup).
  exists ([Upload video_path (mime_type_of video_path w)]
            ++ map GetFile names)%list.
  split; [|apply not_generate_polls].
  unfold analyze_video, attempt. now rewrite Hkey, Hup.
Qed.

Lemma failed_ingestion_is_analysis_failed_witness :
  exists log,
    analyze_video (example_world ["PROCESSING"; "PROCESSING"; "FAILED"] "{}")
      5 "clip.mp4" true =
      Some ([ ("error", VBool true);
              ("error_type", VStr "analysis_failed");
              ("message", VStr "Video processing failed: FAILED");
              ("_model_used", VStr "gemini-2.0-flash");
              ("_from_cache", VBool false) ], log) /\
    existsb is_generate log = false.
Proof.
  apply failed_ingestion_is_analysis_failed.
  split; [reflexivity|].
  exists {| name := "files/video"; state := "PROCESSING" |}, 2%nat,
         {| name := "files/video"; state := "FAILED" |}.
  split; [reflexivity|].
  split; [replay_polls | split; [lia | reflexivity]].
Defined.

(** C8. The cache flag is never read: with the same world, fuel and path
    the orchestrator returns the same result and makes the same remote
    calls whether [use_cache] is true or false. *)
Theorem use_cache_inert (w : world) (fuel : nat) (video_path : string) :
  analyze_video w fuel video_path true = analyze_video w fuel video_path false.
Proof. reflexivity. Qed.

(** C6, as the code has it.  When the run reaches extraction, the
    extracted dict binds [pet_detected] to [False] and is not an in-band
    parse failure, the orchestrator returns the error result tagged
    [no_pet_detected], with the remote message when there is one and the
    fallback otherwise, the model name and the cache flag. *)
Theorem no_pet_short_circuit (w : world) (fuel : nat)
    (video_path response_text : string) (use_cache : bool) (d : dict) :
  extracts w fuel video_path response_text ->
  Extractor.parse_json_response (json_loads w) response_text = Ok (VDict d) ->
  dget "pet_detected" d = Some (VBool false) ->
  is_parse_error d = false ->
  exists log,
    analyze_video w fuel video_path use_cache =
      Some ([ ("error", VBool true);
              ("error_type", VStr "no_pet_detected");
              ("message", match dget "message" d with
                          | Some m => m
                          | None => VStr "No pet detected in video"
                          end);
              ("_model_used", VStr "gemini-2.0-flash");
              ("_from_cache", VBool false) ], log).
Proof.
  intros Hx Hp Hpet Hnpe.
  destruct (analyze_video_extracts _ _ _ _ use_cache Hx) as (log & Ha).
  exists log. rewrite Ha, Hp. cbn [bind].
  rewrite (finish_not_parse_error _ Hnpe).
  unfold get_or_none. now rewrite Hpet.
Qed.

Lemma no_pet_short_circuit_witness :
  exists log,
    analyze_video (example_world ["PROCESSING"; "ACTIVE"] Json.example_no_pet)
      3 "clip.mp4" true =
      Some ([ ("error", VBool true);
              ("error_type", VStr "no_pet_detected");
              ("message", VStr "Only a sofa");
              ("_model_used", VStr "gemini-2.0-flash");
              ("_from_cache", VBool false) ], log).
Proof.
  apply (no_pet_short_circuit
           (example_world ["PROCESSING"; "ACTIVE"] Json.example_no_pet)
           3 "clip.mp4" Json.example_no_pet true
           [("pet_detected", VBool false); ("message", VStr "Only a sofa")]).
  - replay_extracts {| name := "files/video"; state := "PROCESSING" |} 1%nat
                     {| name := "files/video"; state := "ACTIVE" |}.
  - vm_compute. reflexivity.
  - reflexivity.
  - reflexivity.
Defined.

(** C6 as the specification words it fails on the tag: for an extracted
    dict that only says [pet_detected: false] the result is tagged
    [no_pet_detected], not [no_subject_detected].  It also fails when the
    dict is an in-band parse failure: that check comes first and the dict
    itself is returned, tagged [parse_error]. *)
Lemma no_pet_short_circuit_counterexample :
  (Extractor.parse_json_response Json.loads Json.example_no_pet_bare
     = Ok (VDict [("pet_detected", VBool false)]) /\
   exists r log,
     analyze_video (example_world ["ACTIVE"] Json.example_no_pet_bare)
       0 "clip.mp4" true = Some (r, log) /\
     dget "error_type" r = Some (VStr "no_pet_detected") /\
     dget "error_type" r <> Some (VStr "no_subject_detected")) /\
  (Extractor.parse_json_response Json.loads Json.example_in_band
     = Ok (VDict [ ("error", VBool true); ("error_type", VStr "parse_error");
                   ("pet_detected", VBool false) ]) /\
   exists log,
     analyze_video (example_world ["ACTIVE"] Json.example_in_band)
       0 "clip.mp4" true =
     Some ([ ("error", VBool true); ("error_type", VStr "parse_error");
             ("pet_detected", VBool false) ], log)).
Proof.
  split; split.
  - vm_compute. reflexivity.
  - eexists. eexists. split; [vm_compute; reflexivity|].
    split; [reflexivity | discriminate].
  - vm_compute. reflexivity.
  - eexists. vm_compute. reflexivity.
Qed.

(** C10. The parse-failure signal is in-band.  When the run reaches
    extraction and the extracted dict binds [error] to a truthy value:
    with [error_type] equal to ["parse_error"] the orchestrator returns
    that dict as it is, without normalizing it; with any other
    [error_type], or none, it goes on to the pet check and, unless that
    short-circuits, to the normalizer and the metadata (or to
    [analysis_failed] when the normalizer raises). *)
Theorem in_band_parse_failure (w : world) (fuel : nat)
    (video_path response_text : string) (use_cache : bool) (d : dict)
    (e : value) :
  extracts w fuel video_path response_text ->
  Extractor.parse_json_response (json_loads w) response_text = Ok (VDict d) ->
  dget "error" d = Some e -> truthy e = true ->
  (dget "error_type" d = Some (VStr "parse_error") ->
   exists log, analyze_video w fuel video_path use_cache = Some (d, log)) /\
  (dget "error_type" d <> Some (VStr "parse_error") ->
   exists log,
     analyze_video w fuel video_path use_cache =
     Some (if eq_False (get_or_none "pet_detected" d) then no_pet_result d
           else match Normalizer.validate_and_enrich_response d with
                | Ok r => add_metadata r
                | Raise x => analysis_failed (str w x)
                end, log)).
Proof.
  intros Hx Hp He Ht.
  destruct (analyze_video_extracts _ _ _ _ use_cache Hx) as (log & Ha).
  rewrite Hp in Ha. cbn [bind] in Ha.
  split; intros Hty; exists log; rewrite Ha.
  - unfold finish, is_parse_error, get_or_none. now rewrite He, Ht, Hty.
  - assert (Hnpe : is_parse_error d = false).
    { unfold is_parse_error, get_or_none. rewrite He, Ht. cbn [andb].
      destruct (dget "error_type" d) as [t|]; [|reflexivity].
      destruct t; try reflexivity. cbn [eq_str].
      destruct (String.eqb_spec s "parse_error") as [->|]; [|reflexivity].
      now contradiction Hty. }
    rewrite (finish_not_parse_error _ Hnpe).
    destruct (eq_False _); [reflexivity|].
    now destruct (Normalizer.validate_and_enrich_response d).
Qed.

Lemma in_band_parse_failure_witness :
  (exists log,
     analyze_video (example_world ["PROCESSING"; "ACTIVE"] Json.example_in_band)
       3 "clip.mp4" true =
     Some ([ ("error", VBool true); ("error_type", VStr "parse_error");
             ("pet_detected", VBool false) ], log)) /\
  (exists r log,
     analyze_video
       (example_world ["PROCESSING"; "ACTIVE"] Json.example_other_error)
       3 "clip.mp4" true = Some (r, log) /\
     dget "error_type" r = Some (VStr "quota") /\
     dget "species" r = Some (VStr "dog") /\
     dget "timeline" r = Some (VList []) /\
     dget "_analysis_version" r = Some (VStr "etho-v13-gemini")).
Proof.
  split.
  - destruct (in_band_parse_failure
                (example_world ["PROCESSING"; "ACTIVE"] Json.example_in_band)
                3 "clip.mp4" Json.example_in_band true
                [ ("error", VBool true); ("error_type", VStr "parse_error");
                  ("pet_detected", VBool false) ] (VBool true))
      as [Hsame _].
    + replay_extracts {| name := "files/video"; state := "PROCESSING" |} 1%nat
                       {| name := "files/video"; state := "ACTIVE" |}.
    + vm_compute. reflexivity.
    + reflexivity.
    + reflexivity.
    + apply Hsame. reflexivity.
  - destruct (in_band_parse_failure
                (example_world ["PROCESSING"; "ACTIVE"] Json.example_other_error)
                3 "clip.mp4" Json.example_other_error true
                [ ("error", VBool true); ("error_type", VStr "quota");
                  ("species", VStr "dog") ] (VBool true))
      as [_ Hother].
    + replay_extracts {| name := "files/video"; state := "PROCESSING" |} 1%nat
                       {| name := "files/video"; state := "ACTIVE" |}.
    + vm_compute. reflexivity.
    + reflexivity.
    + reflexivity.
    + destruct Hother as (log & Hlog); [discriminate|].
      eexists. exists log. split; [exact Hlog|].
      repeat split; reflexivity.
Defined.


(* ================================================================== *)
(** * Further properties of the normalizer *)
(* ================================================================== *)

Module NormalizerMore.
Import Normalizer DictFacts MergeFacts NormalizerFacts NormalizerSteps
  NormalizerLines TextFacts.

Lemma le_int_score_le (s : value) (z : Z) (b : bool) :
  le_int s z = Ok b -> (b = true <-> score_le s z).
Proof.
  destruct s; simpl; try discriminate; intros [= <-].
  - apply Z.leb_le.
  - apply Z.leb_le.
  - reflexivity.
Qed.

(** The pair the zone step assigns, with the side of each threshold the
    score is on. *)
Lemma zone_of_score_cases (s : value) (zl : string * string) :
  zone_of_score s = Ok zl ->
  (zl = ("green", "LOW") /\ score_le s 33) \/
  (zl = ("yellow", "MODERATE") /\ ~ score_le s 33 /\ score_le s 66) \/
  (zl = ("red", "ELEVATED") /\ ~ score_le s 33 /\ ~ score_le s 66).
Proof.
  unfold zone_of_score.
  destruct (le_int s 33) as [low|] eqn:H33; simpl; [|discriminate].
  pose proof (le_int_score_le _ _ _ H33) as L33.
  destruct low.
  - intros [= <-]. left. split; [reflexivity | now apply L33].
  - assert (N33 : ~ score_le s 33) by (intros H; apply L33 in H; discriminate).
    destruct (le_int s 66) as [mid|] eqn:H66; simpl; [|discriminate].
    pose proof (le_int_score_le _ _ _ H66) as L66.
    destruct mid; intros [= <-]; right.
    + left. repeat split; [assumption | now apply L66].
    + right. repeat split; [assumption|].
      intros H; apply L66 in H; discriminate.
Qed.

(** The three steps keep the keys of the merged result. *)
Lemma keys_dset_present (k : string) (v : value) (d : dict) :
  dmem k d = true -> keys (dset k v d) = keys d.
Proof. intros H. now rewrite keys_dset, H. Qed.

Lemma truncate_lines_keys (r2 r3 : dict) :
  truncate_lines r2 = Ok r3 -> keys r3 = keys r2.
Proof.
  unfold truncate_lines.
  destruct (dget "interpret_lines" r2) as [c|] eqn:Hc.
  - destruct c; try discriminate.
    + destruct (for_each _ _); simpl; [|discriminate]. now intros [= <-].
    + destruct (for_each _ _); simpl; [|discriminate]. intros [= <-].
      apply keys_dset_present, dmem_true. eauto.
    + destruct (for_each _ _); simpl; [|discriminate]. now intros [= <-].
  - now intros [= <-].
Qed.

Lemma validate_keys (r r' : dict) :
  validate_and_enrich_response r = Ok r' -> keys r' = keys (merge_defaults r).
Proof.
  intros Hv. destruct (validate_inv _ _ Hv) as (oa1 & zl & Hoa & Hzl & Ht).
  rewrite (truncate_lines_keys _ _ Ht).
  apply keys_dset_present, dmem_true. eauto.
Qed.

(** A key the merge has nothing to back-fill under keeps its value. *)
Lemma merge_defaults_same (r : dict) (k : string) (v : value) :
  dget k r = Some v ->
  is_dict v = false \/ (forall d, dget k defaults <> Some (VDict d)) ->
  dget k (merge_defaults r) = Some v.
Proof.
  intros Hk [Hd|Hd]; [now apply merge_defaults_keeps|].
  unfold merge_defaults. rewrite dget_merge_with by apply NoDup_defaults.
  rewrite Hk. destruct (dget k defaults) as [dv|]; [|reflexivity].
  unfold merged_value. destruct dv; try reflexivity.
  now contradiction (Hd d).
Qed.

Lemma for_each_In (f : value -> outcome value) (l l' : list value) (y : value) :
  for_each f l = Ok l' -> In y l' -> exists x, In x l /\ f x = Ok y.
Proof.
  revert l'. induction l as [|x0 l IH]; intros l'; simpl.
  - intros [= <-] [].
  - destruct (f x0) as [y0|] eqn:Hx; simpl; [|discriminate].
    destruct (for_each f l) as [ys|]; simpl; [|discriminate].
    intros [= <-] [<-|Hin].
    + exists x0. auto.
    + destruct (IH ys eq_refl Hin) as (x & Hx' & Hfx). exists x. auto.
Qed.

Lemma capped_short (text : string) :
  (List.length (Text.split (capped text)) <= 6)%nat.
Proof.
  unfold capped. destruct (6 <? _)%nat eqn:E.
  - rewrite split_join_firstn. apply length_firstn_le.
  - now apply Nat.ltb_ge.
Qed.

(** The text of a dict line that left the loop is capped. *)
Lemma truncate_line_short (x : value) (d : dict) (text : string) :
  truncate_line x = Ok (VDict d) -> dget fpi d = Some (VStr text) ->
  (List.length (Text.split text) <= 6)%nat.
Proof.
  destruct x as [| b | n | f | s | l | d0]; try (simpl; discriminate).
  - simpl. destruct (Text.occurs fpi s); discriminate.
  - simpl. destruct (existsb _ l); discriminate.
  - destruct (dget fpi d0) as [c|] eqn:Hc.
    + destruct c; try (unfold truncate_line; rewrite Hc; discriminate).
      rewrite (truncate_line_dict _ _ Hc). intros [= <-].
      rewrite dget_dset_same. intros [= <-]. apply capped_short.
    + unfold truncate_line. rewrite Hc. intros [= <-]. congruence.
Qed.

Lemma dget_None_keys_not (k : string) (d : dict) :
  dget k d <> None -> In k (keys d).
Proof.
  intros H. destruct (in_dec string_dec k (keys d)) as [Hin|Hnot];
    [assumption|].
  apply dget_None_keys in Hnot. contradiction.
Qed.

End NormalizerMore.

Import NormalizerMore.

(** X1. The zone step decides on the two comparisons alone.  Whenever the
    normalizer returns, the score is numeric and exactly one of three
    cases holds: score <= 33 with green/LOW; score above 33 and <= 66 with
    yellow/MODERATE; or neither comparison true with red/ELEVATED.  So a
    fractional score such as 33.5 is yellow, 66.5 is red, and a NaN, for
    which every comparison is false, is red. *)
Theorem zone_exact_thresholds (r r' : dict) :
  validate_and_enrich_response r = Ok r' ->
  exists oa',
    dget "overall_assessment" r' = Some (VDict oa') /\
    numeric (input_score r) = true /\
    ((dget "zone" oa' = Some (VStr "green") /\
      dget "zone_label" oa' = Some (VStr "LOW") /\
      score_le (input_score r) 33) \/
     (dget "zone" oa' = Some (VStr "yellow") /\
      dget "zone_label" oa' = Some (VStr "MODERATE") /\
      ~ score_le (input_score r) 33 /\ score_le (input_score r) 66) \/
     (dget "zone" oa' = Some (VStr "red") /\
      dget "zone_label" oa' = Some (VStr "ELEVATED") /\
      ~ score_le (input_score r) 33 /\ ~ score_le (input_score r) 66)).
Proof.
  intros Hv. destruct (validate_inv _ _ Hv) as (oa1 & zl & Hoa & Hzl & Ht).
  exists (with_zone zl oa1).
  pose proof (merged_score _ _ Hoa) as Hs.
  assert (Hso : score_of oa1 = input_score r)
    by (unfold score_of; now rewrite Hs).
  rewrite Hso in Hzl.
  split.
  { rewrite (truncate_lines_dget _ _ "overall_assessment" Ht) by discriminate.
    apply dget_dset_same. }
  split.
  { destruct (numeric (input_score r)) eqn:Hn; [reflexivity|].
    rewrite (zone_of_score_not_numeric _ Hn) in Hzl. discriminate. }
  rewrite dget_zone_with_zone, dget_label_with_zone.
  destruct (zone_of_score_cases _ _ Hzl) as [[-> H]|[(-> & H1 & H2)|(-> & H1 & H2)]].
  - left. auto.
  - right. left. auto.
  - right. right. auto.
Qed.

Lemma zone_exact_thresholds_witness :
  (exists r' oa',
     validate_and_enrich_response
       [("overall_assessment",
         VDict [("distress_score", VFloat (FFinite false 67 (-1)))])] = Ok r' /\
     dget "overall_assessment" r' = Some (VDict oa') /\
     dget "zone" oa' = Some (VStr "yellow")) /\
  (exists r' oa',
     validate_and_enrich_response
       [("overall_assessment", VDict [("distress_score", VFloat FNan)])]
       = Ok r' /\
     dget "overall_assessment" r' = Some (VDict oa') /\
     dget "zone" oa' = Some (VStr "red")).
Proof.
  split.
  - eexists.
    destruct (zone_exact_thresholds
                [("overall_assessment",
                  VDict [("distress_score", VFloat (FFinite false 67 (-1)))])]
                _ eq_refl) as (oa' & Hoa & _ & Hcase).
    exists oa'. split; [reflexivity|]. split; [exact Hoa|].
    destruct Hcase as [(_ & _ & H)|[(Hz & _)|(_ & _ & _ & H)]].
    + vm_compute in H. discriminate.
    + exact Hz.
    + exfalso. apply H. vm_compute. reflexivity.
  - eexists.
    destruct (zone_exact_thresholds
                [("overall_assessment", VDict [("distress_score", VFloat FNan)])]
                _ eq_refl) as (oa' & Hoa & _ & Hcase).
    exists oa'. split; [reflexivity|]. split; [exact Hoa|].
    destruct Hcase as [(_ & _ & H)|[(_ & _ & _ & H)|(Hz & _)]].
    + vm_compute in H. discriminate.
    + vm_compute in H. discriminate.
    + exact Hz.
Defined.

(** X2. Whenever the normalizer returns, the result has the input's keys
    in their input order, followed by the canonical keys the input
    lacked, in the order of the defaults; so every canonical key is
    bound, and no key of the input is lost. *)
Theorem normalizer_keys (r r' : dict) :
  validate_and_enrich_response r = Ok r' ->
  keys r' = (keys r ++ filter (fun k => negb (dmem k r)) (keys defaults))%list /\
  (forall k, In k (keys defaults) -> dmem k r' = true) /\
  (forall k, dmem k r = true -> dmem k r' = true).
Proof.
  intros Hv.
  assert (Hk : keys r' =
               (keys r ++ filter (fun k => negb (dmem k r)) (keys defaults))%list).
  { rewrite (validate_keys _ _ Hv). apply keys_merge_with, NoDup_defaults. }
  split; [exact Hk|]. split; intros k Hin.
  - apply dmem_self. rewrite Hk. apply in_or_app.
    destruct (dmem k r) eqn:Hm.
    + left. apply dmem_true in Hm as [v Hv']. apply dget_None_keys_not.
      congruence.
    + right. apply filter_In. split; [assumption | now rewrite Hm].
  - apply dmem_self. rewrite Hk. apply in_or_app. left.
    apply dmem_true in Hin as [v Hv']. apply dget_None_keys_not. congruence.
Qed.

Lemma normalizer_keys_witness :
  exists r',
    validate_and_enrich_response
      [("note", VStr "kept"); ("timeline", VList [VInt 1]);
       ("species", VStr "cat")] = Ok r' /\
    keys r' =
      [ "note"; "timeline"; "species"; "pet_detected"; "breed_detected";
        "morphology_type"; "morphology_adjustments_applied"; "video_type";
        "video_context"; "overall_assessment"; "visual_analysis";
        "audio_analysis"; "interpret_lines"; "advisory" ].
Proof.
  eexists. split; [reflexivity|].
  apply (proj1 (normalizer_keys
                  [("note", VStr "kept"); ("timeline", VList [VInt 1]);
                   ("species", VStr "cat")] _ eq_refl)).
Defined.

(** X3. The normalizer passes through what it has no rule for.  Apart
    from [overall_assessment] and [interpret_lines], a key of the input
    keeps its value in the result when the value is not a dict or the key
    has no dict default: unknown keys, scalars, and lists such as
    [timeline], whose entries keep their own scores and zones. *)
Theorem normalizer_pass_through (r r' : dict) (k : string) (v : value) :
  validate_and_enrich_response r = Ok r' ->
  dget k r = Some v ->
  k <> "overall_assessment" -> k <> "interpret_lines" ->
  is_dict v = false \/ (forall d, dget k defaults <> Some (VDict d)) ->
  dget k r' = Some v.
Proof.
  intros Hv Hk Hoa Hil Hd.
  destruct (validate_inv _ _ Hv) as (oa1 & zl & _ & _ & Ht).
  rewrite (truncate_lines_dget _ _ _ Ht Hil).
  rewrite dget_dset_other by assumption.
  now apply merge_defaults_same.
Qed.

Lemma normalizer_pass_through_witness :
  exists r',
    validate_and_enrich_response
      [("timeline",
        VList [VDict [("distress_score", VInt 90); ("zone", VStr "green")]]);
       ("debug", VDict [("raw", VNone)])] = Ok r' /\
    dget "timeline" r' =
      Some (VList [VDict [("distress_score", VInt 90); ("zone", VStr "green")]]) /\
    dget "debug" r' = Some (VDict [("raw", VNone)]).
Proof.
  eexists. split; [reflexivity|]. split.
  - apply (normalizer_pass_through
             [("timeline",
               VList [VDict [("distress_score", VInt 90); ("zone", VStr "green")]]);
              ("debug", VDict [("raw", VNone)])] _ "timeline" _ eq_refl eq_refl);
      [discriminate | discriminate | left; reflexivity].
  - apply (normalizer_pass_through
             [("timeline",
               VList [VDict [("distress_score", VInt 90); ("zone", VStr "green")]]);
              ("debug", VDict [("raw", VNone)])] _ "debug" _ eq_refl eq_refl);
      [discriminate | discriminate | right; intros d; discriminate].
Defined.

(** X4. In [overall_assessment] the zone step writes [zone] and
    [zone_label] and nothing else: every other sub-key of the result
    holds the input's value when the input binds it, and the default's
    otherwise. *)
Theorem assessment_other_fields (r r' oa : dict) :
  validate_and_enrich_response r = Ok r' ->
  dget "overall_assessment" r = Some (VDict oa) ->
  exists oa',
    dget "overall_assessment" r' = Some (VDict oa') /\
    forall sk, sk <> "zone" -> sk <> "zone_label" ->
      dget sk oa' =
      match dget sk oa with
      | Some v => Some v
      | None => dget sk default_overall_assessment
      end.
Proof.
  intros Hv Hoa.
  destruct (validate_inv _ _ Hv) as (oa1 & zl & Hm & _ & Ht).
  exists (with_zone zl oa1). split.
  { rewrite (truncate_lines_dget _ _ "overall_assessment" Ht) by discriminate.
    apply dget_dset_same. }
  intros sk Hz Hl. rewrite dget_with_zone_other by assumption.
  rewrite (merged_assessment _ _ Hm), Hoa. apply dget_backfill.
Qed.

Lemma assessment_other_fields_witness :
  exists r' oa',
    validate_and_enrich_response
      [("overall_assessment",
        VDict [("summary", VStr "Tense near the door");
               ("distress_score", VInt 70)])] = Ok r' /\
    dget "overall_assessment" r' = Some (VDict oa') /\
    dget "summary" oa' = Some (VStr "Tense near the door") /\
    dget "confidence" oa' = Some (VStr "medium").
Proof.
  eexists.
  destruct (assessment_other_fields
              [("overall_assessment",
                VDict [("summary", VStr "Tense near the door");
                       ("distress_score", VInt 70)])] _ _ eq_refl eq_refl)
    as (oa' & Hoa & Hsk).
  exists oa'. split; [reflexivity|]. split; [exact Hoa|]. split.
  - rewrite Hsk by discriminate. reflexivity.
  - rewrite Hsk by discriminate. reflexivity.
Defined.

(** X5. Whenever the normalizer returns a list under [interpret_lines],
    every dict in it whose first-person text is a string has at most six
    words there. *)
Theorem interpretation_lines_short (r r' : dict) (lines' : list value)
    (d : dict) (text : string) :
  validate_and_enrich_response r = Ok r' ->
  dget "interpret_lines" r' = Some (VList lines') ->
  In (VDict d) lines' ->
  dget fpi d = Some (VStr text) ->
  (List.length (Text.split text) <= 6)%nat.
Proof.
  intros Hv Hl Hin Hd.
  destruct (validate_inv _ _ Hv) as (oa1 & zl & _ & _ & Ht).
  revert Ht Hl.
  set (r2 := dset "overall_assessment" (VDict (with_zone zl oa1))
               (merge_defaults r)).
  unfold truncate_lines.
  destruct (dget "interpret_lines" r2) as [c|] eqn:Hc.
  - destruct c; try discriminate.
    + destruct (for_each _ _); simpl; [|discriminate].
      intros [= <-]. congruence.
    + destruct (for_each truncate_line l) as [l'|] eqn:Hfe; simpl;
        [|discriminate].
      intros [= <-]. rewrite dget_dset_same. intros [= <-].
      destruct (for_each_In _ _ _ _ Hfe Hin) as (x & _ & Hx).
      exact (truncate_line_short _ _ _ Hx Hd).
    + destruct (for_each _ _); simpl; [|discriminate].
      intros [= <-]. congruence.
  - intros [= <-]. congruence.
Qed.

Lemma interpretation_lines_short_witness :
  exists r' d text,
    validate_and_enrich_response
      [("interpret_lines",
        VList [VDict [(fpi, VStr "Why is the big dog still staring at me")]])]
      = Ok r' /\
    dget "interpret_lines" r' = Some (VList [VDict d]) /\
    dget fpi d = Some (VStr text) /\
    (List.length (Text.split text) <= 6)%nat.
Proof.
  eexists. eexists. eexists.
  split; [reflexivity|]. split; [reflexivity|]. split; [reflexivity|].
  apply (interpretation_lines_short
           [("interpret_lines",
             VList [VDict [(fpi, VStr "Why is the big dog still staring at me")]])]
           _ _ _ _ eq_refl eq_refl (or_introl eq_refl) eq_refl).
Defined.


(* ================================================================== *)
(** * Further properties of the extractor *)
(* ================================================================== *)

Module ExtractorMore.
Import Regex Extractor RegexFacts.

(** ** The brace span, as a decomposition of the text *)

Lemma rfind_split (rest : string) (j : nat) :
  rfind "}" rest = Some j ->
  exists mid post,
    rest = mid ++ String "}" post /\
    rfind "}" post = None /\
    substring 0 (j + 1) rest = mid ++ "}".
Proof.
  revert j. induction rest as [|b rest IH]; intros j; [discriminate|].
  cbn [rfind]. destruct (rfind "}" rest) as [j'|] eqn:Hr.
  - intros [= <-]. destruct (IH j' eq_refl) as (mid & post & -> & Hp & Hs).
    exists (String b mid), post. cbn [append]. repeat split; [assumption|].
    change (S j' + 1)%nat with (S (j' + 1)). cbn [substring]. now rewrite Hs.
  - destruct (Ascii.eqb_spec "}" b) as [<-|]; [|discriminate].
    intros [= <-]. exists "", rest. repeat split; [assumption|].
    cbn. now destruct rest.
Qed.

Lemma rfind_append (mid post : string) :
  rfind "}" post = None ->
  rfind "}" (mid ++ String "}" post) = Some (String.length mid).
Proof.
  intros Hp. induction mid as [|b mid IH]; cbn [append rfind String.length].
  - now rewrite Hp.
  - now rewrite IH.
Qed.

Lemma substring_append (mid post : string) (c : ascii) :
  substring 0 (String.length mid + 1) (mid ++ String c post) = mid ++ String c "".
Proof.
  induction mid as [|b mid IH]; cbn [append String.length].
  - cbn. now destruct post.
  - change (S (String.length mid) + 1)%nat with (S (String.length mid + 1)).
    cbn [substring]. now rewrite IH.
Qed.

Lemma find_open_cons (a : ascii) (s : string) :
  find "{" (String a s) =
  if Ascii.eqb "{" a then Some 0%nat else option_map S (find "{" s).
Proof. cbn [find]. now rewrite prefix_open. Qed.

Lemma brace_span_cons (a : ascii) (s : string) :
  Ascii.eqb "{" a = false -> brace_span (String a s) = brace_span s.
Proof.
  intros Ha. unfold brace_span. rewrite find_open_cons, Ha. cbn [rfind].
  destruct (find "{" s) as [i|]; [|reflexivity]. cbn [option_map].
  destruct (rfind "}" s) as [j|].
  - change (S i <? S j)%nat with (i <? j)%nat.
    destruct (i <? j)%nat eqn:Hij; [|reflexivity].
    apply Nat.ltb_lt in Hij.
    replace (S j + 1 - S i)%nat with (j + 1 - i)%nat by lia.
    reflexivity.
  - now destruct (Ascii.eqb "}" a).
Qed.

Lemma brace_span_decompose (s t : string) :
  brace_span s = Some t <->
  exists pre mid post,
    s = pre ++ String "{" (mid ++ String "}" post) /\
    t = String "{" (mid ++ "}") /\
    find "{" pre = None /\
    rfind "}" post = None.
Proof.
  split.
  - revert t. induction s as [|a s IH]; intros t; [discriminate|].
    destruct (Ascii.eqb_spec "{" a) as [<-|Hne].
    + unfold brace_span. rewrite find_open_cons. cbn [Ascii.eqb rfind].
      change (Ascii.eqb "{" "{") with true. cbv iota.
      destruct (rfind "}" s) as [j|] eqn:Hr; [|discriminate].
      change (0 <? S j)%nat with true. cbv iota.
      replace (S j + 1 - 0)%nat with (S (j + 1)) by lia. cbn [substring].
      intros [= <-].
      destruct (rfind_split _ _ Hr) as (mid & post & -> & Hp & Hs).
      exists "", mid, post. rewrite Hs. repeat split; assumption.
    + apply Ascii.eqb_neq in Hne. rewrite (brace_span_cons _ _ Hne).
      intros H. destruct (IH _ H) as (pre & mid & post & -> & -> & Hpre & Hp).
      exists (String a pre), mid, post. repeat split; [|assumption].
      rewrite find_open_cons, Hne, Hpre. reflexivity.
  - intros (pre & mid & post & -> & -> & Hpre & Hp).
    induction pre as [|a pre IH]; cbn [append].
    + unfold brace_span. rewrite find_open_cons.
      change (Ascii.eqb "{" "{") with true. cbv iota. cbn [rfind].
      rewrite (rfind_append _ _ Hp).
      change (0 <? S (String.length mid))%nat with true. cbv iota.
      replace (S (String.length mid) + 1 - 0)%nat
        with (S (String.length mid + 1)) by lia.
      cbn [substring]. now rewrite substring_append.
    + rewrite find_open_cons in Hpre.
      destruct (Ascii.eqb "{" a) eqn:Ha; [discriminate|].
      rewrite (brace_span_cons _ _ Ha). apply IH.
      now destruct (find "{" pre).
Qed.

(** ** The fenced interior is trimmed and holds no fence *)

Lemma ws_run_drop (x : string) : ws_run (drop (ws_run x) x) = 0%nat.
Proof.
  induction x as [|a x IH]; [reflexivity|]. cbn [ws_run].
  destruct (Text.isspace a) eqn:Ha; cbn [drop]; [exact IH|].
  cbn [ws_run]. now rewrite Ha.
Qed.

Lemma ws_run_take_zero (r : nat) (b : string) :
  ws_run b = 0%nat -> ws_run (Text.take r b) = 0%nat.
Proof.
  destruct b as [|a b]; [now rewrite take_nil|]. cbn [ws_run].
  destruct (Text.isspace a) eqn:Ha; [discriminate|]. intros _.
  destruct r as [|r]; [reflexivity|]. rewrite take_cons. cbn [ws_run].
  now rewrite Ha.
Qed.

Lemma take_zero (s : string) : Text.take 0 s = "".
Proof. now destruct s. Qed.

Lemma rstrip_len_fixed (u : string) :
  rstrip_len (Text.take (rstrip_len u) u) = rstrip_len u.
Proof.
  induction u as [|a u IH]; [reflexivity|]. cbn [rstrip_len].
  destruct (rstrip_len u) as [|n] eqn:Hn.
  - destruct (Text.isspace a) eqn:Ha.
    + now rewrite take_zero.
    + rewrite take_cons, take_zero. cbn [rstrip_len]. now rewrite Ha.
  - rewrite take_cons. cbn [rstrip_len]. now rewrite IH.
Qed.

Lemma take_rstrip_len (u : string) :
  Text.take (rstrip_len (Text.take (rstrip_len u) u)) (Text.take (rstrip_len u) u)
  = Text.take (rstrip_len u) u.
Proof. rewrite rstrip_len_fixed. now apply take_take. Qed.

Lemma prefix_take (p : string) (r : nat) (b : string) :
  prefix p (Text.take r b) = true -> prefix p b = true.
Proof.
  revert r b. induction p as [|c p IH]; intros r b; [now destruct b|].
  destruct b as [|a b]; [now rewrite take_nil|].
  destruct r as [|r]; [discriminate|]. rewrite take_cons, !prefix_cons.
  intros H. apply andb_prop in H as [-> H]. now rewrite (IH _ _ H).
Qed.

Lemma find_fence_take (b : string) (k r : nat) :
  find fence b = Some k -> (r <= k)%nat -> find fence (Text.take r b) = None.
Proof.
  revert k r. induction b as [|a b IH]; intros k r; [discriminate|].
  destruct (prefix fence (String a b)) eqn:Hp.
  - rewrite (find_here _ _ Hp). intros [= <-] Hr.
    replace r with 0%nat by lia. reflexivity.
  - rewrite (find_cons _ _ _ Hp).
    destruct (find fence b) as [k'|] eqn:Hf; [|discriminate].
    intros [= <-] Hr. destruct r as [|r]; [reflexivity|].
    rewrite take_cons.
    assert (Hp' : prefix fence (String a (Text.take r b)) = false).
    { destruct (prefix fence (String a (Text.take r b))) eqn:E; [|reflexivity].
      rewrite <- take_cons in E. apply prefix_take in E. congruence. }
    rewrite (find_cons _ _ _ Hp'), (IH k' r eq_refl); [reflexivity | lia].
Qed.

Lemma fenced_interior_shape (s t : string) :
  fenced_interior s = Some t -> strip t = t /\ find fence t = None.
Proof.
  unfold fenced_interior.
  destruct (find fence s) as [i|]; [|discriminate]. cbv zeta.
  set (tagged := if prefix "json" (drop (i + 3) s)
                 then drop 4 (drop (i + 3) s) else drop (i + 3) s).
  rewrite (find_fence_ws_run tagged).
  destruct (find fence (drop (ws_run tagged) tagged)) as [k|] eqn:Hk;
    [|discriminate].
  cbn [option_map]. intros [= <-]. rewrite strip_take.
  set (body := drop (ws_run tagged) tagged) in *.
  split.
  - unfold strip.
    assert (Hw : ws_run (Text.take (rstrip_len (Text.take k body)) body) = 0%nat)
      by (apply ws_run_take_zero, ws_run_drop).
    rewrite Hw. cbn [drop].
    rewrite <- (take_take (rstrip_len (Text.take k body)) k body)
      by apply rstrip_len_take.
    apply take_rstrip_len.
  - apply (find_fence_take _ k); [assumption | apply rstrip_len_take].
Qed.

End ExtractorMore.

Import ExtractorMore.

(** X6. The text the third strategy hands to [json.loads] is exactly the
    part of the response from its first opening brace to its last closing
    brace: the search succeeds with [t] if and only if the response splits
    into a part without an opening brace, then [t], which opens and closes
    with a brace, then a part without a closing brace. *)
Theorem brace_search_decomposes (s t : string) :
  option_map (fun m => Regex.group0 m s) (Regex.search Regex.brace_re s) = Some t
  <->
  exists pre mid post,
    s = pre ++ String "{" (mid ++ String "}" post) /\
    t = String "{" (mid ++ "}") /\
    find "{" pre = None /\
    rfind "}" post = None.
Proof. rewrite RegexFacts.search_brace_group0. apply brace_span_decompose. Qed.

Lemma brace_search_decomposes_witness :
  option_map (fun m => Regex.group0 m "Sure: {x} and {y} done")
    (Regex.search Regex.brace_re "Sure: {x} and {y} done")
  = Some "{x} and {y}".
Proof.
  apply (proj2 (brace_search_decomposes "Sure: {x} and {y} done" "{x} and {y}")).
  exists "Sure: ", "x} and {y", " done". repeat split; reflexivity.
Defined.

(** X7. The text the second strategy hands to [json.loads] is already
    stripped of surrounding whitespace and holds no fence. *)
Theorem fence_search_trimmed (s t : string) :
  option_map (fun m => Regex.group1 m s) (Regex.search Regex.fence_re s) = Some t ->
  strip t = t /\ find Regex.fence t = None.
Proof. rewrite RegexFacts.search_fence_group1. apply fenced_interior_shape. Qed.

Lemma fence_search_trimmed_witness :
  option_map (fun m => Regex.group1 m "a ``` x y  ``` b ``` c")
    (Regex.search Regex.fence_re "a ``` x y  ``` b ``` c") = Some "x y" /\
  strip "x y" = "x y" /\ find Regex.fence "x y" = None.
Proof.
  split; [reflexivity|].
  apply (fence_search_trimmed "a ``` x y  ``` b ``` c" "x y"). reflexivity.
Defined.


(* ================================================================== *)
(** * Further properties of the orchestrator *)
(* ================================================================== *)

Module OrchestratorMore.
Import Orchestrator OrchestratorFacts Runs.

Lemma wait_settles_count (w : world) (i : nat) (f : file) (n : nat) (g : file) :
  settles w i f n g ->
  forall fuel log, (n <= fuel)%nat ->
  exists names,
    List.length names = n /\
    wait_while_processing w fuel i f log
      = Some (Ok g, (log ++ map GetFile names)%list).
Proof.
  induction 1 as [i f Hs | i f f' n g Hs Hg _ IH]; intros fuel log Hle.
  - exists []. split; [reflexivity|]. rewrite app_nil_r.
    destruct fuel; cbn [wait_while_processing]; now rewrite Hs.
  - destruct fuel as [|fuel]; [lia|].
    destruct (IH fuel (log ++ [GetFile (name f)])%list) as (names & Hn & Hw);
      [lia|].
    exists (name f :: names). split; [cbn; now rewrite Hn|].
    cbn [wait_while_processing]. rewrite Hs, Hg, Hw. now rewrite <- app_assoc.
Qed.

Lemma wait_raises (w : world) (i : nat) (f : file) (n : nat) (e : exn) :
  poll_raises w i f n e ->
  forall fuel log, (n <= fuel)%nat ->
  exists names,
    List.length names = n /\
    wait_while_processing w fuel i f log
      = Some (Raise e, (log ++ map GetFile names)%list).
Proof.
  induction 1 as [i f e Hs Hg | i f f' n e Hs Hg _ IH]; intros fuel log Hle.
  - destruct fuel as [|fuel]; [lia|]. exists [name f]. split; [reflexivity|].
    cbn [wait_while_processing]. now rewrite Hs, Hg.
  - destruct fuel as [|fuel]; [lia|].
    destruct (IH fuel (log ++ [GetFile (name f)])%list) as (names & Hn & Hw);
      [lia|].
    exists (name f :: names). split; [cbn; now rewrite Hn|].
    cbn [wait_while_processing]. rewrite Hs, Hg, Hw. now rewrite <- app_assoc.
Qed.

(** A wait that only ever sees PROCESSING outlasts any fuel. *)
Lemma wait_stuck (w : world) :
  (forall i nm, exists f', get_file w i nm = Ok f' /\ state f' = "PROCESSING") ->
  forall fuel i f log,
    state f = "PROCESSING" -> wait_while_processing w fuel i f log = None.
Proof.
  intros Hw. induction fuel as [|fuel IH]; intros i f log Hs;
    cbn [wait_while_processing]; rewrite Hs; cbn.
  - reflexivity.
  - destruct (Hw i (name f)) as (f' & -> & Hs'). now apply IH.
Qed.

Lemma upload_ingested (w : world) (fuel : nat) (path : string) (n : nat)
    (g : file) :
  ingested w fuel path n g ->
  exists names,
    List.length names = n /\
    upload_video_to_gemini w fuel path []
    = Some (Ok g, ([Upload path (mime_type_of path w)] ++ map GetFile names)%list).
Proof.
  intros (_ & f & Hup & Hs & Hle & Hg).
  destruct (wait_settles_count _ _ _ _ _ Hs fuel
              [Upload path (mime_type_of path w)] Hle) as (names & Hn & Hw).
  exists names. split; [assumption|].
  unfold upload_video_to_gemini. cbn [app].
  rewrite Hup. cbn [app] in Hw. now rewrite Hw, Hg.
Qed.

Lemma extracts_ingested (w : world) (fuel : nat) (path text : string) :
  extracts w fuel path text ->
  exists n g, ingested w fuel path n g /\
              generate_content w g (analysis_prompt w) = Ok text.
Proof.
  intros (Hkey & f & n & g & Hup & Hs & Hle & Hg & Hgen).
  exists n, g. split; [|assumption]. split; [assumption|]. exists f. auto.
Qed.

Lemma is_parse_error_failure (s : string) :
  is_parse_error
    [ ("error", VBool true); ("error_type", VStr "parse_error");
      ("message", VStr "Failed to parse JSON response");
      ("raw_response", VStr s) ] = true.
Proof. reflexivity. Qed.

Lemma no_delete_polls (path mime : string) (names : list string) :
  existsb is_delete ([Upload path mime] ++ map GetFile names) = false.
Proof. cbn. induction names; cbn; auto. Qed.


(** What [finish] can return. *)
Lemma finish_cases (v : value) (r : dict) :
  finish v = Ok r ->
  is_parse_error r = true \/
  (exists d, r = no_pet_result d) \/
  (exists d r', Normalizer.validate_and_enrich_response d = Ok r' /\
                r = add_metadata r').
Proof.
  destruct v as [| | | | | |d]; try discriminate. unfold finish.
  destruct (is_parse_error d) eqn:Hpe.
  - intros [= <-]. now left.
  - destruct (eq_False _).
    + intros [= <-]. right. left. now exists d.
    + destruct (Normalizer.validate_and_enrich_response d) as [r'|] eqn:Hv;
        [|discriminate].
      cbn [bind]. destruct (report _); [|discriminate].
      cbn [bind]. intros [= <-]. right. right. now exists d, r'.
Qed.

Lemma attempt_ok (w : world) (fuel : nat) (path : string) (r0 : dict)
    (vf : option file) (log : list event) :
  attempt w fuel path = Some (Ok r0, vf, log) -> exists v, finish v = Ok r0.
Proof.
  unfold attempt, analyze_video_with_gemini.
  destruct (get_gemini_client w); [|discriminate].
  destruct (upload_video_to_gemini w fuel path []) as [[[g|e] l]|];
    try discriminate.
  destruct (generate_content w g (analysis_prompt w)) as [text|e];
    [|discriminate].
  intros [= H _ _].
  destruct (Extractor.parse_json_response (json_loads w) text) as [v|e];
    [|discriminate].
  cbn [bind] in H. eauto.
Qed.

(** What [analyze_video] can return. *)
Lemma analyze_video_cases (w : world) (fuel : nat) (path : string)
    (use_cache : bool) (r : dict) (log : list event) :
  analyze_video w fuel path use_cache = Some (r, log) ->
  (exists message, r = analysis_failed message) \/
  is_parse_error r = true \/
  (exists d, r = no_pet_result d) \/
  (exists d r', Normalizer.validate_and_enrich_response d = Ok r' /\
                r = add_metadata r').
Proof.
  unfold analyze_video.
  destruct (attempt w fuel path) as [[[res vf] log0]|] eqn:Ha; [|discriminate].
  intros [= <- _]. destruct res as [r0|e].
  - right. destruct (attempt_ok _ _ _ _ _ _ Ha) as (v & Hv).
    exact (finish_cases _ _ Hv).
  - left. eauto.
Qed.

(** Whatever the wait ends with, it has only added polls to the log. *)
Lemma wait_log (w : world) (fuel i : nat) (f : file) (log log' : list event)
    (res : outcome file) :
  wait_while_processing w fuel i f log = Some (res, log') ->
  exists names, log' = (log ++ map GetFile names)%list.
Proof.
  revert i f log. induction fuel as [|fuel IH]; intros i f log;
    cbn [wait_while_processing];
    destruct (state f =? "PROCESSING")%string.
  - discriminate.
  - intros [= _ <-]. exists []. now rewrite app_nil_r.
  - destruct (get_file w i (name f)) as [f'|e].
    + intros H. destruct (IH _ _ _ H) as (names & ->).
      exists (name f :: names). now rewrite <- app_assoc.
    + intros [= _ <-]. now exists [name f].
  - intros [= _ <-]. exists []. now rewrite app_nil_r.
Qed.

Lemma upload_log (w : world) (fuel : nat) (path : string)
    (res : outcome file) (log : list event) :
  upload_video_to_gemini w fuel path [] = Some (res, log) ->
  exists names,
    log = ([Upload path (mime_type_of path w)] ++ map GetFile names)%list.
Proof.
  unfold upload_video_to_gemini. cbn [app].
  destruct (upload_file w path (mime_type_of path w)) as [f|e].
  - destruct (wait_while_processing w fuel 0 f _) as [[res' log']|] eqn:Hw;
      [|discriminate].
    destruct (wait_log _ _ _ _ _ _ _ Hw) as (names & ->).
    intros H. exists names.
    destruct res' as [g|e]; [destruct (state g =? "FAILED")%string|];
      now injection H as _ <-.
  - intros [= _ <-]. now exists [].
Qed.

Lemma mime_type_allowed (w : world) (path : string) :
  Api.mem (mime_type_of path w) Api.allowed_types = true.
Proof.
  unfold mime_type_of, mime_types. cbn [lookup].
  repeat match goal with
  | |- context [(extension w path =? ?s)%string] =>
      destruct (extension w path =? s)%string; [reflexivity|]
  end.
  reflexivity.
Qed.

End OrchestratorMore.

Import Runs OrchestratorMore.

(** X8. What becomes of a response that does not decode, once the run
    has reached extraction.  When [json.loads] raises [JSONDecodeError] on
    every text the strategies try, the orchestrator returns the
    parse-failure dict as it is: four keys, the raw response cut to 1000
    characters, and no run metadata.  When [json.loads] raises anything
    else on a text that is tried, the extractor raises it and the
    orchestrator returns [analysis_failed] with the message of that
    exception, and with the run metadata. *)
Theorem unparseable_response_returned (w : world) (fuel : nat)
    (video_path response_text : string) (use_cache : bool) :
  extracts w fuel video_path response_text ->
  (json_loads w response_text = Raise JSONDecodeError ->
   Extractor.attempt (json_loads w) (fenced_interior response_text) = None ->
   Extractor.attempt (json_loads w) (brace_span response_text) = None ->
   exists log,
     analyze_video w fuel video_path use_cache =
     Some ([ ("error", VBool true);
             ("error_type", VStr "parse_error");
             ("message", VStr "Failed to parse JSON response");
             ("raw_response", VStr (Text.take 1000 response_text)) ], log)) /\
  (forall e,
     parse_json_response (json_loads w) response_text = Raise e ->
     exists log,
       analyze_video w fuel video_path use_cache =
       Some ([ ("error", VBool true);
               ("error_type", VStr "analysis_failed");
               ("message", VStr (str w e));
               ("_model_used", VStr "gemini-2.0-flash");
               ("_from_cache", VBool false) ], log)) /\
  (forall e,
     json_loads w response_text = Raise e -> e <> JSONDecodeError ->
     parse_json_response (json_loads w) response_text = Raise e).
Proof.
  intros Hx.
  destruct (analyze_video_extracts _ _ _ _ use_cache Hx) as (log & Ha).
  split; [|split].
  - intros H1 H2 H3. exists log. rewrite Ha.
    rewrite ExtractorFacts.parse_json_response_reference.
    unfold reference_extract. cbn [first_success Extractor.attempt].
    apply ExtractorFacts.try_loads_none in H1.
    now rewrite H1, H2, H3.
  - intros e He. exists log. now rewrite Ha, He.
  - intros e He Hne.
    rewrite ExtractorFacts.parse_json_response_reference.
    unfold reference_extract. cbn [first_success Extractor.attempt].
    now rewrite (proj2 (ExtractorFacts.try_loads_raise _ _ _) (conj He Hne)).
Qed.

Lemma unparseable_response_returned_witness :
  (exists log,
     analyze_video (example_world ["ACTIVE"] "not json at all") 0 "clip.mp4" true
     = Some ([ ("error", VBool true);
               ("error_type", VStr "parse_error");
               ("message", VStr "Failed to parse JSON response");
               ("raw_response", VStr "not json at all") ], log)) /\
  (exists log,
     analyze_video (example_world ["ACTIVE"] Json.example_long_integer)
       0 "clip.mp4" true
     = Some ([ ("error", VBool true);
               ("error_type", VStr "analysis_failed");
               ("message",
                VStr ("Exceeds the limit (4300 digits) for integer string "
                      ++ "conversion: value has 5000 digits; use "
                      ++ "sys.set_int_max_str_digits() to increase the limit"));
               ("_model_used", VStr "gemini-2.0-flash");
               ("_from_cache", VBool false) ], log)).
Proof.
  split.
  - apply (proj1 (unparseable_response_returned
                    (example_world ["ACTIVE"] "not json at all") 0 "clip.mp4"
                    "not json at all" true
                    ltac:(replay_extracts
                            {| name := "files/video"; state := "ACTIVE" |} 0%nat
                            {| name := "files/video"; state := "ACTIVE" |})));
      vm_compute; reflexivity.
  - apply (proj1 (proj2 (unparseable_response_returned
                    (example_world ["ACTIVE"] Json.example_long_integer)
                    0 "clip.mp4" Json.example_long_integer true
                    ltac:(replay_extracts
                            {| name := "files/video"; state := "ACTIVE" |} 0%nat
                            {| name := "files/video"; state := "ACTIVE" |})))
             (Json.digit_limit_error 5000)).
    vm_compute. reflexivity.
Defined.

(** X9. Without an API key, unset or empty, the orchestrator returns
    [analysis_failed] with the message of [get_gemini_client], and makes
    no remote call at all. *)
Theorem missing_api_key (w : world) (fuel : nat) (video_path : string)
    (use_cache : bool) :
  api_key w = None \/ api_key w = Some "" ->
  analyze_video w fuel video_path use_cache =
  Some ([ ("error", VBool true);
          ("error_type", VStr "analysis_failed");
          ("message", VStr "GEMINI_API_KEY environment variable not set");
          ("_model_used", VStr "gemini-2.0-flash");
          ("_from_cache", VBool false) ], []).
Proof.
  intros Hk. unfold analyze_video, attempt, get_gemini_client.
  destruct Hk as [-> | ->]; reflexivity.
Qed.

Lemma missing_api_key_witness :
  analyze_video (without_key (example_world ["ACTIVE"] "{}")) 3 "clip.mp4" true =
  Some ([ ("error", VBool true);
          ("error_type", VStr "analysis_failed");
          ("message", VStr "GEMINI_API_KEY environment variable not set");
          ("_model_used", VStr "gemini-2.0-flash");
          ("_from_cache", VBool false) ], []).
Proof. apply missing_api_key. left. reflexivity. Defined.

(** X10. The remote calls of any finished run follow one protocol: none
    at all; or one upload followed by polls only; or one upload, polls,
    one inference call, and last the deletion of the file inference was
    given.  So nothing is deleted that was not analysed, and nothing is
    analysed or uploaded twice. *)
Theorem remote_protocol (w : world) (fuel : nat) (video_path : string)
    (use_cache : bool) (r : dict) (log : list event) :
  analyze_video w fuel video_path use_cache = Some (r, log) ->
  log = [] \/
  (exists names,
     log = ([Upload video_path (mime_type_of video_path w)]
            ++ map GetFile names)%list) \/
  (exists names g,
     log = ([Upload video_path (mime_type_of video_path w)]
            ++ map GetFile names ++ [Generate g; Delete (name g)])%list).
Proof.
  unfold analyze_video, attempt, analyze_video_with_gemini.
  destruct (get_gemini_client w).
  - destruct (upload_video_to_gemini w fuel video_path []) as [[res l]|] eqn:Hu;
      [|discriminate].
    destruct (upload_log _ _ _ _ _ Hu) as (names & ->).
    destruct res as [g|e].
    + destruct (generate_content w g (analysis_prompt w));
        intros [= _ <-]; right; right; exists names, g;
        now rewrite <- !app_assoc.
    + intros [= _ <-]. right. left. now exists names.
  - intros [= _ <-]. now left.
Qed.

Lemma remote_protocol_witness :
  exists r,
    analyze_video (example_world ["PROCESSING"; "PROCESSING"; "ACTIVE"] "{}")
      4 "clip.mp4" true =
    Some (r, [ Upload "clip.mp4" "video/mp4";
               GetFile "files/video"; GetFile "files/video";
               Generate {| name := "files/video"; state := "ACTIVE" |};
               Delete "files/video" ]).
Proof.
  eexists.
  destruct (remote_protocol
              (example_world ["PROCESSING"; "PROCESSING"; "ACTIVE"] "{}")
              4 "clip.mp4" true _ _ eq_refl) as [H|[(names & H)|(names & g & H)]];
    reflexivity.
Defined.

(** X11. Once ingestion has settled in a state other than FAILED, the run
    is: the upload, one poll per PROCESSING state seen, inference on the
    settled file, and the deletion of that file, whatever inference
    answers or raises and whatever becomes of its answer. *)
Theorem uploaded_file_released (w : world) (fuel : nat) (video_path : string)
    (use_cache : bool) (n : nat) (g : file) :
  ingested w fuel video_path n g ->
  exists r names,
    List.length names = n /\
    analyze_video w fuel video_path use_cache =
    Some (r, ([Upload video_path (mime_type_of video_path w)]
              ++ map GetFile names ++ [Generate g; Delete (name g)])%list).
Proof.
  intros H. pose proof H as (Hkey & _).
  destruct (upload_ingested _ _ _ _ _ H) as (names & Hn & Hup).
  unfold analyze_video, attempt, analyze_video_with_gemini.
  rewrite Hkey, Hup.
  destruct (generate_content w g (analysis_prompt w));
    eexists; exists names; (split; [exact Hn|]);
    now rewrite <- !app_assoc.
Qed.

Lemma uploaded_file_released_witness :
  exists r names,
    List.length names = 0%nat /\
    analyze_video (faulty_world false false) 0 "clip.mov" true =
    Some (r, ([Upload "clip.mov" "video/quicktime"]
              ++ map GetFile names
              ++ [Generate {| name := "files/video"; state := "ACTIVE" |};
                  Delete "files/video"])%list).
Proof.
  apply (uploaded_file_released (faulty_world false false) 0 "clip.mov" true 0
           {| name := "files/video"; state := "ACTIVE" |}).
  split; [reflexivity|].
  exists {| name := "files/video"; state := "ACTIVE" |}.
  split; [reflexivity|]. split; [replay_polls | split; [lia | reflexivity]].
Defined.

(** X12. When ingestion ends as FAILED the uploaded file is not released:
    the run makes the upload and the polls and no deletion. *)
Theorem failed_ingestion_not_released (w : world) (fuel : nat)
    (video_path : string) (use_cache : bool) :
  ingestion_fails w fuel video_path ->
  exists r log,
    analyze_video w fuel video_path use_cache = Some (r, log) /\
    existsb is_delete log = false.
Proof.
  intros H. pose proof H as (Hkey & _).
  destruct (upload_fails _ _ _ H) as (names & Hup).
  unfold analyze_video, attempt. rewrite Hkey, Hup.
  eexists. eexists. split; [reflexivity|]. apply no_delete_polls.
Qed.

Lemma failed_ingestion_not_released_witness :
  exists r log,
    analyze_video (example_world ["PROCESSING"; "FAILED"] "{}") 2 "clip.mp4" false
      = Some (r, log) /\
    existsb is_delete log = false.
Proof.
  apply failed_ingestion_not_released.
  split; [reflexivity|].
  exists {| name := "files/video"; state := "PROCESSING" |}, 1%nat,
         {| name := "files/video"; state := "FAILED" |}.
  split; [reflexivity|]. split; [replay_polls | split; [lia | reflexivity]].
Defined.

(** X13. A fault of the remote side never leaves the orchestrator as an
    exception: raised by the upload, by a poll or by inference, it comes
    back as [analysis_failed] with the fault's message.  Only in the last
    case has a file been handed over, and it is deleted. *)
Theorem remote_faults_reported (w : world) (fuel : nat) (video_path : string)
    (use_cache : bool) (e : exn) :
  get_gemini_client w = Ok tt ->
  (upload_file w video_path (mime_type_of video_path w) = Raise e ->
   analyze_video w fuel video_path use_cache =
   Some (analysis_failed (str w e),
         [Upload video_path (mime_type_of video_path w)])) /\
  (forall f n,
     upload_file w video_path (mime_type_of video_path w) = Ok f ->
     poll_raises w 0 f n e -> (n <= fuel)%nat ->
     exists names,
       List.length names = n /\
       analyze_video w fuel video_path use_cache =
       Some (analysis_failed (str w e),
             ([Upload video_path (mime_type_of video_path w)]
              ++ map GetFile names)%list)) /\
  (forall n g,
     ingested w fuel video_path n g ->
     generate_content w g (analysis_prompt w) = Raise e ->
     exists log,
       analyze_video w fuel video_path use_cache =
       Some (analysis_failed (str w e),
             (log ++ [Generate g; Delete (name g)])%list)).
Proof.
  intros Hkey. split; [|split].
  - intros Hup. unfold analyze_video, attempt, upload_video_to_gemini.
    now rewrite Hkey, Hup.
  - intros f n Hup Hp Hle.
    destruct (wait_raises _ _ _ _ _ Hp fuel
                [Upload video_path (mime_type_of video_path w)] Hle)
      as (names & Hn & Hw).
    exists names. split; [exact Hn|].
    unfold analyze_video, attempt, upload_video_to_gemini. cbn [app].
    rewrite Hkey, Hup. cbn [app] in Hw. now rewrite Hw.
  - intros n g Hi Hgen.
    destruct (upload_ingested _ _ _ _ _ Hi) as (names & _ & Hup).
    exists ([Upload video_path (mime_type_of video_path w)]
              ++ map GetFile names)%list.
    unfold analyze_video, attempt, analyze_video_with_gemini.
    rewrite Hkey, Hup, Hgen. now rewrite <- app_assoc.
Qed.

Lemma remote_faults_reported_witness :
  analyze_video (faulty_world true false) 3 "clip.mov" true =
    Some (analysis_failed "quota exceeded",
          [Upload "clip.mov" "video/quicktime"]) /\
  (exists names,
     List.length names = 2%nat /\
     analyze_video (faulty_world false true) 3 "clip.mov" true =
     Some (analysis_failed "connection reset",
           ([Upload "clip.mov" "video/quicktime"] ++ map GetFile names)%list)) /\
  (exists log,
     analyze_video (faulty_world false false) 3 "clip.mov" true =
     Some (analysis_failed "deadline exceeded",
           (log ++ [Generate {| name := "files/video"; state := "ACTIVE" |};
                    Delete "files/video"])%list)).
Proof.
  split; [|split].
  - apply (proj1 (remote_faults_reported (faulty_world true false) 3 "clip.mov"
                    true (RemoteError "quota exceeded") eq_refl)).
    reflexivity.
  - apply (proj1 (proj2 (remote_faults_reported (faulty_world false true) 3
                           "clip.mov" true (RemoteError "connection reset")
                           eq_refl))
             {| name := "files/video"; state := "PROCESSING" |} 2%nat);
      [reflexivity | | lia].
    eapply poll_raises_later; [reflexivity | reflexivity |].
    apply poll_raises_now; reflexivity.
  - apply (proj2 (proj2 (remote_faults_reported (faulty_world false false) 3
                           "clip.mov" true (RemoteError "deadline exceeded")
                           eq_refl))
             0%nat {| name := "files/video"; state := "ACTIVE" |});
      [|reflexivity].
    split; [reflexivity|].
    exists {| name := "files/video"; state := "ACTIVE" |}.
    split; [reflexivity|]. split; [replay_polls | split; [lia | reflexivity]].
Defined.

(** X14. Valid JSON of the wrong shape does not leave the orchestrator as
    an exception either: a decoded value that is not an object, or an
    object on which the normalizer raises, gives [analysis_failed] with
    the message of the error raised. *)
Theorem malformed_analysis_reported (w : world) (fuel : nat)
    (video_path response_text : string) (use_cache : bool) :
  extracts w fuel video_path response_text ->
  (forall v,
     parse_json_response (json_loads w) response_text = Ok v ->
     is_dict v = false ->
     exists log,
       analyze_video w fuel video_path use_cache =
       Some (analysis_failed (str w AttributeError), log)) /\
  (forall d e,
     parse_json_response (json_loads w) response_text = Ok (VDict d) ->
     is_parse_error d = false ->
     eq_False (get_or_none "pet_detected" d) = false ->
     Normalizer.validate_and_enrich_response d = Raise e ->
     exists log,
       analyze_video w fuel video_path use_cache =
       Some (analysis_failed (str w e), log)).
Proof.
  intros Hx.
  destruct (analyze_video_extracts _ _ _ _ use_cache Hx) as (log & Ha).
  split.
  - intros v Hp Hd. exists log. rewrite Ha, Hp. cbn [bind].
    now destruct v.
  - intros d e Hp Hpe Hpet Hv. exists log. rewrite Ha, Hp. cbn [bind].
    now rewrite (finish_not_parse_error _ Hpe), Hpet, Hv.
Qed.

Lemma malformed_analysis_reported_witness :
  (exists log,
     analyze_video (example_world ["ACTIVE"] "[1, 2]") 0 "clip.mp4" true =
     Some (analysis_failed "error", log)) /\
  (exists log,
     analyze_video
       (example_world ["ACTIVE"]
          ("{" ++ Json.quoted "overall_assessment" ++ ": 7}"))
       0 "clip.mp4" true =
     Some (analysis_failed "error", log)).
Proof.
  split.
  - apply (proj1 (malformed_analysis_reported
                    (example_world ["ACTIVE"] "[1, 2]") 0 "clip.mp4" "[1, 2]"
                    true
                    ltac:(replay_extracts
                            {| name := "files/video"; state := "ACTIVE" |} 0%nat
                            {| name := "files/video"; state := "ACTIVE" |}))
             (VList [VInt 1; VInt 2])).
    + vm_compute. reflexivity.
    + reflexivity.
  - apply (proj2 (malformed_analysis_reported
                    (example_world ["ACTIVE"]
                       ("{" ++ Json.quoted "overall_assessment" ++ ": 7}"))
                    0 "clip.mp4"
                    ("{" ++ Json.quoted "overall_assessment" ++ ": 7}") true
                    ltac:(replay_extracts
                            {| name := "files/video"; state := "ACTIVE" |} 0%nat
                            {| name := "files/video"; state := "ACTIVE" |}))
             [("overall_assessment", VInt 7)] AttributeError).
    + vm_compute. reflexivity.
    + reflexivity.
    + reflexivity.
    + vm_compute. reflexivity.
Defined.

(** X15. Every result the orchestrator returns is of one of four kinds:
    [analysis_failed] with some message; an extracted dict that is flagged
    as a parse failure, returned as it is; the no-pet result; or the
    normalizer's result for some dict, with the run metadata added. *)
Theorem result_kinds (w : world) (fuel : nat) (video_path : string)
    (use_cache : bool) (r : dict) (log : list event) :
  analyze_video w fuel video_path use_cache = Some (r, log) ->
  (exists message, r = analysis_failed message) \/
  is_parse_error r = true \/
  (exists d, r = no_pet_result d) \/
  (exists d r', Normalizer.validate_and_enrich_response d = Ok r' /\
                r = add_metadata r').
Proof. apply analyze_video_cases. Qed.

Lemma result_kinds_witness :
  exists d r',
    Normalizer.validate_and_enrich_response d = Ok r' /\
    analyze_video (example_world ["ACTIVE"] "{}") 0 "clip.mp4" true =
    Some (add_metadata r',
          [ Upload "clip.mp4" "video/mp4";
            Generate {| name := "files/video"; state := "ACTIVE" |};
            Delete "files/video" ]).
Proof.
  destruct (result_kinds (example_world ["ACTIVE"] "{}") 0 "clip.mp4" true
              _ _ eq_refl) as [(m & H)|[H|[(d & H)|(d & r' & Hv & H)]]];
    try discriminate.
  exists d, r'. split; [exact Hv|]. rewrite <- H. reflexivity.
Defined.



(** X17. The wait for ingestion has no time-out: with the key set and the
    upload accepted, if every poll answers PROCESSING then no number of
    polls lets the orchestrator return. *)
Theorem polling_has_no_timeout (w : world) (video_path : string)
    (use_cache : bool) (f : file) :
  get_gemini_client w = Ok tt ->
  upload_file w video_path (mime_type_of video_path w) = Ok f ->
  state f = "PROCESSING" ->
  (forall i nm, exists f', get_file w i nm = Ok f' /\ state f' = "PROCESSING") ->
  forall fuel, analyze_video w fuel video_path use_cache = None.
Proof.
  intros Hkey Hup Hs Hw fuel.
  unfold analyze_video, attempt, upload_video_to_gemini.
  now rewrite Hkey, Hup, (wait_stuck w Hw).
Qed.

Lemma polling_has_no_timeout_witness :
  analyze_video stuck_world 1000 "clip.mp4" true = None.
Proof.
  apply (polling_has_no_timeout stuck_world "clip.mp4" true
           {| name := "files/video"; state := "PROCESSING" |});
    try reflexivity.
  intros i nm. eexists. split; reflexivity.
Defined.

(** X18. Whatever the path and whatever its extension, the MIME type
    given to the upload is one of the five the upload route accepts. *)
Theorem upload_mime_type_allowed (w : world) (video_path : string) :
  Api.mem (mime_type_of video_path w) Api.allowed_types = true.
Proof. apply mime_type_allowed. Qed.


(* ================================================================== *)
(** * Properties of the upload route *)
(* ================================================================== *)

Module ApiFacts.
Import Orchestrator OrchestratorFacts Runs OrchestratorMore Api.

(** Past the two checks and the staging, the route is the analysis and
    the check of its result. *)
Lemma staged_run (h : host) (fuel : nat) (file : UploadFile) (mode : string)
    (use_cache : bool) (temp_path : string) :
  staged h file temp_path ->
  upload_and_analyze h fuel file mode use_cache =
  match analyze_video (remote h) fuel temp_path use_cache with
  | None => None
  | Some (result, calls) =>
      Some (classify h result,
            cleanup h temp_path ([Created temp_path] ++ map Called calls)%list)
  end.
Proof.
  intros (Hct & Hsz & Htmp & Hcp). unfold upload_and_analyze.
  rewrite Hct. cbn [negb].
  assert (Hlt : (100 * 1024 * 1024 <? file_size file)%Z = false)
    by (apply Z.ltb_ge; lia).
  rewrite Hlt. cbv zeta in Htmp |- *. now rewrite Htmp, Hcp.
Qed.

Lemma classify_analysis_failed (h : host) (message : string) :
  classify h (analysis_failed message) = HTTPException 500 (VStr message).
Proof. reflexivity. Qed.

Lemma classify_no_pet (h : host) (d : dict) :
  classify h (no_pet_result d) = respond h (success (no_pet_result d)).
Proof. reflexivity. Qed.

Lemma respond_done (h : host) (content : value) :
  render h content = Done tt -> respond h content = JSONResponse 200 content.
Proof. unfold respond. now intros ->. Qed.

Lemma respond_failed (h : host) (content : value) (message : string) :
  render h content = Failed message ->
  respond h content = HTTPException 500 (VStr ("Analysis failed: " ++ message)).
Proof. unfold respond. now intros ->. Qed.

Lemma serve_done (h : host) (content : value) :
  render h content = Done tt -> serve h content = JSONResponse 200 content.
Proof. unfold serve. now intros ->. Qed.

Lemma serve_failed (h : host) (content : value) (message : string) :
  render h content = Failed message ->
  serve h content = global_exception_handler message.
Proof. unfold serve. now intros ->. Qed.

(** The answers the check for errors can give. *)
Lemma classify_status (h : host) (result : dict) :
  (exists detail, classify h result = HTTPException 500 detail) \/
  (exists message,
     render h (success result) = Failed message /\
     truthy (get_or_none "error" result) = false /\
     classify h result = global_exception_handler message) \/
  (classify h result = JSONResponse 200 (success result) /\
   render h (success result) = Done tt /\
   (truthy (get_or_none "error" result) = true ->
    dget "error_type" result = Some (VStr "no_pet_detected"))).
Proof.
  unfold classify. destruct (truthy (get_or_none "error" result)).
  - destruct (dget "error_type" result) as [t|] eqn:Ht.
    + destruct (eq_str t "no_pet_detected") eqn:He.
      * unfold respond.
        destruct (render h (success result)) as [[]|message].
        -- right. right. split; [reflexivity|]. split; [reflexivity|].
           intros _. destruct t; try discriminate. cbn [eq_str] in He.
           apply String.eqb_eq in He. now subst.
        -- left. unfold failure. eauto.
      * left. eauto.
    + left. change (eq_str (VStr "unknown") "no_pet_detected") with false.
      eauto.
  - unfold serve. destruct (render h (success result)) as [[]|message].
    + right. right. split; [reflexivity|]. split; [reflexivity|]. discriminate.
    + right. left. exists message. auto.
Qed.

(** Its status is 500 or 200. *)
Lemma classify_not_400 (h : host) (result : dict) :
  status_of (classify h result) <> 400%Z.
Proof.
  destruct (classify_status h result)
    as [(detail & ->)|[(message & _ & _ & ->)|(-> & _)]]; discriminate.
Qed.

(** A key outside the canonical ones holds after normalization what it
    held before, bound or not. *)
Lemma validate_dget_other (r r' : dict) (k : string) :
  Normalizer.validate_and_enrich_response r = Ok r' ->
  dget k Normalizer.defaults = None ->
  dget k r' = dget k r.
Proof.
  intros Hv Hk.
  destruct (validate_inv _ _ Hv) as (oa1 & zl & _ & _ & Ht).
  assert (Hil : k <> "interpret_lines") by (intros ->; discriminate).
  assert (Hoa : k <> "overall_assessment") by (intros ->; discriminate).
  rewrite (truncate_lines_dget _ _ _ Ht Hil).
  rewrite DictFacts.dget_dset_other by assumption.
  unfold Normalizer.merge_defaults.
  rewrite dget_merge_with by apply NoDup_defaults. now rewrite Hk.
Qed.

Lemma add_metadata_dget (r : dict) (k : string) :
  k <> "_model_used" -> k <> "_from_cache" -> k <> "_analysis_version" ->
  dget k (add_metadata r) = dget k r.
Proof.
  intros H1 H2 H3. unfold add_metadata.
  now rewrite !DictFacts.dget_dset_other.
Qed.

(** The three keys the route reads are the remote side's own after a
    successful analysis. *)
Lemma analysed_fields (d r' : dict) (k : string) :
  Normalizer.validate_and_enrich_response d = Ok r' ->
  k = "error" \/ k = "error_type" \/ k = "message" ->
  dget k (add_metadata r') = dget k d.
Proof.
  intros Hv [-> | [-> | ->]];
    (rewrite add_metadata_dget by discriminate);
    now apply validate_dget_other.
Qed.

End ApiFacts.

Import Api ApiFacts.

(** X19. The route rejects with status 400, before staging anything or
    calling the remote side: a content type outside the five allowed ones
    (a missing or empty one counting as video/mp4), and, the type being
    allowed, a size above 104857600 bytes.  A size of exactly 104857600
    passes. *)
Theorem upload_rejected (h : host) (fuel : nat) (file : UploadFile)
    (mode : string) (use_cache : bool) :
  (mem (or_else (content_type file) "video/mp4") allowed_types = false ->
   upload_and_analyze h fuel file mode use_cache =
   Some (HTTPException 400
           (VStr ("Invalid file type: "
                  ++ or_else (content_type file) "video/mp4"
                  ++ ". Allowed: mp4, mov, avi, webm")), [])) /\
  (mem (or_else (content_type file) "video/mp4") allowed_types = true ->
   (104857600 < file_size file)%Z ->
   upload_and_analyze h fuel file mode use_cache =
   Some (HTTPException 400 (VStr "Video too large. Maximum size is 100MB."),
         [])) /\
  (forall resp log,
     upload_and_analyze h fuel file mode use_cache = Some (resp, log) ->
     status_of resp = 400%Z ->
     (mem (or_else (content_type file) "video/mp4") allowed_types = false \/
      (104857600 < file_size file)%Z) /\ log = []).
Proof.
  split; [|split].
  - intros Hct. unfold upload_and_analyze. now rewrite Hct.
  - intros Hct Hsz. unfold upload_and_analyze. rewrite Hct. cbn [negb].
    apply Z.ltb_lt in Hsz. change (100 * 1024 * 1024)%Z with 104857600%Z.
    now rewrite Hsz.
  - intros resp log. unfold upload_and_analyze.
    destruct (mem _ allowed_types) eqn:Hct; cbn [negb].
    + change (100 * 1024 * 1024)%Z with 104857600%Z.
      destruct (104857600 <? file_size file)%Z eqn:Hsz.
      * intros [= <- <-] _. apply Z.ltb_lt in Hsz. auto.
      * cbv zeta.
        destruct (named_temporary_file h _) as [p|m];
          [|intros [= <- _]; discriminate].
        destruct (copyfileobj h p) as [u|m];
          [|intros [= <- _]; discriminate].
        destruct (analyze_video (remote h) fuel p use_cache) as [[result calls]|];
          [|discriminate].
        intros [= <- _] Hs. exfalso.
        exact (classify_not_400 h result Hs).
    + intros [= <- <-] _. auto.
Qed.

Lemma upload_rejected_witness :
  upload_and_analyze (example_host (example_world ["ACTIVE"] "{}")) 0
    {| content_type := Some "image/png"; filename := Some "cat.png";
       file_size := 10 |} "full" true =
  Some (HTTPException 400
          (VStr "Invalid file type: image/png. Allowed: mp4, mov, avi, webm"),
        []) /\
  upload_and_analyze (example_host (example_world ["ACTIVE"] "{}")) 0
    {| content_type := None; filename := Some "clip.mp4";
       file_size := 104857601 |} "full" true =
  Some (HTTPException 400 (VStr "Video too large. Maximum size is 100MB."), []).
Proof.
  split.
  - apply (proj1 (upload_rejected
                    (example_host (example_world ["ACTIVE"] "{}")) 0
                    {| content_type := Some "image/png";
                       filename := Some "cat.png"; file_size := 10 |}
                    "full" true)).
    reflexivity.
  - apply (proj1 (proj2 (upload_rejected
                    (example_host (example_world ["ACTIVE"] "{}")) 0
                    {| content_type := None; filename := Some "clip.mp4";
                       file_size := 104857601 |} "full" true)));
      [reflexivity | cbn; lia].
Defined.



(** X21. A video without a pet is answered 200, not as a fault, when the
    body can be rendered: the upload staged, the run reaching extraction
    and the extracted dict saying [pet_detected: false] (and being no
    in-band parse failure), the body is success with the no-pet result as
    data.  When [JSONResponse] cannot render that body, as with a NaN for
    the remote message, what it raises is caught in the route and the
    answer is 500, "Analysis failed: " followed by the message of the
    exception. *)
Theorem no_pet_answered_200 (h : host) (fuel : nat) (file : UploadFile)
    (mode : string) (use_cache : bool) (temp_path response_text : string)
    (d : dict) :
  staged h file temp_path ->
  extracts (remote h) fuel temp_path response_text ->
  parse_json_response (json_loads (remote h)) response_text = Ok (VDict d) ->
  dget "pet_detected" d = Some (VBool false) ->
  is_parse_error d = false ->
  (render h (VDict [ ("success", VBool true);
                     ("data", VDict (no_pet_result d)) ]) = Done tt ->
   exists log,
     upload_and_analyze h fuel file mode use_cache =
     Some (JSONResponse 200
             (VDict [ ("success", VBool true);
                      ("data", VDict (no_pet_result d)) ]), log)) /\
  (forall message,
     render h (VDict [ ("success", VBool true);
                       ("data", VDict (no_pet_result d)) ]) = Failed message ->
     exists log,
       upload_and_analyze h fuel file mode use_cache =
       Some (HTTPException 500 (VStr ("Analysis failed: " ++ message)), log)).
Proof.
  intros Hst Hx Hp Hpet Hpe.
  destruct (analyze_video_extracts _ _ _ _ use_cache Hx) as (calls & Ha).
  rewrite (staged_run _ _ _ mode use_cache _ Hst), Ha, Hp. cbn [bind].
  rewrite (finish_not_parse_error _ Hpe). unfold get_or_none. rewrite Hpet.
  cbn [eq_False negb]. rewrite classify_no_pet. unfold success. split.
  - intros Hr. rewrite (respond_done _ _ Hr). eauto.
  - intros message Hr. rewrite (respond_failed _ _ _ Hr). eauto.
Qed.

Lemma no_pet_answered_200_witness :
  (exists log,
     upload_and_analyze
       (example_host (example_world ["ACTIVE"] Json.example_no_pet)) 0
       example_upload "full" true =
     Some (JSONResponse 200
             (VDict [ ("success", VBool true);
                      ("data",
                       VDict [ ("error", VBool true);
                               ("error_type", VStr "no_pet_detected");
                               ("message", VStr "Only a sofa");
                               ("_model_used", VStr "gemini-2.0-flash");
                               ("_from_cache", VBool false) ]) ]), log)) /\
  (exists log,
     upload_and_analyze
       (example_host (example_world ["ACTIVE"] Json.example_no_pet_nan)) 0
       example_upload "full" true =
     Some (HTTPException 500
             (VStr ("Analysis failed: "
                    ++ "Out of range float values are not JSON compliant")),
           log)).
Proof.
  split.
  - apply (proj1 (no_pet_answered_200
             (example_host (example_world ["ACTIVE"] Json.example_no_pet)) 0
             example_upload "full" true "/tmp/tmpvideo.mp4" Json.example_no_pet
             [("pet_detected", VBool false); ("message", VStr "Only a sofa")]
             ltac:(repeat split; cbn; lia || reflexivity)
             ltac:(replay_extracts
                     {| name := "files/video"; state := "ACTIVE" |} 0%nat
                     {| name := "files/video"; state := "ACTIVE" |})
             ltac:(vm_compute; reflexivity) eq_refl eq_refl)).
    reflexivity.
  - apply (proj2 (no_pet_answered_200
             (example_host (example_world ["ACTIVE"] Json.example_no_pet_nan)) 0
             example_upload "full" true "/tmp/tmpvideo.mp4"
             Json.example_no_pet_nan
             [("pet_detected", VBool false); ("message", VFloat FNan)]
             ltac:(repeat split; cbn; lia || reflexivity)
             ltac:(replay_extracts
                     {| name := "files/video"; state := "ACTIVE" |} 0%nat
                     {| name := "files/video"; state := "ACTIVE" |})
             ltac:(vm_compute; reflexivity) eq_refl eq_refl)).
    reflexivity.
Defined.

(** X22. The faults of the analysis reach the client as status 500 with
    the message of the result as detail: "Video processing failed: FAILED"
    when ingestion fails; "Failed to parse JSON response" when
    [json.loads] raises [JSONDecodeError] on every text the strategies
    try; the message of the exception when the extractor raises, which it
    does when [json.loads] raises anything else; and the message of
    [get_gemini_client] when the API key is not set. *)
Theorem analysis_faults_answered_500 (h : host) (fuel : nat)
    (file : UploadFile) (mode : string) (use_cache : bool)
    (temp_path : string) :
  staged h file temp_path ->
  (ingestion_fails (remote h) fuel temp_path ->
   exists log,
     upload_and_analyze h fuel file mode use_cache =
     Some (HTTPException 500 (VStr "Video processing failed: FAILED"), log)) /\
  (forall response_text,
     extracts (remote h) fuel temp_path response_text ->
     json_loads (remote h) response_text = Raise JSONDecodeError ->
     Extractor.attempt (json_loads (remote h)) (fenced_interior response_text)
       = None ->
     Extractor.attempt (json_loads (remote h)) (brace_span response_text)
       = None ->
     exists log,
       upload_and_analyze h fuel file mode use_cache =
       Some (HTTPException 500 (VStr "Failed to parse JSON response"), log)) /\
  (forall response_text e,
     extracts (remote h) fuel temp_path response_text ->
     parse_json_response (json_loads (remote h)) response_text = Raise e ->
     exists log,
       upload_and_analyze h fuel file mode use_cache =
       Some (HTTPException 500 (VStr (str (remote h) e)), log)) /\
  (api_key (remote h) = None \/ api_key (remote h) = Some "" ->
   exists log,
     upload_and_analyze h fuel file mode use_cache =
     Some (HTTPException 500
             (VStr "GEMINI_API_KEY environment variable not set"), log)).
Proof.
  intros Hst. rewrite (staged_run _ _ _ mode use_cache _ Hst).
  split; [|split; [|split]].
  - intros Hf. pose proof Hf as (Hkey & _).
    destruct (upload_fails _ _ _ Hf) as (names & Hup).
    unfold analyze_video, Orchestrator.attempt. rewrite Hkey, Hup.
    eexists. reflexivity.
  - intros text Hx H1 H2 H3.
    destruct (analyze_video_extracts _ _ _ _ use_cache Hx) as (calls & ->).
    rewrite ExtractorFacts.parse_json_response_reference.
    unfold reference_extract. cbn [first_success Extractor.attempt].
    apply ExtractorFacts.try_loads_none in H1. rewrite H1, H2, H3.
    eexists. reflexivity.
  - intros text e Hx He.
    destruct (analyze_video_extracts _ _ _ _ use_cache Hx) as (calls & ->).
    rewrite He. eexists. reflexivity.
  - intros Hk. unfold analyze_video, Orchestrator.attempt, get_gemini_client.
    destruct Hk as [-> | ->]; eexists; reflexivity.
Qed.

Lemma analysis_faults_answered_500_witness :
  (exists log,
     upload_and_analyze
       (example_host (example_world ["PROCESSING"; "FAILED"] "{}")) 1
       example_upload "full" true =
     Some (HTTPException 500 (VStr "Video processing failed: FAILED"), log)) /\
  (exists log,
     upload_and_analyze
       (example_host (example_world ["ACTIVE"] "not json at all")) 0
       example_upload "full" true =
     Some (HTTPException 500 (VStr "Failed to parse JSON response"), log)) /\
  (exists log,
     upload_and_analyze
       (example_host (example_world ["ACTIVE"] Json.example_long_integer)) 0
       example_upload "full" true =
     Some (HTTPException 500
             (VStr ("Exceeds the limit (4300 digits) for integer string "
                    ++ "conversion: value has 5000 digits; use "
                    ++ "sys.set_int_max_str_digits() to increase the limit")),
           log)) /\
  (exists log,
     upload_and_analyze
       (example_host (without_key (example_world ["ACTIVE"] "{}"))) 0
       example_upload "full" true =
     Some (HTTPException 500
             (VStr "GEMINI_API_KEY environment variable not set"), log)).
Proof.
  split; [|split; [|split]].
  - apply (proj1 (analysis_faults_answered_500
                    (example_host (example_world ["PROCESSING"; "FAILED"] "{}"))
                    1 example_upload "full" true "/tmp/tmpvideo.mp4"
                    ltac:(repeat split; cbn; lia || reflexivity))).
    split; [reflexivity|].
    exists {| name := "files/video"; state := "PROCESSING" |}, 1%nat,
           {| name := "files/video"; state := "FAILED" |}.
    split; [reflexivity|]. split; [replay_polls | split; [lia | reflexivity]].
  - apply (proj1 (proj2 (analysis_faults_answered_500
                    (example_host (example_world ["ACTIVE"] "not json at all"))
                    0 example_upload "full" true "/tmp/tmpvideo.mp4"
                    ltac:(repeat split; cbn; lia || reflexivity)))
             "not json at all").
    + replay_extracts {| name := "files/video"; state := "ACTIVE" |} 0%nat
                       {| name := "files/video"; state := "ACTIVE" |}.
    + vm_compute. reflexivity.
    + vm_compute. reflexivity.
    + vm_compute. reflexivity.
  - apply (proj1 (proj2 (proj2 (analysis_faults_answered_500
                    (example_host
                       (example_world ["ACTIVE"] Json.example_long_integer))
                    0 example_upload "full" true "/tmp/tmpvideo.mp4"
                    ltac:(repeat split; cbn; lia || reflexivity))))
             Json.example_long_integer (Json.digit_limit_error 5000)).
    + replay_extracts {| name := "files/video"; state := "ACTIVE" |} 0%nat
                       {| name := "files/video"; state := "ACTIVE" |}.
    + vm_compute. reflexivity.
  - apply (proj2 (proj2 (proj2 (analysis_faults_answered_500
                    (example_host (without_key (example_world ["ACTIVE"] "{}")))
                    0 example_upload "full" true "/tmp/tmpvideo.mp4"
                    ltac:(repeat split; cbn; lia || reflexivity))))).
    left. reflexivity.
Defined.

(** X23. A clean analysis is answered 200 with the normalized result and
    its metadata as data, when that body can be rendered: the upload
    staged, the run reaching extraction, the extracted dict without a
    truthy [error] and not saying [pet_detected: false], and the
    normalizer returning.  When the body cannot be rendered, as with a NaN
    for the distress score, the route has already returned and the answer
    is the 500 of [global_exception_handler], with the message of what the
    rendering raised. *)
Theorem analysis_answered_200 (h : host) (fuel : nat) (file : UploadFile)
    (mode : string) (use_cache : bool) (temp_path response_text : string)
    (d r' : dict) :
  staged h file temp_path ->
  extracts (remote h) fuel temp_path response_text ->
  parse_json_response (json_loads (remote h)) response_text = Ok (VDict d) ->
  truthy (get_or_none "error" d) = false ->
  eq_False (get_or_none "pet_detected" d) = false ->
  Normalizer.validate_and_enrich_response d = Ok r' ->
  (render h (VDict [ ("success", VBool true);
                     ("data", VDict (add_metadata r')) ]) = Done tt ->
   exists log,
     upload_and_analyze h fuel file mode use_cache =
     Some (JSONResponse 200
             (VDict [ ("success", VBool true);
                      ("data", VDict (add_metadata r')) ]), log)) /\
  (forall message,
     render h (VDict [ ("success", VBool true);
                       ("data", VDict (add_metadata r')) ]) = Failed message ->
     exists log,
       upload_and_analyze h fuel file mode use_cache =
       Some (JSONResponse 500
               (VDict [ ("error", VBool true);
                        ("error_type", VStr "internal_error");
                        ("message", VStr message) ]), log)).
Proof.
  intros Hst Hx Hp He Hpet Hv.
  destruct (analyze_video_extracts _ _ _ _ use_cache Hx) as (calls & Ha).
  rewrite (staged_run _ _ _ mode use_cache _ Hst), Ha, Hp. cbn [bind].
  assert (Hpe : is_parse_error d = false)
    by (unfold is_parse_error; now rewrite He).
  rewrite (finish_not_parse_error _ Hpe), Hpet, Hv.
  unfold classify, get_or_none.
  rewrite (analysed_fields _ _ "error" Hv) by auto.
  unfold get_or_none in He. rewrite He. unfold success. split.
  - intros Hr. rewrite (serve_done _ _ Hr). eauto.
  - intros message Hr. rewrite (serve_failed _ _ _ Hr). eauto.
Qed.

Lemma analysis_answered_200_witness :
  (exists r' log,
     Normalizer.validate_and_enrich_response [("species", VStr "cat")] = Ok r' /\
     upload_and_analyze
       (example_host (example_world ["ACTIVE"] Json.example_species))
       0 example_upload "full" true =
     Some (JSONResponse 200
             (VDict [ ("success", VBool true);
                      ("data", VDict (add_metadata r')) ]), log)) /\
  (exists log,
     upload_and_analyze
       (example_host (example_world ["ACTIVE"] Json.example_score_nan))
       0 example_upload "full" true =
     Some (JSONResponse 500
             (VDict [ ("error", VBool true);
                      ("error_type", VStr "internal_error");
                      ("message",
                       VStr "Out of range float values are not JSON compliant")
                    ]), log)).
Proof.
  split.
  - eexists.
    destruct (proj1 (analysis_answered_200
                (example_host (example_world ["ACTIVE"] Json.example_species))
                0 example_upload "full" true "/tmp/tmpvideo.mp4"
                Json.example_species
                [("species", VStr "cat")] _
                ltac:(repeat split; cbn; lia || reflexivity)
                ltac:(replay_extracts
                        {| name := "files/video"; state := "ACTIVE" |} 0%nat
                        {| name := "files/video"; state := "ACTIVE" |})
                ltac:(vm_compute; reflexivity) eq_refl eq_refl eq_refl)
              ltac:(vm_compute; reflexivity))
      as (log & Hlog).
    exists log. split; [reflexivity | exact Hlog].
  - apply (proj2 (analysis_answered_200
                (example_host (example_world ["ACTIVE"] Json.example_score_nan))
                0 example_upload "full" true "/tmp/tmpvideo.mp4"
                Json.example_score_nan
                [("overall_assessment",
                  VDict [("distress_score", VFloat FNan)])] _
                ltac:(repeat split; cbn; lia || reflexivity)
                ltac:(replay_extracts
                        {| name := "files/video"; state := "ACTIVE" |} 0%nat
                        {| name := "files/video"; state := "ACTIVE" |})
                ltac:(vm_compute; reflexivity) eq_refl eq_refl
                ltac:(vm_compute; reflexivity))).
    vm_compute. reflexivity.
Defined.



(** X25. What the route does on the machine follows one pattern: nothing;
    or the temporary file is created first, then come the remote calls,
    and last, when its path exists, the file is unlinked - that file and
    no other, whether the staging, the analysis or the check of its
    result failed or not. *)
Theorem temp_file_removed (h : host) (fuel : nat) (file : UploadFile)
    (mode : string) (use_cache : bool) (resp : response) (log : list action) :
  upload_and_analyze h fuel file mode use_cache = Some (resp, log) ->
  log = [] \/
  exists temp_path calls,
    log = ([Created temp_path] ++ map Called calls
           ++ (if negb (Text.is_empty temp_path) && path_exists h temp_path
               then [Unlinked temp_path] else []))%list.
Proof.
  unfold upload_and_analyze.
  destruct (mem _ allowed_types); cbn [negb]; [|intros [= _ <-]; now left].
  destruct (_ <? file_size file)%Z; [intros [= _ <-]; now left|].
  cbv zeta.
  destruct (named_temporary_file h _) as [p|m]; [|intros [= _ <-]; now left].
  destruct (copyfileobj h p) as [u|m].
  - destruct (analyze_video (remote h) fuel p use_cache) as [[result calls]|];
      [|discriminate].
    intros [= _ <-]. right. exists p, calls. unfold cleanup.
    destruct (negb (Text.is_empty p) && path_exists h p).
    + reflexivity.
    + now rewrite app_nil_r.
  - intros [= _ <-]. right. exists p, []. unfold cleanup.
    now destruct (negb (Text.is_empty p) && path_exists h p).
Qed.

Lemma temp_file_removed_witness :
  exists resp log,
    upload_and_analyze
      (example_host (example_world ["PROCESSING"; "FAILED"] "{}")) 1
      example_upload "full" true = Some (resp, log) /\
    (log = [] \/
     exists temp_path calls,
       log = ([Created temp_path] ++ map Called calls
              ++ (if negb (Text.is_empty temp_path)
                     && path_exists
                          (example_host
                             (example_world ["PROCESSING"; "FAILED"] "{}"))
                          temp_path
                  then [Unlinked temp_path] else []))%list).
Proof.
  eexists. eexists. split; [vm_compute; reflexivity|].
  apply (temp_file_removed
           (example_host (example_world ["PROCESSING"; "FAILED"] "{}")) 1
           example_upload "full" true
           (HTTPException 500 (VStr "Video processing failed: FAILED"))).
  vm_compute. reflexivity.
Defined.

(** X26. The health route and the client agree: [gemini_configured] is
    true exactly when [get_gemini_client] does not raise, that is when the
    API key is set and not empty. *)
Theorem health_matches_client (w : world) :
  dget "gemini_configured" (health_check w) = Some (VBool true)
  <-> get_gemini_client w = Ok tt.
Proof.
  unfold health_check, get_gemini_client. cbn [dget String.eqb Ascii.eqb].
  change (dget "gemini_configured" _) with
    (Some (VBool (match api_key w with
                  | Some key => negb (Text.is_empty key)
                  | None => false
                  end))).
  destruct (api_key w) as [key|]; [destruct (Text.is_empty key)|];
    cbn; split; congruence.
Qed.

Lemma health_matches_client_witness :
  dget "gemini_configured" (health_check (example_world ["ACTIVE"] "{}"))
    = Some (VBool true) /\
  dget "gemini_configured"
    (health_check (without_key (example_world ["ACTIVE"] "{}")))
    <> Some (VBool true).
Proof.
  split.
  - apply (proj2 (health_matches_client (example_world ["ACTIVE"] "{}"))).
    reflexivity.
  - intros H.
    apply (proj1 (health_matches_client
                    (without_key (example_world ["ACTIVE"] "{}")))) in H.
    discriminate H.
Defined.
